(** * Healthcare data pipeline: a shallow embedding of
    [health_data_generation.py] and the properties of its generators,
    serializers and orchestration.

    The script is Python: every function runs against process-wide state
    (the module [random] generator, Faker's own generator and its [unique]
    proxy, the storage client, standard output) and any call may raise.
    The embedding threads that state explicitly through a state-and-exception
    monad.  What the script takes from outside (random bits, the clock, the
    failures of the storage service) is an [Env]; a run is a function of it. *)

From Stdlib Require Import ZArith QArith Qround Qabs String Ascii List Lia Bool.
From stdpp Require Import gmap strings list.

Close Scope Q_scope.
Local Open Scope Z_scope.

(** ** Exceptions *)

(** The exception classes the script can meet.  All of them derive from
    Python's [Exception]. *)
Inductive exn : Type :=
| IndexError (msg : string)
| KeyError (key : string)
| ValueError (msg : string)
| AttributeError (msg : string)
| TypeError (msg : string)
| UniquenessException (msg : string)
| ArrowInvalid (msg : string)
| NotFound (what : string)
| Conflict (what : string)
| ServiceError (msg : string).

(** [str(e)] *)
Definition exn_str (e : exn) : string :=
  match e with
  | IndexError m | ValueError m | AttributeError m | TypeError m
  | UniquenessException m
  | ArrowInvalid m | ServiceError m => m
  | KeyError k => "'" +:+ k +:+ "'"
  | NotFound w => "404 " +:+ w
  | Conflict w => "409 " +:+ w
  end.

Inductive outcome (A : Type) : Type :=
| Ok (a : A)
| Raise (e : exn).
Arguments Ok {A} a.
Arguments Raise {A} e.

(** ** Data that reaches storage *)

(** A naive [datetime]: the proleptic Gregorian ordinal of its date (as
    [date.toordinal()]) and the time of day. *)
Record time_of_day := { t_hour : Z; t_minute : Z; t_second : Z; t_microsecond : Z }.
Record datetime := { dt_ordinal : Z; dt_time : time_of_day }.

(** A Python float that came out of [round(x, ndigits)]: the binary64 number
    nearest to [fd_digits / 10 ^ fd_scale].  Such a float is determined by
    the pair, and its [repr] is that decimal. *)
Record rounded_float := { fd_digits : Z; fd_scale : nat }.

(** Python values held in a DataFrame cell. *)
Inductive pyval : Type :=
| PStr (s : string)
| PInt (n : Z)
| PFloat (f : rounded_float)
| PDatetime (d : datetime).

Record DataFrame := { df_columns : list string; df_rows : list (list pyval) }.

(** Arrow column types and cells. *)
Inductive arrow_type : Type := pa_string | pa_timestamp_ms | pa_float64.

Inductive arrow_val : Type :=
| AString (s : string)
| ATimestampMs (ms : Z)
| AFloat64 (f : rounded_float).

Record arrow_table := {
  tbl_schema : list (string * arrow_type);
  tbl_columns : list (list arrow_val)
}.

(** What a blob holds.  [ParquetFile t] stands for the bytes
    [pq.write_table(t, buffer)] leaves in the buffer; the encoding itself
    belongs to the Parquet library. *)
Inductive payload : Type :=
| Text (s : string)
| ParquetFile (t : arrow_table).

Record blob := { blob_content : payload; blob_content_type : string }.

(** ** The outside world *)

Record Env := {
  (** the successive raw draws of the module-level [random] generator *)
  py_bits : nat -> Z;
  (** the successive raw draws of Faker's generator *)
  fk_bits : nat -> Z;
  (** Faker's name providers, as functions of the raw draw *)
  first_name_of : Z -> string;
  last_name_of : Z -> string;
  (** [datetime.today()] when the module is loaded *)
  today : datetime;
  (** the storage service: the i-th API request fails with [e] when
      [gcs_fault i = Some e] *)
  gcs_fault : nat -> option exn
}.

Record World := {
  py_tick : nat;
  fk_tick : nat;
  (** [fake.unique._seen[('uuid4', (), ())]], without the sentinel *)
  seen_uuid4 : gset string;
  gcs_tick : nat;
  (** the buckets of the project and their objects *)
  buckets : gmap string (gmap string blob);
  stdout : list string
}.

(** the ways the script changes the world *)
Definition tick_py (w : World) : World :=
  {| py_tick := S (py_tick w); fk_tick := fk_tick w; seen_uuid4 := seen_uuid4 w;
     gcs_tick := gcs_tick w; buckets := buckets w; stdout := stdout w |}.

Definition tick_fk (w : World) : World :=
  {| py_tick := py_tick w; fk_tick := S (fk_tick w); seen_uuid4 := seen_uuid4 w;
     gcs_tick := gcs_tick w; buckets := buckets w; stdout := stdout w |}.

Definition tick_gcs (w : World) : World :=
  {| py_tick := py_tick w; fk_tick := fk_tick w; seen_uuid4 := seen_uuid4 w;
     gcs_tick := S (gcs_tick w); buckets := buckets w; stdout := stdout w |}.

Definition with_seen (seen : gset string) (w : World) : World :=
  {| py_tick := py_tick w; fk_tick := fk_tick w; seen_uuid4 := seen;
     gcs_tick := gcs_tick w; buckets := buckets w; stdout := stdout w |}.

Definition with_buckets (b : gmap string (gmap string blob)) (w : World) : World :=
  {| py_tick := py_tick w; fk_tick := fk_tick w; seen_uuid4 := seen_uuid4 w;
     gcs_tick := gcs_tick w; buckets := b; stdout := stdout w |}.

Definition with_stdout (out : list string) (w : World) : World :=
  {| py_tick := py_tick w; fk_tick := fk_tick w; seen_uuid4 := seen_uuid4 w;
     gcs_tick := gcs_tick w; buckets := buckets w; stdout := out |}.

(** ** The monad *)

Definition M (A : Type) : Type := World -> outcome A * World.

Definition ret {A} (a : A) : M A := fun w => (Ok a, w).

Definition bind {A B} (c : M A) (k : A -> M B) : M B :=
  fun w => match c w with
           | (Ok a, w') => k a w'
           | (Raise e, w') => (Raise e, w')
           end.

Definition raise {A} (e : exn) : M A := fun w => (Raise e, w).

(** [try: c  except Exception as e: h e] *)
Definition try_except {A} (c : M A) (h : exn -> M A) : M A :=
  fun w => match c w with
           | (Ok a, w') => (Ok a, w')
           | (Raise e, w') => h e w'
           end.

Definition lift {A} (r : outcome A) : M A := fun w => (r, w).

Declare Scope py_scope.
Delimit Scope py_scope with py.
Notation "x <- c ;; k" := (bind c (fun x => k))
  (at level 100, c at next level, right associativity) : py_scope.
Notation "c ;;; k" := (bind c (fun _ => k))
  (at level 100, right associativity) : py_scope.
Local Open Scope py_scope.

(** [for _ in range(n): acc = body(acc)] *)
Fixpoint for_range {S : Type} (n : nat) (body : S -> M S) (acc : S) : M S :=
  match n with
  | O => ret acc
  | Datatypes.S n' => acc' <- body acc ;; for_range n' body acc'
  end.

(** [for x in xs: body(x)] *)
Fixpoint for_each {X : Type} (xs : list X) (body : X -> M unit) : M unit :=
  match xs with
  | [] => ret tt
  | x :: xs' => body x ;;; for_each xs' body
  end.

(** [print(s)] *)
Definition print (s : string) : M unit :=
  fun w => (Ok tt, with_stdout (stdout w ++ [s]) w).

(** ** Text

    A Python [str] is modelled by a [string] of 8-bit characters. *)

Definition LF : ascii := ascii_of_nat 10.
Definition dquote : ascii := ascii_of_nat 34.
Definition backslash : ascii := ascii_of_nat 92.

Definition digit_char (d : Z) : ascii := ascii_of_nat (48 + Z.to_nat (d mod 10)).

Fixpoint dec_digits (fuel : nat) (n : Z) (acc : string) : string :=
  match fuel with
  | O => acc
  | S fuel' =>
      let acc' := String (digit_char n) acc in
      if n <? 10 then acc' else dec_digits fuel' (n / 10) acc'
  end.

(** [str(n)] for [n >= 0] *)
Definition str_nat (n : Z) : string := dec_digits (S (Z.to_nat (Z.log2 n))) n "".

(** [str(n)] on an int *)
Definition str_int (n : Z) : string :=
  if n <? 0 then "-" +:+ str_nat (- n) else str_nat n.

(** ['%0*d' % (width, n)] for [n >= 0] *)
Fixpoint zero_pad (missing : nat) (s : string) : string :=
  match missing with
  | O => s
  | S m => String "0" (zero_pad m s)
  end.

Definition str_padded (width : nat) (n : Z) : string :=
  let s := str_nat n in zero_pad (width - String.length s) s.

Definition hex_char (d : Z) : ascii :=
  if d <? 10 then ascii_of_nat (48 + Z.to_nat d) else ascii_of_nat (87 + Z.to_nat d).

(** ['%0*x' % (width, n)], truncated to [width] digits *)
Fixpoint hex_fixed (width : nat) (n : Z) (acc : string) : string :=
  match width with
  | O => acc
  | S w => hex_fixed w (n / 16) (String (hex_char (n mod 16)) acc)
  end.

(** [sep.join(l)] *)
Fixpoint str_join (sep : string) (l : list string) : string :=
  match l with
  | [] => ""
  | [x] => x
  | x :: xs => x +:+ sep +:+ str_join sep xs
  end.

(** [s.split(c)] for a one-character separator *)
Fixpoint str_split (c : ascii) (s : string) : list string :=
  match s with
  | EmptyString => [""]
  | String a s' =>
      if Ascii.eqb a c then "" :: str_split c s'
      else match str_split c s' with
           | h :: t => String a h :: t
           | [] => [String a ""]
           end
  end.

(** [c in s] *)
Fixpoint has_char (c : ascii) (s : string) : bool :=
  match s with
  | EmptyString => false
  | String a s' => Ascii.eqb a c || has_char c s'
  end.

(** *** [json.dumps] with its defaults ([ensure_ascii=True], separators
    [", "] and [": "], no indentation) *)

Definition json_escape_char (c : ascii) : string :=
  let n := Z.of_nat (nat_of_ascii c) in
  if n =? 34 then String backslash (String dquote "")
  else if n =? 92 then String backslash (String backslash "")
  else if n =? 10 then String backslash "n"
  else if n =? 13 then String backslash "r"
  else if n =? 9 then String backslash "t"
  else if n =? 8 then String backslash "b"
  else if n =? 12 then String backslash "f"
  else if (32 <=? n) && (n <=? 126) then String c ""
  else String backslash (String "u" (hex_fixed 4 n "")).

Fixpoint json_escape (s : string) : string :=
  match s with
  | EmptyString => ""
  | String c s' => json_escape_char c +:+ json_escape s'
  end.

Definition json_string (s : string) : string :=
  String dquote (json_escape s +:+ String dquote "").

(** [repr] of a rounded float: its decimal, without trailing zeros but with
    at least one digit after the point. *)
Fixpoint strip_zeros (s : string) : string :=
  match s with
  | EmptyString => ""
  | String c s' =>
      match strip_zeros s' with
      | EmptyString => if Ascii.eqb c "0" then "" else String c ""
      | r => String c r
      end
  end.

Definition float_repr (f : rounded_float) : string :=
  let p := 10 ^ Z.of_nat (fd_scale f) in
  let a := Z.abs (fd_digits f) in
  let frac := strip_zeros (str_padded (fd_scale f) (a mod p)) in
  (if fd_digits f <? 0 then "-" else "") +:+ str_nat (a / p) +:+ "."
  +:+ (match frac with EmptyString => "0" | _ => frac end).

Definition json_value (v : pyval) : outcome string :=
  match v with
  | PStr s => Ok (json_string s)
  | PInt n => Ok (str_int n)
  | PFloat f => Ok (float_repr f)
  | PDatetime _ => Raise (TypeError "Object of type datetime is not JSON serializable")
  end.

Fixpoint json_items (kvs : list (string * pyval)) : outcome (list string) :=
  match kvs with
  | [] => Ok []
  | (k, v) :: rest =>
      match json_value v with
      | Raise e => Raise e
      | Ok sv =>
          match json_items rest with
          | Raise e => Raise e
          | Ok items => Ok ((json_string k +:+ ": " +:+ sv) :: items)
          end
      end
  end.

(** [json.dumps(d)] on a dict with string keys, in insertion order *)
Definition json_dumps (d : list (string * pyval)) : outcome string :=
  match json_items d with
  | Raise e => Raise e
  | Ok items => Ok ("{" +:+ str_join ", " items +:+ "}")
  end.

(** ** Calendar: the [datetime] module's ordinal arithmetic *)

Definition is_leap (year : Z) : bool :=
  (year mod 4 =? 0) && (negb (year mod 100 =? 0) || (year mod 400 =? 0)).

Definition DAYS_IN_MONTH : list Z := [-1; 31; 28; 31; 30; 31; 30; 31; 31; 30; 31; 30; 31].
Definition DAYS_BEFORE_MONTH : list Z := [-1; 0; 31; 59; 90; 120; 151; 181; 212; 243; 273; 304; 334].

Definition days_before_year (year : Z) : Z :=
  let y := year - 1 in y * 365 + y / 4 - y / 100 + y / 400.

Definition days_before_month (year month : Z) : Z :=
  nth (Z.to_nat month) DAYS_BEFORE_MONTH 0
  + (if (2 <? month) && is_leap year then 1 else 0).

Definition ymd2ord (year month day : Z) : Z :=
  days_before_year year + days_before_month year month + day.

Definition ord2ymd (ordinal : Z) : Z * Z * Z :=
  let n := ordinal - 1 in
  let n400 := n / 146097 in let n := n mod 146097 in
  let year := n400 * 400 + 1 in
  let n100 := n / 36524 in let n := n mod 36524 in
  let n4 := n / 1461 in let n := n mod 1461 in
  let n1 := n / 365 in let n := n mod 365 in
  let year := year + n100 * 100 + n4 * 4 + n1 in
  if (n1 =? 4) || (n100 =? 4) then (year - 1, 12, 31)
  else
    let leapyear := (n1 =? 3) && (negb (n4 =? 24) || (n100 =? 3)) in
    let month := Z.shiftr (n + 50) 5 in
    let preceding := nth (Z.to_nat month) DAYS_BEFORE_MONTH 0
                     + (if (2 <? month) && leapyear then 1 else 0) in
    if n <? preceding then
      let month := month - 1 in
      let preceding := preceding
                       - (nth (Z.to_nat month) DAYS_IN_MONTH 0
                          + (if (month =? 2) && leapyear then 1 else 0)) in
      (year, month, n - preceding + 1)
    else (year, month, n - preceding + 1).

(** [str(d)] on a date: ISO format *)
Definition date_iso (ordinal : Z) : string :=
  let '(y, m, d) := ord2ymd ordinal in
  str_padded 4 y +:+ "-" +:+ str_padded 2 m +:+ "-" +:+ str_padded 2 d.

(** [datetime.min.time()] *)
Definition time_min : time_of_day :=
  {| t_hour := 0; t_minute := 0; t_second := 0; t_microsecond := 0 |}.

(** [datetime.combine(d, t)] *)
Definition datetime_combine (ordinal : Z) (t : time_of_day) : datetime :=
  {| dt_ordinal := ordinal; dt_time := t |}.

(** [datetime(year, month, day)] *)
Definition datetime_ymd (year month day : Z) : datetime :=
  datetime_combine (ymd2ord year month day) time_min.

(** microseconds since 1970-01-01T00:00:00 of a naive datetime *)
Definition datetime_us (d : datetime) : Z :=
  let t := dt_time d in
  (((dt_ordinal d - 719163) * 24 + t_hour t) * 60 + t_minute t) * 60 * 1000000
  + t_second t * 1000000 + t_microsecond t.

(** ** Binary64 arithmetic

    A finite double is modelled by the rational it denotes.  The script's
    floats stay between 2^-53 and 5000, far from overflow and from the
    subnormal range, so rounding is to the nearest multiple of the unit in
    the last place of the 53-bit significand, ties to even. *)

(** [2 ^ z] for any integer exponent *)
Definition pow2 (z : Z) : Q :=
  if 0 <=? z then inject_Z (2 ^ z) else Qmake 1 (Z.to_pos (2 ^ (- z))).

(** round to the nearest integer, ties to even *)
Definition rne (x : Q) : Z :=
  let f := Qfloor x in
  match Qcompare (Qminus x (inject_Z f)) (Qmake 1 2) with
  | Lt => f
  | Gt => f + 1
  | Eq => if Z.even f then f else f + 1
  end.

(** the binary exponent of a positive rational: [2^e <= x < 2^(e+1)] *)
Definition ilog2 (x : Q) : Z :=
  let e0 := Z.log2 (Qnum x) - Z.log2 (Zpos (Qden x)) in
  if Qle_bool (pow2 e0) x then e0 else e0 - 1.

(** rounding of a real result to binary64 *)
Definition fl (x : Q) : Q :=
  if Qeq_bool x (inject_Z 0) then inject_Z 0
  else let u := pow2 (ilog2 (Qabs x) - 52) in
       Qmult (inject_Z (rne (Qdiv x u))) u.

(** [round(x, ndigits)] on a float: the correctly rounded decimal (ties to
    even on the exact value), converted back to the nearest double. *)
Definition py_round (x : Q) (ndigits : nat) : rounded_float :=
  {| fd_digits := rne (Qmult x (inject_Z (10 ^ Z.of_nat ndigits)));
     fd_scale := ndigits |}.

(** the double a rounded float is *)
Definition float_value (f : rounded_float) : Q :=
  fl (Qmake (fd_digits f) (Z.to_pos (10 ^ Z.of_nat (fd_scale f)))).

(** ** The generators of random values *)

Section Random.
Variable env : Env.

Definition next_py : M Z :=
  fun w => (Ok (py_bits env (py_tick w)), tick_py w).

Definition next_fk : M Z :=
  fun w => (Ok (fk_bits env (fk_tick w)), tick_fk w).

(** [random.randint(a, b)] *)
Definition randint (a b : Z) : M Z :=
  if b <? a then raise (ValueError "empty range for randrange()")
  else r <- next_py ;; ret (a + r mod (b - a + 1)).

(** [random.choice(seq)] *)
Definition choice {A : Type} (seq : list A) : M A :=
  match seq with
  | [] => raise (IndexError "Cannot choose from an empty sequence")
  | x :: _ => r <- next_py ;;
              ret (nth (Z.to_nat (r mod Z.of_nat (length seq))) seq x)
  end.

(** [random.random()]: a multiple of 2^-53 in [0, 1) *)
Definition random : M Q :=
  r <- next_py ;; ret (Qmake (r mod 2 ^ 53) (Z.to_pos (2 ^ 53))).

(** [random.uniform(a, b)], that is [a + (b - a) * random()] *)
Definition uniform (a b : Q) : M Q :=
  r <- random ;;
  ret (fl (Qplus a (fl (Qmult (fl (Qminus b a)) r)))).

End Random.

(** ** Faker *)

(** [uuid.UUID(int=i, version=4)]: variant and version bits forced *)
Definition uuid_v4_int (i : Z) : Z :=
  let i := Z.land i (Z.lnot (Z.shiftl 0xc000 48)) in
  let i := Z.lor i (Z.shiftl 0x8000 48) in
  let i := Z.land i (Z.lnot (Z.shiftl 0xf000 64)) in
  Z.lor i (Z.shiftl 4 76).

(** [str(u)] on a UUID: 8-4-4-4-12 hexadecimal digits *)
Definition uuid_str (i : Z) : string :=
  let h := hex_fixed 32 i "" in
  substring 0 8 h +:+ "-" +:+ substring 8 4 h +:+ "-" +:+ substring 12 4 h
  +:+ "-" +:+ substring 16 4 h +:+ "-" +:+ substring 20 12 h.

(** the identifier [fake.uuid4()] makes of a raw draw: 128 of its bits *)
Definition uuid_of_bits (r : Z) : string := uuid_str (uuid_v4_int (r mod 2 ^ 128)).

(** the attempts the [unique] proxy makes before it gives up *)
Definition UNIQUE_ATTEMPTS : nat := 1000.

Section Faker.
Variable env : Env.

(** [fake.uuid4()] *)
Definition uuid4 : M string :=
  r <- next_fk env ;; ret (uuid_of_bits r).

(** [fake.first_name()], [fake.last_name()] *)
Definition first_name : M string := r <- next_fk env ;; ret (first_name_of env r).
Definition last_name : M string := r <- next_fk env ;; ret (last_name_of env r).

(** [fake.zipcode()]: ['%05d' % randint(501, 99950)] on Faker's generator *)
Definition zipcode : M string :=
  r <- next_fk env ;; ret (str_padded 5 (501 + r mod (99950 - 501 + 1))).

(** [fake.date_between(start_date, end_date)]: a date of the closed window
    between the dates of the two datetimes *)
Definition date_between (start_date end_date : datetime) : M Z :=
  let s := dt_ordinal start_date in
  let e := dt_ordinal end_date in
  if e <? s then raise (ValueError "empty range for date_between")
  else r <- next_fk env ;; ret (s + r mod (e - s + 1)).

(** The loop of [UniqueProxy._wrap]:
    [for i in range(_UNIQUE_ATTEMPTS): if retval not in generated: break;
     retval = function()  else: raise UniquenessException].
    [retval = None] is the sentinel, which is always in [generated]. *)
Fixpoint unique_attempts (n : nat) (function : M string)
    (generated : gset string) (retval : option string) : M string :=
  match n with
  | O => raise (UniquenessException "Got duplicated values after 1,000 iterations.")
  | S n' =>
      match retval with
      | Some v =>
          if decide (v ∈ generated)
          then r <- function ;; unique_attempts n' function generated (Some r)
          else ret v
      | None => r <- function ;; unique_attempts n' function generated (Some r)
      end
  end.

Definition get_seen : M (gset string) := fun w => (Ok (seen_uuid4 w), w).

(** [generated.add(v)] *)
Definition add_seen (v : string) : M unit :=
  fun w => (Ok tt, with_seen ({[ v ]} ∪ seen_uuid4 w) w).

(** [fake.unique.uuid4()] *)
Definition unique_uuid4 : M string :=
  generated <- get_seen ;;
  retval <- unique_attempts UNIQUE_ATTEMPTS uuid4 generated None ;;
  add_seen retval ;;;
  ret retval.

End Faker.

(** ** pandas and pyarrow *)

(** A Python dict with string keys, in insertion order. *)
Definition pydict : Type := list (string * pyval).

Fixpoint dict_get (k : string) (d : pydict) : option pyval :=
  match d with
  | [] => None
  | (k', v) :: rest => if String.eqb k k' then Some v else dict_get k rest
  end.

(** [pd.DataFrame(records)] on a list of dicts.  An empty list gives a frame
    without columns; otherwise the columns are the keys (every list the
    script builds has the same keys in every dict, in the same order). *)
Definition DataFrame_of (records : list pydict) : DataFrame :=
  match records with
  | [] => {| df_columns := []; df_rows := [] |}
  | r :: _ =>
      let cols := map fst r in
      {| df_columns := cols;
         df_rows := map (fun d => map (fun c => default (PStr "") (dict_get c d)) cols)
                        records |}
  end.

Fixpoint index_of (k : string) (l : list string) : option nat :=
  match l with
  | [] => None
  | x :: xs => if String.eqb k x then Some O else option_map S (index_of k xs)
  end.

(** [df[col].tolist()] *)
Definition df_getitem (df : DataFrame) (col : string) : outcome (list pyval) :=
  match index_of col (df_columns df) with
  | None => Raise (KeyError col)
  | Some i => Ok (map (fun row => nth i row (PStr "")) (df_rows df))
  end.

(** *** [DataFrame.to_csv(index=False)] *)

Fixpoint csv_double_quotes (s : string) : string :=
  match s with
  | EmptyString => ""
  | String c s' =>
      if Ascii.eqb c dquote then String dquote (String dquote (csv_double_quotes s'))
      else String c (csv_double_quotes s')
  end.

Definition csv_quote (s : string) : string :=
  if has_char "," s || has_char dquote s || has_char LF s || has_char (ascii_of_nat 13) s
  then String dquote (csv_double_quotes s +:+ String dquote "")
  else s.

Definition csv_field (v : pyval) : string :=
  match v with
  | PStr s => csv_quote s
  | PInt n => str_int n
  | PFloat f => float_repr f
  | PDatetime d =>
      let t := dt_time d in
      date_iso (dt_ordinal d) +:+ " " +:+ str_padded 2 (t_hour t) +:+ ":"
      +:+ str_padded 2 (t_minute t) +:+ ":" +:+ str_padded 2 (t_second t)
  end.

Definition csv_line (fields : list string) : string :=
  str_join "," fields +:+ String LF "".

Definition to_csv (df : DataFrame) : string :=
  csv_line (map csv_quote (df_columns df))
  +:+ String.concat "" (map (fun row => csv_line (map csv_field row)) (df_rows df)).

(** *** [pa.Table.from_pandas(df, schema=schema)] *)

(** the conversion of one cell to the declared type of its column *)
Definition coerce (ty : arrow_type) (v : pyval) : outcome arrow_val :=
  match ty, v with
  | pa_string, PStr s => Ok (AString s)
  | pa_timestamp_ms, PDatetime d =>
      let us := datetime_us d in
      if us mod 1000 =? 0 then Ok (ATimestampMs (us / 1000))
      else Raise (ArrowInvalid "Casting to timestamp[ms] would lose data")
  | pa_float64, PFloat f => Ok (AFloat64 f)
  | pa_float64, PInt n => Ok (AFloat64 {| fd_digits := n; fd_scale := 0 |})
  | _, _ => Raise (ArrowInvalid "Could not convert value to the type of the column")
  end.

Fixpoint coerce_column (ty : arrow_type) (vs : list pyval) : outcome (list arrow_val) :=
  match vs with
  | [] => Ok []
  | v :: rest =>
      match coerce ty v with
      | Raise e => Raise e
      | Ok a =>
          match coerce_column ty rest with
          | Raise e => Raise e
          | Ok col => Ok (a :: col)
          end
      end
  end.

Fixpoint convert_columns (df : DataFrame) (schema : list (string * arrow_type))
    : outcome (list (list arrow_val)) :=
  match schema with
  | [] => Ok []
  | (name, ty) :: rest =>
      match df_getitem df name with
      | Raise _ =>
          Raise (KeyError ("name '" +:+ name +:+
            "' present in the specified schema is not found in the columns or index"))
      | Ok vs =>
          match coerce_column ty vs with
          | Raise e => Raise e
          | Ok col =>
              match convert_columns df rest with
              | Raise e => Raise e
              | Ok cols => Ok (col :: cols)
              end
          end
      end
  end.

Definition Table_from_pandas (df : DataFrame) (schema : list (string * arrow_type))
    : outcome arrow_table :=
  match convert_columns df schema with
  | Raise e => Raise e
  | Ok cols => Ok {| tbl_schema := schema; tbl_columns := cols |}
  end.

Definition num_columns (t : arrow_table) : nat := length (tbl_schema t).

Definition num_rows (t : arrow_table) : nat :=
  match tbl_columns t with
  | [] => O
  | c :: _ => length c
  end.

(** ** The storage service *)

Section Storage.
Variable env : Env.

(** one API request: it fails when the service says so *)
Definition api_request : M unit :=
  fun w =>
    match gcs_fault env (gcs_tick w) with
    | Some e => (Raise e, tick_gcs w)
    | None => (Ok tt, tick_gcs w)
    end.

Definition get_buckets : M (gmap string (gmap string blob)) :=
  fun w => (Ok (buckets w), w).

Definition put_buckets (b : gmap string (gmap string blob)) : M unit :=
  fun w => (Ok tt, with_buckets b w).

(** [bucket.exists()] *)
Definition bucket_exists (name : string) : M bool :=
  api_request ;;;
  b <- get_buckets ;;
  ret (match b !! name with Some _ => true | None => false end).

(** [storage_client.create_bucket(name)] *)
Definition client_create_bucket (name : string) : M unit :=
  api_request ;;;
  b <- get_buckets ;;
  match b !! name with
  | Some _ => raise (Conflict name)
  | None => put_buckets (<[name := ∅]> b)
  end.

(** [list(bucket.list_blobs(prefix=path))]: the names of the objects *)
Definition list_blobs (name path : string) : M (list string) :=
  api_request ;;;
  b <- get_buckets ;;
  match b !! name with
  | None => raise (NotFound name)
  | Some objs =>
      ret (filter (fun n => String.prefix path n = true) (map fst (map_to_list objs)))
  end.

(** [blob.delete()] *)
Definition blob_delete (name blob_name : string) : M unit :=
  api_request ;;;
  b <- get_buckets ;;
  match b !! name with
  | None => raise (NotFound name)
  | Some objs =>
      match objs !! blob_name with
      | None => raise (NotFound blob_name)
      | Some _ => put_buckets (<[name := delete blob_name objs]> b)
      end
  end.

(** [blob.upload_from_string(data, content_type)] and
    [blob.upload_from_file(buffer, content_type)] *)
Definition blob_upload (name blob_name : string) (content : payload)
    (content_type : string) : M unit :=
  api_request ;;;
  b <- get_buckets ;;
  match b !! name with
  | None => raise (NotFound name)
  | Some objs =>
      put_buckets (<[name := <[blob_name :=
        {| blob_content := content; blob_content_type := content_type |}]> objs]> b)
  end.

End Storage.

(** ** The script *)

Definition BUCKET_NAME : string := "healthcare-data-bucket-treadway".
Definition DEV_PATH : string := "dev/".
Definition PROD_PATH : string := "prod/".
Definition DEV_RECORDS : Z := 5000.
Definition PROD_RECORDS : Z := 20000.
Definition start_date : datetime := datetime_ymd 2020 1 1.

(** the argument [data] of [upload_to_gcs] *)
Inductive pydata : Type :=
| DataFrameData (df : DataFrame)
| ListData (l : list string)
| TableData (t : arrow_table).

(** the literal dict of [generate_ehr] *)
Definition diagnosis_table : list (string * string) :=
  [ ("E11.9", "Type 2 diabetes mellitus");
    ("I10", "Essential hypertension");
    ("J45", "Asthma");
    ("N18.9", "Chronic kidney disease");
    ("Z00.0", "General medical exam") ].

Definition ehr_diagnosis_codes : list string := ["E11.9"; "I10"; "J45"; "N18.9"; "Z00.0"].

(** [table[key]] on a dict of strings *)
Fixpoint dict_getitem (table : list (string * string)) (key : string) : outcome string :=
  match table with
  | [] => Raise (KeyError key)
  | (k, v) :: rest => if String.eqb key k then Ok v else dict_getitem rest key
  end.

(** the schema of [generate_claims] *)
Definition claims_schema : list (string * arrow_type) :=
  [ ("claim_id", pa_string);
    ("patient_id", pa_string);
    ("provider_id", pa_string);
    ("service_date", pa_timestamp_ms);
    ("diagnosis_code", pa_string);
    ("procedure_code", pa_string);
    ("claim_amount", pa_float64);
    ("status", pa_string) ].

Section Script.
Variable env : Env.

Definition end_date : datetime := today env.

Definition create_bucket : M unit :=
  try_except
    (found <- bucket_exists env BUCKET_NAME ;;
     if negb found
     then client_create_bucket env BUCKET_NAME ;;;
          print ("Bucket '" +:+ BUCKET_NAME +:+ "' created successfully.")
     else print ("Bucket '" +:+ BUCKET_NAME +:+ "' already exists."))
    (fun e => print ("Error creating bucket: " +:+ exn_str e)).

Definition empty_gcs_folder (path : string) : M unit :=
  print ("Emptying folder '" +:+ path +:+ "' in GCS bucket '" +:+ BUCKET_NAME +:+ "'...") ;;;
  blobs <- list_blobs env BUCKET_NAME path ;;
  for_each blobs (fun blob_name =>
    blob_delete env BUCKET_NAME blob_name ;;;
    print ("Deleted '" +:+ blob_name +:+ "'")) ;;;
  print ("Completed emptying folder '" +:+ path +:+ "'.").

Definition upload_to_gcs (data : pydata) (path filename file_format : string) : M unit :=
  print ("Uploading " +:+ filename +:+ " in " +:+ file_format +:+ " format to GCS...") ;;;
  (if String.eqb file_format "csv" then
     match data with
     | DataFrameData df =>
         blob_upload env BUCKET_NAME (path +:+ filename) (Text (to_csv df)) "text/csv"
     | _ => raise (AttributeError "object has no attribute 'to_csv'")
     end
   else if String.eqb file_format "json" then
     match data with
     | ListData l =>
         blob_upload env BUCKET_NAME (path +:+ filename)
           (Text (str_join (String LF "") l)) "application/json"
     | DataFrameData df =>
         blob_upload env BUCKET_NAME (path +:+ filename)
           (Text (str_join (String LF "") (df_columns df))) "application/json"
     | TableData _ => raise (TypeError "can only join an iterable of str")
     end
   else if String.eqb file_format "parquet" then
     match data with
     | TableData t =>
         blob_upload env BUCKET_NAME (path +:+ filename) (ParquetFile t)
           "application/octet-stream"
     | _ => raise (TypeError "expected a pyarrow.Table")
     end
   else ret tt) ;;;
  print ("Uploaded " +:+ filename +:+ " to " +:+ path).

(** one turn of the loop of [generate_patients]: the dict it appends *)
Definition patient_record : M pydict :=
  patient_id <- unique_uuid4 env ;;
  first_name <- first_name env ;;
  last_name <- last_name env ;;
  age <- randint env 0 100 ;;
  gender <- choice env ["Male"; "Female"] ;;
  zip_code <- zipcode env ;;
  insurance_type <- choice env ["Private"; "Medicare"; "Medicaid"] ;;
  registration_date <- date_between env start_date end_date ;;
  ret [ ("patient_id", PStr patient_id);
        ("first_name", PStr first_name);
        ("last_name", PStr last_name);
        ("age", PInt age);
        ("gender", PStr gender);
        ("zip_code", PStr zip_code);
        ("insurance_type", PStr insurance_type);
        ("registration_date", PStr (date_iso registration_date)) ].

Definition generate_patients (num_records : Z) : M DataFrame :=
  print "Generating patient demographic data in CSV format..." ;;;
  patients <- for_range (Z.to_nat num_records)
                (fun patients => p <- patient_record ;; ret (patients ++ [p])) [] ;;
  ret (DataFrame_of patients).

(** one turn of the loop of [generate_ehr], with the choice set and the
    lookup dict as parameters: the dict that is dumped *)
Definition ehr_record_with (codes : list string) (table : list (string * string))
    (patient_ids : list string) : M pydict :=
  patient_id <- choice env patient_ids ;;
  visit_date <- date_between env start_date end_date ;;
  diagnosis_code <- choice env codes ;;
  diagnosis_desc <- lift (dict_getitem table diagnosis_code) ;;
  heart_rate <- randint env 60 100 ;;
  systolic <- randint env 110 140 ;;
  diastolic <- randint env 70 90 ;;
  let blood_pressure := str_int systolic +:+ "/" +:+ str_int diastolic in
  t <- uniform env (inject_Z 97) (Qmake 199 2) ;;
  let temperature := py_round t 1 in
  ret [ ("patient_id", PStr patient_id);
        ("visit_date", PStr (date_iso visit_date));
        ("diagnosis_code", PStr diagnosis_code);
        ("diagnosis_desc", PStr diagnosis_desc);
        ("heart_rate", PInt heart_rate);
        ("blood_pressure", PStr blood_pressure);
        ("temperature", PFloat temperature) ].

Definition generate_ehr_with (codes : list string) (table : list (string * string))
    (num_records : Z) (patient_ids : list string) : M (list string) :=
  print "Generating electronic health records data in newline-delimited JSON format..." ;;;
  for_range (Z.to_nat num_records)
    (fun ehr_records =>
       ehr_record <- ehr_record_with codes table patient_ids ;;
       unit <- lift (json_dumps ehr_record) ;;
       ret (ehr_records ++ [unit])) [].

Definition generate_ehr : Z -> list string -> M (list string) :=
  generate_ehr_with ehr_diagnosis_codes diagnosis_table.

(** one turn of the loop of [generate_claims]: the dict it appends *)
Definition claim_record (patient_ids : list string) : M pydict :=
  claim_id <- unique_uuid4 env ;;
  patient_id <- choice env patient_ids ;;
  provider_id <- unique_uuid4 env ;;
  service_date <- date_between env start_date end_date ;;
  let service_date := datetime_combine service_date time_min in
  diagnosis_code <- choice env ["E11.9"; "I10"; "J45"; "N18.9"] ;;
  procedure_code <- choice env ["99213"; "80053"; "83036"; "93000"] ;;
  amount <- uniform env (inject_Z 100) (inject_Z 5000) ;;
  let claim_amount := py_round amount 2 in
  status <- choice env ["Paid"; "Denied"; "Pending"] ;;
  ret [ ("claim_id", PStr claim_id);
        ("patient_id", PStr patient_id);
        ("provider_id", PStr provider_id);
        ("service_date", PDatetime service_date);
        ("diagnosis_code", PStr diagnosis_code);
        ("procedure_code", PStr procedure_code);
        ("claim_amount", PFloat claim_amount);
        ("status", PStr status) ].

(** the list of dicts [generate_claims] has built when its loop ends *)
Definition claim_records (num_records : Z) (patient_ids : list string) : M (list pydict) :=
  for_range (Z.to_nat num_records)
    (fun claims => c <- claim_record patient_ids ;; ret (claims ++ [c])) [].

Definition generate_claims (num_records : Z) (patient_ids : list string) : M arrow_table :=
  print "Generating claims data in Parquet format with explicit schema..." ;;;
  claims <- claim_records num_records patient_ids ;;
  lift (Table_from_pandas (DataFrame_of claims) claims_schema).

(** [str(v)] *)
Definition py_str (v : pyval) : string :=
  match v with
  | PStr s => s
  | PInt n => str_int n
  | PFloat f => float_repr f
  | PDatetime d => csv_field (PDatetime d)
  end.

(** [df['patient_id'].tolist()]; the column holds [str] objects *)
Definition patient_id_list (df : DataFrame) : M (list string) :=
  vs <- lift (df_getitem df "patient_id") ;; ret (map py_str vs).

(** The block the script runs once per environment: clear the folder,
    generate the three data sets, upload them.  It gives back what the
    script binds to [*_patients], [*_ehr] and [*_claims]. *)
Definition run_pass (path : string) (records : Z)
    : M (DataFrame * list string * arrow_table) :=
  empty_gcs_folder path ;;;
  patients <- generate_patients records ;;
  ids <- patient_id_list patients ;;
  ehr <- generate_ehr records ids ;;
  ids' <- patient_id_list patients ;;
  claims <- generate_claims records ids' ;;
  upload_to_gcs (DataFrameData patients) path "patient_data.csv" "csv" ;;;
  upload_to_gcs (ListData ehr) path "ehr_data.json" "json" ;;;
  upload_to_gcs (TableData claims) path "claims_data.parquet" "parquet" ;;;
  ret (patients, ehr, claims).

(** the main part of the module, with the two record counts as parameters;
    its result is the module's data after the run: the dev data, then the
    prod data *)
Definition run_script (dev_records prod_records : Z)
    : M ((DataFrame * list string * arrow_table)
         * (DataFrame * list string * arrow_table)) :=
  create_bucket ;;;
  dev <- run_pass DEV_PATH dev_records ;;
  prod <- run_pass PROD_PATH prod_records ;;
  print "Data generation and upload to GCS completed successfully." ;;;
  ret (dev, prod).

Definition main_script := run_script DEV_RECORDS PROD_RECORDS.

End Script.

(** * Properties *)

(** ** A concrete world, for examples *)

Definition sample_env : Env :=
  {| py_bits := fun i => Z.of_nat i * 7919 + 13;
     fk_bits := fun i => Z.of_nat i * 1000003 + 5;
     first_name_of := fun _ => "Ann";
     last_name_of := fun _ => "Lee";
     today := datetime_ymd 2024 11 4;
     gcs_fault := fun _ => None |}.

Definition fresh_world : World :=
  {| py_tick := 0; fk_tick := 0; seen_uuid4 := ∅; gcs_tick := 0;
     buckets := ∅; stdout := [] |}.

(** ** Reasoning in the monad *)

Lemma bind_ok_inv {A B} (c : M A) (k : A -> M B) w b w' :
  bind c k w = (Ok b, w') ->
  exists a w1, c w = (Ok a, w1) /\ k a w1 = (Ok b, w').
Proof.
  unfold bind. destruct (c w) as [[a | e] w1]; intros H.
  - exists a, w1. split; [reflexivity | exact H].
  - discriminate H.
Qed.

Lemma bind_raise_inv {A B} (c : M A) (k : A -> M B) w e w' :
  bind c k w = (Raise e, w') ->
  c w = (Raise e, w') \/ exists a w1, c w = (Ok a, w1) /\ k a w1 = (Raise e, w').
Proof.
  unfold bind. destruct (c w) as [[a | e0] w1]; intros H.
  - right. exists a, w1. split; [reflexivity | exact H].
  - left. injection H as -> ->. reflexivity.
Qed.

Lemma bind_ok_intro {A B} (c : M A) (k : A -> M B) w a w1 :
  c w = (Ok a, w1) -> bind c k w = k a w1.
Proof. unfold bind. intros ->. reflexivity. Qed.

Lemma bind_raise_intro {A B} (c : M A) (k : A -> M B) w e w1 :
  c w = (Raise e, w1) -> bind c k w = (Raise e, w1).
Proof. unfold bind. intros ->. reflexivity. Qed.

(** the statement of a loop invariant: [I k acc w] after [k] turns *)
Lemma for_range_ok_inv {S : Type} (I : nat -> S -> World -> Prop)
    (body : S -> M S) :
  (forall k acc w acc' w',
      I k acc w -> body acc w = (Ok acc', w') -> I (Datatypes.S k) acc' w') ->
  forall n k acc w r w',
    I k acc w -> for_range n body acc w = (Ok r, w') -> I (k + n)%nat r w'.
Proof.
  intros Hstep. induction n as [| n IH]; intros k acc w r w' HI Hrun.
  - simpl in Hrun. injection Hrun as <- <-. rewrite Nat.add_0_r. exact HI.
  - simpl in Hrun. apply bind_ok_inv in Hrun as (acc1 & w1 & Hb & Hrest).
    replace (k + Datatypes.S n)%nat with (Datatypes.S k + n)%nat by lia.
    eapply IH; [| exact Hrest]. eapply Hstep; eassumption.
Qed.

(** a loop that raises raised in one of its turns *)
Lemma for_range_raise_inv {S : Type} (J : S -> World -> Prop) (body : S -> M S) :
  (forall acc w acc' w', J acc w -> body acc w = (Ok acc', w') -> J acc' w') ->
  forall n acc w e w',
    J acc w -> for_range n body acc w = (Raise e, w') ->
    exists acc1 w1, J acc1 w1 /\ body acc1 w1 = (Raise e, w').
Proof.
  intros Hstep. induction n as [| n IH]; intros acc w e w' HJ Hrun.
  - discriminate Hrun.
  - simpl in Hrun. apply bind_raise_inv in Hrun as [Hb | (acc1 & w1 & Hb & Hrest)].
    + exists acc, w. split; assumption.
    + eapply IH; [| exact Hrest]. eapply Hstep; eassumption.
Qed.

(** a loop whose turns all return, returns *)
Lemma for_range_total {S : Type} (I : nat -> S -> World -> Prop) (body : S -> M S) :
  (forall k acc w, I k acc w ->
      exists acc' w', body acc w = (Ok acc', w') /\ I (Datatypes.S k) acc' w') ->
  forall n k acc w,
    I k acc w ->
    exists r w', for_range n body acc w = (Ok r, w') /\ I (k + n)%nat r w'.
Proof.
  intros Hstep. induction n as [| n IH]; intros k acc w HI.
  - exists acc, w. rewrite Nat.add_0_r. split; [reflexivity | exact HI].
  - destruct (Hstep k acc w HI) as (acc1 & w1 & Hb & HI1).
    destruct (IH (Datatypes.S k) acc1 w1 HI1) as (r & w' & Hr & HIr).
    exists r, w'. split.
    + simpl. rewrite (bind_ok_intro _ _ _ _ _ Hb). exact Hr.
    + replace (k + Datatypes.S n)%nat with (Datatypes.S k + n)%nat by lia. exact HIr.
Qed.

(** ** The EHR generator and an empty list of identifiers *)

(** The generator's loop raises in its first turn when there is nothing to
    choose a patient from. *)
Lemma ehr_record_empty_ids env codes table w :
  ehr_record_with env codes table [] w
  = (Raise (IndexError "Cannot choose from an empty sequence"), w).
Proof. reflexivity. Qed.

(** C3, as amended: for every record count N >= 1, EHR generation from an
    empty list of patient identifiers raises IndexError, in the first turn of
    its loop, so that no record is produced. *)
Theorem generate_ehr_empty_ids_raises (env : Env) (N : Z) (w : World) :
  0 < N ->
  exists w',
    generate_ehr env N [] w
    = (Raise (IndexError "Cannot choose from an empty sequence"), w').
Proof.
  intros HN. unfold generate_ehr, generate_ehr_with.
  destruct (Z.to_nat N) as [| n] eqn:En; [lia |].
  eexists. reflexivity.
Qed.

Lemma generate_ehr_empty_ids_raises_witness :
  exists w',
    generate_ehr sample_env 3 [] fresh_world
    = (Raise (IndexError "Cannot choose from an empty sequence"), w').
Proof. apply (generate_ehr_empty_ids_raises sample_env 3 fresh_world). lia. Defined.

(** C3, as stated, fails for N = 0: the loop does not run, and the call
    returns the empty list without any error. *)
Lemma generate_ehr_empty_ids_zero_returns :
  fst (generate_ehr sample_env 0 [] fresh_world) = Ok []
  /\ ~ (exists e w', generate_ehr sample_env 0 [] fresh_world = (Raise e, w')).
Proof.
  split; [reflexivity |]. intros (e & w' & H). discriminate H.
Qed.

(** ** Uploading under an unknown format tag *)

(** C9: for every data, path and file name, and every format tag other than
    'csv', 'json' and 'parquet', [upload_to_gcs] returns normally, issues no
    request to the storage service, leaves every bucket as it was, and still
    prints both its "Uploading" and its "Uploaded" line. *)
Theorem upload_unknown_format_is_silent (env : Env) (data : pydata)
    (path filename file_format : string) (w : World) :
  file_format <> "csv" -> file_format <> "json" -> file_format <> "parquet" ->
  exists w',
    upload_to_gcs env data path filename file_format w = (Ok tt, w')
    /\ buckets w' = buckets w
    /\ gcs_tick w' = gcs_tick w
    /\ stdout w' = stdout w ++
         [ "Uploading " +:+ filename +:+ " in " +:+ file_format +:+ " format to GCS...";
           "Uploaded " +:+ filename +:+ " to " +:+ path ].
Proof.
  intros Hcsv Hjson Hparquet. unfold upload_to_gcs.
  apply String.eqb_neq in Hcsv, Hjson, Hparquet.
  rewrite Hcsv, Hjson, Hparquet.
  eexists. split; [reflexivity |]. simpl.
  repeat split. rewrite <- app_assoc. reflexivity.
Qed.

Lemma upload_unknown_format_is_silent_witness :
  exists w',
    upload_to_gcs sample_env (ListData ["{}"]) "dev/" "ehr_data.xml" "xml" fresh_world
    = (Ok tt, w')
    /\ buckets w' = buckets fresh_world
    /\ gcs_tick w' = gcs_tick fresh_world
    /\ stdout w' = stdout fresh_world ++
         [ "Uploading " +:+ "ehr_data.xml" +:+ " in " +:+ "xml" +:+ " format to GCS...";
           "Uploaded " +:+ "ehr_data.xml" +:+ " to " +:+ "dev/" ].
Proof.
  apply (upload_unknown_format_is_silent sample_env (ListData ["{}"])
           "dev/" "ehr_data.xml" "xml" fresh_world); discriminate.
Defined.

(** ** What a computation leaves alone

    [frame R c]: whatever [c] does, returning or raising, the world it
    leaves is related by [R] to the world it started from. *)

Definition frame (R : relation World) {A} (c : M A) : Prop :=
  forall w r w', c w = (r, w') -> R w w'.

Section Frames.
Context (R : relation World) `{!PreOrder R}.

Lemma frame_ret {A} (a : A) : frame R (ret a).
Proof. intros w r w' H. injection H as <- <-. reflexivity. Qed.

Lemma frame_raise {A} (e : exn) : frame R (@raise A e).
Proof. intros w r w' H. injection H as <- <-. reflexivity. Qed.

Lemma frame_lift {A} (o : outcome A) : frame R (lift o).
Proof. intros w r w' H. injection H as <- <-. reflexivity. Qed.

Lemma frame_bind {A B} (c : M A) (k : A -> M B) :
  frame R c -> (forall a, frame R (k a)) -> frame R (bind c k).
Proof.
  intros Hc Hk w r w' H. unfold bind in H.
  destruct (c w) as [[a | e] w1] eqn:Ec.
  - transitivity w1; [exact (Hc _ _ _ Ec) | exact (Hk a _ _ _ H)].
  - injection H as <- <-. exact (Hc _ _ _ Ec).
Qed.

Lemma frame_try_except {A} (c : M A) (h : exn -> M A) :
  frame R c -> (forall e, frame R (h e)) -> frame R (try_except c h).
Proof.
  intros Hc Hh w r w' H. unfold try_except in H.
  destruct (c w) as [[a | e] w1] eqn:Ec.
  - injection H as <- <-. exact (Hc _ _ _ Ec).
  - transitivity w1; [exact (Hc _ _ _ Ec) | exact (Hh e _ _ _ H)].
Qed.

Lemma frame_for_range {S : Type} (body : S -> M S) n :
  (forall acc, frame R (body acc)) -> forall acc, frame R (for_range n body acc).
Proof.
  intros Hb. induction n as [| n IH]; intros acc; simpl.
  - apply frame_ret.
  - apply frame_bind; [apply Hb | exact IH].
Qed.

Lemma frame_for_each {X : Type} (body : X -> M unit) xs :
  (forall x, frame R (body x)) -> frame R (for_each xs body).
Proof.
  intros Hb. induction xs as [| x xs IH]; simpl.
  - apply frame_ret.
  - apply frame_bind; [apply Hb | intros _; exact IH].
Qed.

Lemma frame_for_each_in {X : Type} (body : X -> M unit) xs :
  (forall x, In x xs -> frame R (body x)) -> frame R (for_each xs body).
Proof.
  induction xs as [| x xs IH]; intros Hb; simpl.
  - apply frame_ret.
  - apply frame_bind; [apply Hb; left; reflexivity |].
    intros _. apply IH. intros y Hy. apply Hb. right. exact Hy.
Qed.

(** the continuation only has to be framed on what [c] can return *)
Lemma frame_bind_ok {A B} (c : M A) (k : A -> M B) :
  frame R c -> (forall a, (exists w w1, c w = (Ok a, w1)) -> frame R (k a)) ->
  frame R (bind c k).
Proof.
  intros Hc Hk w r w' H. unfold bind in H.
  destruct (c w) as [[a | e] w1] eqn:Ec.
  - transitivity w1; [exact (Hc _ _ _ Ec) |].
    exact (Hk a (ex_intro _ w (ex_intro _ w1 Ec)) _ _ _ H).
  - injection H as <- <-. exact (Hc _ _ _ Ec).
Qed.

End Frames.

(** the pool of seen identifiers is left alone *)
Definition same_seen : relation World :=
  fun w w' => seen_uuid4 w' = seen_uuid4 w.

(** no request is issued *)
Definition same_requests : relation World :=
  fun w w' => gcs_tick w' = gcs_tick w.

(** no request is issued and no bucket changes *)
Definition same_storage : relation World :=
  fun w w' => gcs_tick w' = gcs_tick w /\ buckets w' = buckets w.

#[export] Instance same_seen_preorder : PreOrder same_seen.
Proof.
  split; [intros w; reflexivity |].
  intros a b c Hab Hbc. unfold same_seen in *. congruence.
Qed.

#[export] Instance same_requests_preorder : PreOrder same_requests.
Proof.
  split; [intros w; reflexivity |].
  intros a b c Hab Hbc. unfold same_requests in *. congruence.
Qed.

#[export] Instance same_storage_preorder : PreOrder same_storage.
Proof.
  split; [intros w; split; reflexivity |].
  intros a b c [H1 H2] [H3 H4]. split; congruence.
Qed.

Lemma frame_weaken (R R' : relation World) {A} (c : M A) :
  (forall w w', R w w' -> R' w w') -> frame R c -> frame R' c.
Proof. intros HR Hc w r w' H. apply HR. exact (Hc w r w' H). Qed.

(** the primitive steps: a frame holds of them by looking at the world they
    leave *)
Ltac frame_step :=
  let w := fresh "w" in let r := fresh "r" in let w' := fresh "w'" in
  let H := fresh "H" in
  intros w r w' H;
  cbv beta delta [api_request print get_seen add_seen get_buckets put_buckets] in H;
  repeat match type of H with
         | context [match ?x with _ => _ end] => destruct x
         end;
  injection H as <- <-;
  first [ reflexivity
        | split; reflexivity
        | let objs := fresh "objs" in
          intros objs ? ? ? ? _; exists objs; split; assumption ].

(** the structural rules, applied only where the computation is visibly a
    bind, a loop, a handler or a return *)
Ltac frame_rule :=
  lazymatch goal with
  | |- frame _ (bind _ _) => apply frame_bind; [typeclasses eauto | |]
  | |- frame _ (for_range _ _ _) => apply frame_for_range; [typeclasses eauto |]
  | |- frame _ (for_each _ _) => apply frame_for_each; [typeclasses eauto |]
  | |- frame _ (try_except _ _) => apply frame_try_except; [typeclasses eauto | |]
  | |- frame _ (ret _) => apply frame_ret; typeclasses eauto
  | |- frame _ (raise _) => apply frame_raise; typeclasses eauto
  | |- frame _ (lift _) => apply frame_lift; typeclasses eauto
  | |- frame _ (print _) => solve [frame_step]
  | |- frame _ get_seen => solve [frame_step]
  | |- frame _ (add_seen _) => solve [frame_step]
  | |- frame _ (api_request _) => solve [frame_step]
  | |- frame _ get_buckets => solve [frame_step]
  | |- frame _ (put_buckets _) => solve [frame_step]
  end.

Ltac frames := repeat first [progress intros | assumption | frame_rule].

Section Draws.
Context (R : relation World) `{!PreOrder R}.
Hypothesis R_tick_py : forall w, R w (tick_py w).
Hypothesis R_tick_fk : forall w, R w (tick_fk w).

Lemma frame_next_py env : frame R (next_py env).
Proof. intros w r w' H. injection H as <- <-. apply R_tick_py. Qed.

Lemma frame_next_fk env : frame R (next_fk env).
Proof. intros w r w' H. injection H as <- <-. apply R_tick_fk. Qed.

Ltac draws :=
  repeat first
    [ progress intros
    | frame_rule
    | apply frame_next_py
    | apply frame_next_fk ].

Lemma frame_randint env a b : frame R (randint env a b).
Proof. unfold randint. destruct (b <? a); draws. Qed.

Lemma frame_choice env {A} (l : list A) : frame R (choice env l).
Proof. unfold choice. destruct l; draws. Qed.

Lemma frame_uniform env a b : frame R (uniform env a b).
Proof. unfold uniform, random. draws. Qed.

Lemma frame_first_name env : frame R (first_name env).
Proof. unfold first_name. draws. Qed.

Lemma frame_last_name env : frame R (last_name env).
Proof. unfold last_name. draws. Qed.

Lemma frame_zipcode env : frame R (zipcode env).
Proof. unfold zipcode. draws. Qed.

Lemma frame_uuid4 env : frame R (uuid4 env).
Proof. unfold uuid4. draws. Qed.

Lemma frame_date_between env s e : frame R (date_between env s e).
Proof. unfold date_between. destruct (_ <? _); draws. Qed.

Lemma frame_unique_attempts env n generated retval :
  frame R (unique_attempts n (uuid4 env) generated retval).
Proof.
  revert retval. induction n as [| n IH]; intros retval; cbn [unique_attempts].
  - apply frame_raise. typeclasses eauto.
  - assert (Hdraw : frame R (r <- uuid4 env ;;
                             unique_attempts n (uuid4 env) generated (Some r))).
    { apply frame_bind; [typeclasses eauto | apply frame_uuid4 | intros r; apply IH]. }
    destruct retval as [v |]; [| exact Hdraw].
    destruct (decide (v ∈ generated)); [exact Hdraw |].
    apply frame_ret. typeclasses eauto.
Qed.

End Draws.

(** ** Text without line breaks *)

Lemma has_char_app c (a b : string) :
  has_char c (a +:+ b) = has_char c a || has_char c b.
Proof.
  induction a as [| x a IH]; simpl; [reflexivity |].
  rewrite IH. apply orb_assoc.
Qed.

Lemma has_char_cons c a (s : string) :
  has_char c (String a s) = Ascii.eqb a c || has_char c s.
Proof. reflexivity. Qed.

Lemma digit_char_not_LF d : Ascii.eqb (digit_char d) LF = false.
Proof.
  unfold digit_char. pose proof (Z.mod_pos_bound d 10 ltac:(lia)) as Hd.
  assert (Hk : (Z.to_nat (d mod 10) < 10)%nat) by lia.
  destruct (Z.to_nat (d mod 10)) as [| k]; [reflexivity |].
  do 9 (destruct k as [| k]; [reflexivity |]). lia.
Qed.

Lemma hex_char_not_LF d : 0 <= d < 16 -> Ascii.eqb (hex_char d) LF = false.
Proof.
  intros Hd. unfold hex_char.
  assert (Hk : (Z.to_nat d < 16)%nat) by lia.
  replace d with (Z.of_nat (Z.to_nat d)) at 1 by lia.
  destruct (Z.to_nat d) as [| k]; [reflexivity |].
  do 15 (destruct k as [| k]; [reflexivity |]). lia.
Qed.

Lemma has_LF_dec_digits fuel n acc :
  has_char LF (dec_digits fuel n acc) = has_char LF acc.
Proof.
  revert n acc. induction fuel as [| fuel IH]; intros n acc; [reflexivity |].
  cbn [dec_digits]. destruct (n <? 10).
  - rewrite has_char_cons, digit_char_not_LF. reflexivity.
  - rewrite IH, has_char_cons, digit_char_not_LF. reflexivity.
Qed.

Lemma has_LF_str_nat n : has_char LF (str_nat n) = false.
Proof. unfold str_nat. rewrite has_LF_dec_digits. reflexivity. Qed.

Lemma has_LF_str_int n : has_char LF (str_int n) = false.
Proof.
  unfold str_int. destruct (n <? 0).
  - rewrite has_char_app, has_LF_str_nat. reflexivity.
  - apply has_LF_str_nat.
Qed.

Lemma has_LF_zero_pad m s : has_char LF (zero_pad m s) = has_char LF s.
Proof. induction m as [| m IH]; simpl; [reflexivity | exact IH]. Qed.

Lemma has_LF_str_padded width n : has_char LF (str_padded width n) = false.
Proof. unfold str_padded. rewrite has_LF_zero_pad. apply has_LF_str_nat. Qed.

Lemma has_LF_hex_fixed width n acc :
  has_char LF (hex_fixed width n acc) = has_char LF acc.
Proof.
  revert n acc. induction width as [| width IH]; intros n acc; [reflexivity |].
  cbn [hex_fixed]. rewrite IH, has_char_cons, hex_char_not_LF; [reflexivity |].
  apply Z.mod_pos_bound. lia.
Qed.

Lemma has_LF_json_escape_char c : has_char LF (json_escape_char c) = false.
Proof.
  destruct c as [[] [] [] [] [] [] [] []]; vm_compute; reflexivity.
Qed.

Lemma has_LF_json_escape s : has_char LF (json_escape s) = false.
Proof.
  induction s as [| c s IH]; simpl; [reflexivity |].
  rewrite has_char_app, has_LF_json_escape_char, IH. reflexivity.
Qed.

Lemma has_LF_json_string s : has_char LF (json_string s) = false.
Proof.
  unfold json_string. simpl. rewrite has_char_app, has_LF_json_escape. reflexivity.
Qed.

Lemma has_LF_strip_zeros s :
  has_char LF s = false -> has_char LF (strip_zeros s) = false.
Proof.
  induction s as [| c s IH]; simpl; [reflexivity |].
  intros H. apply orb_false_iff in H as [Hc Hs]. specialize (IH Hs).
  destruct (strip_zeros s) as [| c' r].
  - destruct (Ascii.eqb c "0"); simpl; [reflexivity |]. rewrite Hc. reflexivity.
  - simpl. simpl in IH. rewrite Hc, IH. reflexivity.
Qed.

Lemma has_LF_float_repr f : has_char LF (float_repr f) = false.
Proof.
  unfold float_repr. rewrite !has_char_app, has_LF_str_nat.
  pose proof (has_LF_strip_zeros _ (has_LF_str_padded (fd_scale f)
    (Z.abs (fd_digits f) mod 10 ^ Z.of_nat (fd_scale f)))) as Hs.
  destruct (strip_zeros _); [| rewrite Hs]; destruct (fd_digits f <? 0); reflexivity.
Qed.

Lemma has_LF_str_join sep l :
  has_char LF sep = false -> Forall (fun s => has_char LF s = false) l ->
  has_char LF (str_join sep l) = false.
Proof.
  intros Hsep Hl. induction Hl as [| x l Hx Hl IH]; [reflexivity |].
  simpl. destruct l as [| y l]; [exact Hx |].
  rewrite !has_char_app, Hx, Hsep, IH. reflexivity.
Qed.

Lemma json_value_no_LF v s : json_value v = Ok s -> has_char LF s = false.
Proof.
  destruct v; simpl; intros H; try discriminate; injection H as <-.
  - apply has_LF_json_string.
  - apply has_LF_str_int.
  - apply has_LF_float_repr.
Qed.

Lemma json_items_no_LF d items :
  json_items d = Ok items -> Forall (fun s => has_char LF s = false) items.
Proof.
  revert items. induction d as [| [k v] d IH]; simpl; intros items H.
  - injection H as <-. constructor.
  - destruct (json_value v) as [sv |] eqn:Ev; [| discriminate].
    destruct (json_items d) as [rest |]; [| discriminate].
    injection H as <-. constructor; [| apply IH; reflexivity].
    rewrite !has_char_app, has_LF_json_string, (json_value_no_LF _ _ Ev). reflexivity.
Qed.

(** [json.dumps] never writes a line break, whatever the strings hold. *)
Lemma json_dumps_no_LF d s : json_dumps d = Ok s -> has_char LF s = false.
Proof.
  unfold json_dumps. destruct (json_items d) as [items |] eqn:Ei; [| discriminate].
  intros H. injection H as <-.
  rewrite !has_char_app, has_LF_str_join; [reflexivity | reflexivity |].
  exact (json_items_no_LF _ _ Ei).
Qed.

Lemma json_dumps_not_empty d s : json_dumps d = Ok s -> s <> "".
Proof.
  unfold json_dumps. destruct (json_items d); [| discriminate].
  intros H. injection H as <-. discriminate.
Qed.

(** *** Reading a line-delimited text back *)

(** the units of a line-delimited text: none in the empty text, else what
    stands between the line breaks *)
Definition ndjson_lines (text : string) : list string :=
  match text with
  | EmptyString => []
  | _ => str_split LF text
  end.

Lemma str_split_clean s : has_char LF s = false -> str_split LF s = [s].
Proof.
  induction s as [| c s IH]; simpl; [reflexivity |].
  intros H. apply orb_false_iff in H as [Hc Hs]. rewrite Hc, (IH Hs). reflexivity.
Qed.

Lemma str_split_app s t :
  has_char LF s = false ->
  str_split LF (s +:+ String LF t) = s :: str_split LF t.
Proof.
  induction s as [| c s IH]; simpl; intros H.
  - reflexivity.
  - apply orb_false_iff in H as [Hc Hs]. rewrite Hc, (IH Hs). reflexivity.
Qed.

Lemma str_split_join l :
  l <> [] -> Forall (fun s => has_char LF s = false) l ->
  str_split LF (str_join (String LF "") l) = l.
Proof.
  intros Hne Hl. induction Hl as [| x l Hx Hl IH]; [congruence |].
  simpl. destruct l as [| y l].
  - apply str_split_clean, Hx.
  - change (String LF "" +:+ ?t) with (String LF t).
    rewrite str_split_app by exact Hx. f_equal. apply IH. discriminate.
Qed.

Lemma ndjson_lines_join l :
  Forall (fun s => has_char LF s = false /\ s <> "") l ->
  ndjson_lines (str_join (String LF "") l) = l.
Proof.
  intros Hl. destruct l as [| x l]; [reflexivity |].
  assert (Hsplit : str_split LF (str_join (String LF "") (x :: l)) = x :: l).
  { apply str_split_join; [discriminate |].
    eapply Forall_impl; [exact Hl |]. intros s [Hs _]. exact Hs. }
  unfold ndjson_lines. rewrite Hsplit.
  destruct (str_join (String LF "") (x :: l)) eqn:Ej; [| reflexivity].
  apply Forall_inv in Hl as [_ Hx]. exfalso.
  simpl in Ej. destruct l; [congruence |].
  destruct x; [congruence | discriminate Ej].
Qed.

(** ** Outcomes of a computation

    [post c w Q E]: run from [w], the computation [c] either returns a value
    and a world that satisfy [Q], or raises an exception that, with the world
    it leaves, satisfies [E].  With [E := never] this says that [c] returns. *)

Definition post {A} (c : M A) (w : World)
    (Q : A -> World -> Prop) (E : exn -> World -> Prop) : Prop :=
  match c w with
  | (Ok a, w') => Q a w'
  | (Raise e, w') => E e w'
  end.

Definition never : exn -> World -> Prop := fun _ _ => False.
Definition anything : exn -> World -> Prop := fun _ _ => True.

Lemma post_ret {A} (a : A) w Q E : Q a w -> post (ret a) w Q E.
Proof. intros H. exact H. Qed.

Lemma post_raise {A} e w (Q : A -> World -> Prop) E : E e w -> post (raise e) w Q E.
Proof. intros H. exact H. Qed.

Lemma post_lift {A} (o : outcome A) w Q E :
  match o with Ok a => Q a w | Raise e => E e w end -> post (lift o) w Q E.
Proof. unfold post, lift. destruct o; intros H; exact H. Qed.

Lemma post_bind {A B} (c : M A) (k : A -> M B) w Q E :
  post c w (fun a w1 => post (k a) w1 Q E) E -> post (bind c k) w Q E.
Proof. unfold post, bind. destruct (c w) as [[a | e] w1]; intros H; exact H. Qed.

Lemma post_conseq {A} (c : M A) w (Q Q' : A -> World -> Prop) (E E' : exn -> World -> Prop) :
  post c w Q E ->
  (forall a w', Q a w' -> Q' a w') -> (forall e w', E e w' -> E' e w') ->
  post c w Q' E'.
Proof.
  unfold post. destruct (c w) as [[a | e] w1]; intros H HQ HE; [apply HQ | apply HE]; exact H.
Qed.

Lemma post_ok_inv {A} (c : M A) w Q E a w' :
  post c w Q E -> c w = (Ok a, w') -> Q a w'.
Proof. unfold post. intros H Hc. rewrite Hc in H. exact H. Qed.

Lemma post_raise_inv {A} (c : M A) w Q E e w' :
  post c w Q E -> c w = (Raise e, w') -> E e w'.
Proof. unfold post. intros H Hc. rewrite Hc in H. exact H. Qed.

Lemma post_returns {A} (c : M A) w Q :
  post c w Q never -> exists a w', c w = (Ok a, w') /\ Q a w'.
Proof.
  unfold post. destruct (c w) as [[a | e] w1]; intros H.
  - exists a, w1. split; [reflexivity | exact H].
  - destruct H.
Qed.

Lemma post_print s w Q E : Q tt (with_stdout (stdout w ++ [s]) w) -> post (print s) w Q E.
Proof. intros H. exact H. Qed.

Lemma post_for_range {S : Type} (I : nat -> S -> World -> Prop) (body : S -> M S) E :
  forall n k0,
    (forall k acc w, (k0 <= k < k0 + n)%nat -> I k acc w ->
                     post (body acc) w (I (Datatypes.S k)) E) ->
    forall acc w, I k0 acc w -> post (for_range n body acc) w (I (k0 + n)%nat) E.
Proof.
  induction n as [| n IH]; intros k0 Hstep acc w HI.
  - simpl. apply post_ret. rewrite Nat.add_0_r. exact HI.
  - simpl. apply post_bind.
    eapply post_conseq; [apply (Hstep k0 acc w); [lia | exact HI] | | auto].
    intros acc1 w1 HI1.
    replace (k0 + Datatypes.S n)%nat with (Datatypes.S k0 + n)%nat by lia.
    apply IH; [| exact HI1]. intros k acc2 w2 Hk. apply Hstep. lia.
Qed.

(** *** The draws *)

Lemma post_next_py env w Q E :
  Q (py_bits env (py_tick w)) (tick_py w) -> post (next_py env) w Q E.
Proof. intros H. exact H. Qed.

Lemma post_next_fk env w Q E :
  Q (fk_bits env (fk_tick w)) (tick_fk w) -> post (next_fk env) w Q E.
Proof. intros H. exact H. Qed.

Lemma post_randint env a b w Q E :
  a <= b -> (forall x, a <= x <= b -> Q x (tick_py w)) -> post (randint env a b) w Q E.
Proof.
  intros Hab HQ. unfold randint. destruct (Z.ltb_spec b a); [lia |].
  apply post_bind, post_next_py, post_ret, HQ.
  pose proof (Z.mod_pos_bound (py_bits env (py_tick w)) (b - a + 1)). lia.
Qed.

Lemma post_choice env {A} (l : list A) w Q E :
  (l = [] -> E (IndexError "Cannot choose from an empty sequence") w) ->
  (forall x, In x l -> Q x (tick_py w)) ->
  post (choice env l) w Q E.
Proof.
  intros HE HQ. destruct l as [| x l]; [apply post_raise, HE; reflexivity |].
  unfold choice. apply post_bind, post_next_py, post_ret, HQ.
  apply nth_In.
  pose proof (Z.mod_pos_bound (py_bits env (py_tick w)) (Z.of_nat (length (x :: l)))) as Hm.
  simpl length in *. lia.
Qed.

Lemma post_uniform env a b w Q E :
  (forall k, 0 <= k < 2 ^ 53 ->
     Q (fl (Qplus a (fl (Qmult (fl (Qminus b a)) (Qmake k (Z.to_pos (2 ^ 53)))))))
       (tick_py w)) ->
  post (uniform env a b) w Q E.
Proof.
  intros HQ. unfold uniform, random.
  apply post_bind, post_bind, post_next_py, post_ret, post_ret, HQ.
  apply Z.mod_pos_bound. lia.
Qed.

Lemma post_first_name env w Q E :
  (forall x, Q x (tick_fk w)) -> post (first_name env) w Q E.
Proof. intros HQ. apply post_bind, post_next_fk, post_ret, HQ. Qed.

Lemma post_last_name env w Q E :
  (forall x, Q x (tick_fk w)) -> post (last_name env) w Q E.
Proof. intros HQ. apply post_bind, post_next_fk, post_ret, HQ. Qed.

Lemma post_zipcode env w Q E :
  (forall x, Q x (tick_fk w)) -> post (zipcode env) w Q E.
Proof. intros HQ. apply post_bind, post_next_fk, post_ret, HQ. Qed.

(** the date window of the script is not empty: the clock is not before 2020 *)
Definition window_ok (env : Env) : Prop :=
  dt_ordinal start_date <= dt_ordinal (end_date env).

Lemma post_date_between env w Q E :
  (~ window_ok env -> forall m, E (ValueError m) w) ->
  (forall d, dt_ordinal start_date <= d <= dt_ordinal (end_date env) -> Q d (tick_fk w)) ->
  post (date_between env start_date (end_date env)) w Q E.
Proof.
  intros HE HQ. unfold date_between.
  destruct (Z.ltb_spec (dt_ordinal (end_date env)) (dt_ordinal start_date)) as [Hlt | Hle].
  - apply post_raise, HE. unfold window_ok. lia.
  - apply post_bind, post_next_fk, post_ret, HQ.
    pose proof (Z.mod_pos_bound (fk_bits env (fk_tick w))
                  (dt_ordinal (end_date env) - dt_ordinal start_date + 1)). lia.
Qed.

(** ** The EHR generator *)

(** what [generate_ehr] dumps: a dict whose patient comes from the list and
    whose description is the entry of its code in the lookup table *)
Definition ehr_dict_ok (ids : list string) (d : pydict) : Prop :=
  exists pid visit code desc hr bp temp,
    d = [ ("patient_id", PStr pid); ("visit_date", PStr visit);
          ("diagnosis_code", PStr code); ("diagnosis_desc", PStr desc);
          ("heart_rate", PInt hr); ("blood_pressure", PStr bp);
          ("temperature", PFloat temp) ]
    /\ In pid ids /\ In code ehr_diagnosis_codes
    /\ dict_getitem diagnosis_table code = Ok desc.

(** a unit of the output of [generate_ehr]: the dump of such a dict *)
Definition ehr_unit (ids : list string) (u : string) : Prop :=
  exists d, ehr_dict_ok ids d /\ json_dumps d = Ok u.

(** every code of the choice set has its entry in the table *)
Lemma diagnosis_table_complete code :
  In code ehr_diagnosis_codes -> exists desc, dict_getitem diagnosis_table code = Ok desc.
Proof.
  simpl. intros [<- | [<- | [<- | [<- | [<- | []]]]]]; eexists; reflexivity.
Qed.

Lemma ehr_dict_dumps ids d : ehr_dict_ok ids d -> exists u, json_dumps d = Ok u.
Proof.
  intros (pid & visit & code & desc & hr & bp & temp & -> & _).
  eexists. reflexivity.
Qed.

Lemma post_ehr_record env ids w (Q : pydict -> World -> Prop) E :
  (ids = [] -> E (IndexError "Cannot choose from an empty sequence") w) ->
  (~ window_ok env -> forall m w', E (ValueError m) w') ->
  (forall d w', ehr_dict_ok ids d -> Q d w') ->
  post (ehr_record_with env ehr_diagnosis_codes diagnosis_table ids) w Q E.
Proof.
  intros HEi HEv HQ. unfold ehr_record_with.
  apply post_bind, post_choice; [exact HEi |]. intros pid Hpid.
  apply post_bind, post_date_between; [intros Hw m; apply HEv, Hw |]. intros visit _.
  apply post_bind, post_choice; [discriminate |]. intros code Hcode.
  destruct (diagnosis_table_complete code Hcode) as [desc Hdesc].
  apply post_bind, post_lift. rewrite Hdesc.
  apply post_bind, post_randint; [lia |]. intros hr _.
  apply post_bind, post_randint; [lia |]. intros sys _.
  apply post_bind, post_randint; [lia |]. intros dia _.
  apply post_bind, post_uniform. intros k _.
  apply post_ret, HQ.
  do 7 eexists. repeat split; [exact Hpid | exact Hcode | exact Hdesc].
Qed.

Lemma post_generate_ehr env N ids w E :
  (ids = [] -> forall w', E (IndexError "Cannot choose from an empty sequence") w') ->
  (~ window_ok env -> forall m w', E (ValueError m) w') ->
  post (generate_ehr env N ids) w
    (fun units _ => length units = Z.to_nat N /\ Forall (ehr_unit ids) units) E.
Proof.
  intros HEi HEv. unfold generate_ehr, generate_ehr_with.
  apply post_bind, post_print.
  eapply post_conseq;
    [apply (post_for_range
              (fun k acc _ => length acc = k /\ Forall (ehr_unit ids) acc))
           with (k0 := O) | | ].
  - intros k acc w1 _ [Hlen Hall].
    apply post_bind, post_ehr_record; [intros Hi; apply HEi, Hi | exact HEv |].
    intros d w2 Hd. destruct (ehr_dict_dumps ids d Hd) as [u Hu].
    apply post_bind, post_lift. rewrite Hu. apply post_ret. split.
    + rewrite length_app. simpl. lia.
    + apply Forall_app. split; [exact Hall |]. constructor; [| constructor].
      exists d. split; assumption.
  - split; [reflexivity | constructor].
  - intros units w1 H. exact H.
  - intros e w1 H. exact H.
Qed.

(** [generate_ehr] returns whenever it has identifiers to choose from and the
    date window is not empty. *)
Lemma generate_ehr_returns env N ids w :
  ids <> [] -> window_ok env ->
  exists units w',
    generate_ehr env N ids w = (Ok units, w')
    /\ length units = Z.to_nat N /\ Forall (ehr_unit ids) units.
Proof.
  intros Hids Hw. apply post_returns, post_generate_ehr.
  - intros Hi. contradiction.
  - intros Hnw. contradiction.
Qed.

Lemma post_raises {A} (c : M A) w (E : exn -> World -> Prop) :
  post c w (fun _ _ => False) E -> exists e w', c w = (Raise e, w') /\ E e w'.
Proof.
  unfold post. destruct (c w) as [[a | e] w1]; intros H.
  - destruct H.
  - exists e, w1. split; [reflexivity | exact H].
Qed.

Lemma dict_getitem_missing table key :
  ~ In key (map fst table) -> dict_getitem table key = Raise (KeyError key).
Proof.
  induction table as [| [k v] table IH]; simpl; intros Hnot; [reflexivity |].
  destruct (String.eqb_spec key k) as [-> | Hne].
  - exfalso. apply Hnot. left. reflexivity.
  - apply IH. intros Hin. apply Hnot. right. exact Hin.
Qed.

(** a subscript that returns gives a value the dict holds for the key *)
Lemma dict_getitem_In table key v :
  dict_getitem table key = Ok v -> In (key, v) table.
Proof.
  induction table as [| [k x] table IH]; simpl; [discriminate |].
  destruct (String.eqb_spec key k) as [-> | Hne]; intros H.
  - injection H as ->. left. reflexivity.
  - right. apply IH, H.
Qed.

(** a subscript that raises, raises KeyError on a key the dict does not have *)
Lemma dict_getitem_raise table key e :
  dict_getitem table key = Raise e -> e = KeyError key /\ ~ In key (map fst table).
Proof.
  induction table as [| [k x] table IH]; simpl.
  - intros H. injection H as <-. split; [reflexivity | intros []].
  - destruct (String.eqb_spec key k) as [-> | Hne]; intros H; [discriminate H |].
    destruct (IH H) as [-> Hnot]. split; [reflexivity |].
    intros [Heq | Hin]; [apply Hne; symmetry; exact Heq | exact (Hnot Hin)].
Qed.

(** the table of [generate_ehr] has five entries, one for each code *)
Lemma diagnosis_table_entries :
  length diagnosis_table = 5%nat
  /\ forall code desc desc',
       In (code, desc) diagnosis_table -> In (code, desc') diagnosis_table -> desc' = desc.
Proof.
  split; [reflexivity |]. intros code desc desc' H H'. simpl in H, H'.
  repeat match goal with
         | H : _ \/ _ |- _ => destruct H as [H | H]
         | H : False |- _ => destruct H
         end;
    congruence.
Qed.

(** the record behind a unit: its code, and the description the table holds
    for that code, which is the only one *)
Definition unit_desc_from (codes : list string) (table : list (string * string))
    (u : string) : Prop :=
  exists d code desc,
    json_dumps d = Ok u
    /\ dict_get "diagnosis_code" d = Some (PStr code)
    /\ dict_get "diagnosis_desc" d = Some (PStr desc)
    /\ In code codes
    /\ In (code, desc) table.

Lemma ehr_unit_desc ids u :
  ehr_unit ids u ->
  unit_desc_from ehr_diagnosis_codes diagnosis_table u
  /\ exists d code desc,
       json_dumps d = Ok u
       /\ dict_get "diagnosis_code" d = Some (PStr code)
       /\ dict_get "diagnosis_desc" d = Some (PStr desc)
       /\ In (code, desc) diagnosis_table
       /\ forall desc', In (code, desc') diagnosis_table -> desc' = desc.
Proof.
  intros (d & (pid & visit & code & desc & hr & bp & temp & -> & _ & Hcode & Hdesc) & Hu).
  apply dict_getitem_In in Hdesc. split.
  - eexists _, code, desc.
    split; [exact Hu |]. split; [reflexivity |]. split; [reflexivity |].
    split; [exact Hcode | exact Hdesc].
  - eexists _, code, desc.
    split; [exact Hu |]. split; [reflexivity |]. split; [reflexivity |].
    split; [exact Hdesc |].
    intros desc' H'. exact (proj2 diagnosis_table_entries code desc desc' Hdesc H').
Qed.

(** the code chosen by the turn of the loop that begins at draw [t] of the
    module [random], for a given choice set: a turn draws the patient first,
    then the code *)
Definition turn_code (env : Env) (codes : list string) (t : nat) : option string :=
  nth_error codes (Z.to_nat (py_bits env (S t) mod Z.of_nat (length codes))).

(** one turn, for any choice set and any table: it makes 6 draws and gives a
    record with the chosen code and the entry of the table, or raises what the
    subscript raises *)
Lemma post_ehr_record_with env codes table ids w (Q : pydict -> World -> Prop) E :
  ids <> [] -> window_ok env ->
  (codes = [] -> forall w', E (IndexError "Cannot choose from an empty sequence") w') ->
  (forall code,
      turn_code env codes (py_tick w) = Some code ->
      match dict_getitem table code with
      | Ok desc =>
          forall d w',
            dict_get "diagnosis_code" d = Some (PStr code) ->
            dict_get "diagnosis_desc" d = Some (PStr desc) ->
            (exists u, json_dumps d = Ok u) ->
            py_tick w' = (py_tick w + 6)%nat -> Q d w'
      | Raise e => forall w', E e w'
      end) ->
  post (ehr_record_with env codes table ids) w Q E.
Proof.
  intros Hids Hw HEi HQ. unfold ehr_record_with.
  apply post_bind, post_choice; [intros Hi; contradiction |]. intros pid _.
  apply post_bind, post_date_between; [intros Hnw; contradiction |]. intros visit _.
  destruct codes as [| c codes]; [apply post_bind, post_raise, HEi; reflexivity |].
  apply post_bind. unfold choice at 1. apply post_bind, post_next_py, post_ret.
  cbn [py_tick tick_py tick_fk].
  set (i := Z.to_nat (py_bits env (S (py_tick w)) mod Z.of_nat (length (c :: codes)))).
  assert (Hi : (i < length (c :: codes))%nat).
  { subst i.
    pose proof (Z.mod_pos_bound (py_bits env (S (py_tick w)))
                  (Z.of_nat (length (c :: codes)))) as Hm.
    simpl length in *. lia. }
  specialize (HQ (nth i (c :: codes) c) (nth_error_nth' _ c Hi)).
  apply post_bind, post_lift.
  destruct (dict_getitem table (nth i (c :: codes) c)) as [desc | e]; [| apply HQ].
  apply post_bind, post_randint; [lia |]. intros hr _.
  apply post_bind, post_randint; [lia |]. intros sys _.
  apply post_bind, post_randint; [lia |]. intros dia _.
  apply post_bind, post_uniform. intros k _.
  apply post_ret, HQ; [reflexivity | reflexivity | eexists; reflexivity | cbn; lia].
Qed.

Lemma turn_code_In env codes t code : turn_code env codes t = Some code -> In code codes.
Proof. apply nth_error_In. Qed.

(** C4: when [generate_ehr] is given identifiers and a non-empty date
    window, (1) it returns N units, each the dump of a record whose
    diagnosis_desc is the description the fixed table holds for its
    diagnosis_code, the table having one description a code; and for any
    choice set and any table in their place, (2) the units of a call that
    returns all carry a code of the choice set with a description the table
    holds for it, (3) a call that raises, raises KeyError on a code of the
    choice set that has no entry in the table, and (4) the first turn that
    chooses a code without an entry makes the call raise KeyError on it. *)
Theorem ehr_diagnosis_desc_is_table_entry (env : Env) (N : Z) (ids : list string)
    (w : World) :
  0 <= N -> ids <> [] -> window_ok env ->
  (exists units w',
      generate_ehr env N ids w = (Ok units, w')
      /\ Z.of_nat (length units) = N
      /\ Forall (fun u => exists d code desc,
                    json_dumps d = Ok u
                    /\ dict_get "diagnosis_code" d = Some (PStr code)
                    /\ dict_get "diagnosis_desc" d = Some (PStr desc)
                    /\ In (code, desc) diagnosis_table
                    /\ forall desc', In (code, desc') diagnosis_table -> desc' = desc)
           units)
  /\ (forall codes table units w',
        generate_ehr_with env codes table N ids w = (Ok units, w') ->
        Forall (unit_desc_from codes table) units)
  /\ (forall codes table e w',
        codes <> [] ->
        generate_ehr_with env codes table N ids w = (Raise e, w') ->
        exists code, e = KeyError code /\ In code codes /\ ~ In code (map fst table))
  /\ (forall codes table k code,
        (k < Z.to_nat N)%nat ->
        turn_code env codes (py_tick w + 6 * k) = Some code ->
        ~ In code (map fst table) ->
        (forall j c, (j < k)%nat -> turn_code env codes (py_tick w + 6 * j) = Some c ->
                     In c (map fst table)) ->
        exists w', generate_ehr_with env codes table N ids w
                   = (Raise (KeyError code), w')).
Proof.
  intros HN Hids Hw. split; [| split; [| split]].
  - destruct (generate_ehr_returns env N ids w Hids Hw) as (units & w' & Hrun & Hlen & Hall).
    exists units, w'. split; [exact Hrun |]. split; [lia |].
    eapply Forall_impl; [exact Hall |]. intros u Hu.
    exact (proj2 (ehr_unit_desc ids u Hu)).
  - intros codes table units w' Hrun.
    assert (H : post (generate_ehr_with env codes table N ids) w
                  (fun units _ => Forall (unit_desc_from codes table) units) anything).
    { unfold generate_ehr_with. apply post_bind, post_print.
      eapply post_conseq;
        [apply (post_for_range
                  (fun (_ : nat) acc (_ : World) => Forall (unit_desc_from codes table) acc))
           with (k0 := O) (E := anything) | | ].
      - intros k acc w1 _ Hall.
        apply post_bind, post_ehr_record_with;
          [exact Hids | exact Hw | intros; exact Logic.I |].
        intros code Hcode. destruct (dict_getitem table code) as [desc | e] eqn:Hdesc;
          [| intros; exact Logic.I].
        intros d w2 Hc Hd [u Hu] _. apply post_bind, post_lift. rewrite Hu.
        apply post_ret, Forall_app. split; [exact Hall |].
        constructor; [| constructor]. exists d, code, desc.
        split; [exact Hu |]. split; [exact Hc |]. split; [exact Hd |].
        split; [exact (turn_code_In _ _ _ _ Hcode) | exact (dict_getitem_In _ _ _ Hdesc)].
      - constructor.
      - intros acc w1 H. exact H.
      - intros e w1 H. exact H. }
    exact (post_ok_inv _ _ _ _ _ _ H Hrun).
  - intros codes table e w' Hcodes Hrun.
    assert (H : post (generate_ehr_with env codes table N ids) w
                  (fun _ _ => True)
                  (fun e _ => exists code,
                       e = KeyError code /\ In code codes /\ ~ In code (map fst table))).
    { unfold generate_ehr_with. apply post_bind, post_print.
      eapply post_conseq;
        [apply (post_for_range (fun (_ : nat) (_ : list string) (_ : World) => True))
           with (k0 := O)
                (E := fun e _ => exists code,
                          e = KeyError code /\ In code codes /\ ~ In code (map fst table))
        | | ].
      - intros k acc w1 _ _.
        apply post_bind, post_ehr_record_with;
          [exact Hids | exact Hw | intros Habs; contradiction |].
        intros code Hcode. destruct (dict_getitem table code) as [desc | e0] eqn:Hdesc.
        + intros d w2 _ _ [u Hu] _. apply post_bind, post_lift. rewrite Hu.
          apply post_ret. exact Logic.I.
        + intros w2. destruct (dict_getitem_raise _ _ _ Hdesc) as [-> Hnot].
          exists code. split; [reflexivity |].
          split; [exact (turn_code_In _ _ _ _ Hcode) | exact Hnot].
      - exact Logic.I.
      - intros acc w1 H. exact H.
      - intros e0 w1 H. exact H. }
    exact (post_raise_inv _ _ _ _ _ _ H Hrun).
  - intros codes table k code Hk Hcode Hmiss Hbefore.
    assert (H : post (generate_ehr_with env codes table N ids) w
                  (fun _ _ => False) (fun e _ => e = KeyError code)).
    { unfold generate_ehr_with. apply post_bind, post_print.
      set (w0 := with_stdout _ w).
      eapply post_conseq;
        [apply (post_for_range
                  (fun j (_ : list string) w1 =>
                     (j <= k)%nat /\ py_tick w1 = (py_tick w0 + 6 * j)%nat))
           with (k0 := O) (E := fun e _ => e = KeyError code) | | ].
      - intros j acc w1 _ [Hj Ht].
        apply post_bind, post_ehr_record_with; [exact Hids | exact Hw | |].
        + intros ->. unfold turn_code in Hcode.
          destruct (Z.to_nat _) in Hcode; discriminate Hcode.
        + intros c Hc. rewrite Ht in Hc. change (py_tick w0) with (py_tick w) in Hc.
          destruct (Nat.eq_dec j k) as [-> | Hne].
          * rewrite Hcode in Hc. injection Hc as <-.
            rewrite (dict_getitem_missing _ _ Hmiss). intros w2. reflexivity.
          * assert (Hin : In c (map fst table)) by (apply (Hbefore j c); [lia | exact Hc]).
            destruct (dict_getitem table c) as [desc | e] eqn:Hdesc.
            -- intros d w2 _ _ [u Hu] Ht2. apply post_bind, post_lift. rewrite Hu.
               apply post_ret. split; lia.
            -- destruct (dict_getitem_raise _ _ _ Hdesc) as [_ Hnot]. contradiction.
      - split; [lia | lia].
      - intros acc w1 [Hle _]. lia.
      - intros e w1 H. exact H. }
    apply post_raises in H as (e & w' & Hrun & ->). exists w'. exact Hrun.
Qed.

Lemma ehr_diagnosis_desc_is_table_entry_witness :
  (exists units w',
      generate_ehr sample_env 3 ["p1"; "p2"] fresh_world = (Ok units, w')
      /\ Z.of_nat (length units) = 3
      /\ Forall (fun u => exists d code desc,
                    json_dumps d = Ok u
                    /\ dict_get "diagnosis_code" d = Some (PStr code)
                    /\ dict_get "diagnosis_desc" d = Some (PStr desc)
                    /\ In (code, desc) diagnosis_table
                    /\ forall desc', In (code, desc') diagnosis_table -> desc' = desc)
           units)
  /\ exists w', generate_ehr_with sample_env ["E11.9"; "X99"; "I10"; "J45"; "N18.9"]
                  diagnosis_table 3 ["p1"; "p2"] fresh_world
                = (Raise (KeyError "X99"), w').
Proof.
  destruct (ehr_diagnosis_desc_is_table_entry sample_env 3 ["p1"; "p2"] fresh_world)
    as (Hok & _ & _ & Hmiss); [lia | discriminate | vm_compute; discriminate |].
  split; [exact Hok |].
  apply (Hmiss ["E11.9"; "X99"; "I10"; "J45"; "N18.9"] diagnosis_table 1%nat "X99").
  - simpl. lia.
  - vm_compute. reflexivity.
  - simpl. intuition discriminate.
  - intros j c Hj. assert (j = O) as -> by lia. vm_compute.
    intros H. injection H as <-. right. left. reflexivity.
Defined.

(** an actual run with a code that has no entry: KeyError *)
Example generate_ehr_missing_mapping :
  fst (generate_ehr_with sample_env ["X99"; "E11.9"] diagnosis_table 1 ["p1"] fresh_world)
  = Raise (KeyError "X99").
Proof. vm_compute. reflexivity. Qed.

(** ** Line-delimited upload *)

Lemma blob_upload_ok_inv env name blob_name content content_type w w' :
  blob_upload env name blob_name content content_type w = (Ok tt, w') ->
  exists objs,
    buckets w !! name = Some objs
    /\ buckets w' =
         <[name := <[blob_name := {| blob_content := content;
                                     blob_content_type := content_type |}]> objs]>
           (buckets w).
Proof.
  unfold blob_upload, bind, api_request, get_buckets, put_buckets, raise.
  destruct (gcs_fault env (gcs_tick w)); [discriminate |].
  cbn [buckets tick_gcs]. destruct (buckets w !! name) as [objs |] eqn:Eb; [| discriminate].
  intros H. injection H as <-. exists objs. split; reflexivity.
Qed.

Lemma upload_json_stores env units path filename w w' :
  upload_to_gcs env (ListData units) path filename "json" w = (Ok tt, w') ->
  exists objs,
    buckets w' !! BUCKET_NAME = Some objs
    /\ objs !! (path +:+ filename)
       = Some {| blob_content := Text (str_join (String LF "") units);
                 blob_content_type := "application/json" |}.
Proof.
  unfold upload_to_gcs. cbn [String.eqb Ascii.eqb Bool.eqb].
  intros H. apply bind_ok_inv in H as ([] & w1 & Hp & H).
  apply bind_ok_inv in H as ([] & w2 & Hu & H).
  injection Hp as <-. injection H as <-.
  apply blob_upload_ok_inv in Hu as (objs & _ & Hb).
  eexists. cbn [buckets with_stdout]. rewrite Hb, lookup_insert_eq.
  split; [reflexivity |]. apply lookup_insert_eq.
Qed.

Lemma ehr_unit_one_line ids u : ehr_unit ids u -> has_char LF u = false /\ u <> "".
Proof.
  intros (d & _ & Hu). split.
  - exact (json_dumps_no_LF _ _ Hu).
  - exact (json_dumps_not_empty _ _ Hu).
Qed.

(** C6: the K units [generate_ehr] serializes hold no line break, and their
    line-delimited text, which is what the 'json' upload stores, reads back
    as exactly these K units, one per line. *)
Theorem ndjson_one_unit_per_line (env : Env) (N : Z) (ids : list string) (w : World) :
  0 <= N -> ids <> [] -> window_ok env ->
  exists units w',
    generate_ehr env N ids w = (Ok units, w')
    /\ Z.of_nat (length units) = N
    /\ Forall (fun u => has_char LF u = false) units
    /\ ndjson_lines (str_join (String LF "") units) = units
    /\ forall path filename w1 w2,
         upload_to_gcs env (ListData units) path filename "json" w1 = (Ok tt, w2) ->
         exists objs,
           buckets w2 !! BUCKET_NAME = Some objs
           /\ objs !! (path +:+ filename)
              = Some {| blob_content := Text (str_join (String LF "") units);
                        blob_content_type := "application/json" |}.
Proof.
  intros HN Hids Hw.
  destruct (generate_ehr_returns env N ids w Hids Hw) as (units & w' & Hrun & Hlen & Hall).
  exists units, w'. split; [exact Hrun |]. split; [lia |].
  assert (Hone : Forall (fun u => has_char LF u = false /\ u <> "") units).
  { eapply Forall_impl; [exact Hall |]. intros u Hu. exact (ehr_unit_one_line ids u Hu). }
  split; [| split].
  - eapply Forall_impl; [exact Hone |]. intros u [Hu _]. exact Hu.
  - apply ndjson_lines_join, Hone.
  - intros path filename w1 w2 Hup. exact (upload_json_stores _ _ _ _ _ _ Hup).
Qed.

Lemma ndjson_one_unit_per_line_witness :
  exists units w',
    generate_ehr sample_env 4 ["p1"; "p2"] fresh_world = (Ok units, w')
    /\ Z.of_nat (length units) = 4
    /\ Forall (fun u => has_char LF u = false) units
    /\ ndjson_lines (str_join (String LF "") units) = units
    /\ forall path filename w1 w2,
         upload_to_gcs sample_env (ListData units) path filename "json" w1 = (Ok tt, w2) ->
         exists objs,
           buckets w2 !! BUCKET_NAME = Some objs
           /\ objs !! (path +:+ filename)
              = Some {| blob_content := Text (str_join (String LF "") units);
                        blob_content_type := "application/json" |}.
Proof.
  apply (ndjson_one_unit_per_line sample_env 4 ["p1"; "p2"] fresh_world).
  - lia.
  - discriminate.
  - vm_compute. discriminate.
Defined.

(** ** Unique identifiers *)

(** [minted v w w']: between [w] and [w'] the proxy handed out [v], which it
    had not seen, and recorded it; only Faker's generator advanced. *)
Definition minted (v : string) (w w' : World) : Prop :=
  (v ∉ seen_uuid4 w)
  /\ seen_uuid4 w' = {[ v ]} ∪ seen_uuid4 w
  /\ py_tick w' = py_tick w
  /\ (fk_tick w <= fk_tick w')%nat
  /\ gcs_tick w' = gcs_tick w
  /\ buckets w' = buckets w
  /\ stdout w' = stdout w.

Lemma post_unique_attempts env n generated retval w0 w
    (Q : string -> World -> Prop) E :
  (forall m w', E (UniquenessException m) w') ->
  (forall v w',
      v ∉ generated -> py_tick w' = py_tick w0 -> (fk_tick w0 <= fk_tick w')%nat ->
      seen_uuid4 w' = seen_uuid4 w0 -> gcs_tick w' = gcs_tick w0 ->
      buckets w' = buckets w0 -> stdout w' = stdout w0 -> Q v w') ->
  py_tick w = py_tick w0 -> (fk_tick w0 <= fk_tick w)%nat ->
  seen_uuid4 w = seen_uuid4 w0 -> gcs_tick w = gcs_tick w0 ->
  buckets w = buckets w0 -> stdout w = stdout w0 ->
  post (unique_attempts n (uuid4 env) generated retval) w Q E.
Proof.
  intros HE HQ. revert retval w.
  induction n as [| n IH]; intros retval w H1 H2 H3 H4 H5 H6.
  - apply post_raise, HE.
  - assert (Hdraw : post (r <- uuid4 env ;;
                          unique_attempts n (uuid4 env) generated (Some r)) w Q E).
    { apply post_bind. unfold uuid4. apply post_bind, post_next_fk, post_ret.
      apply IH; cbn [py_tick fk_tick seen_uuid4 gcs_tick buckets stdout tick_fk];
        try assumption. lia. }
    cbn [unique_attempts]. destruct retval as [v |]; [| exact Hdraw].
    destruct (decide (v ∈ generated)) as [Hin | Hout]; [exact Hdraw |].
    apply post_ret, HQ; assumption.
Qed.

Lemma post_unique_uuid4 env w (Q : string -> World -> Prop) E :
  (forall m w', E (UniquenessException m) w') ->
  (forall v w', minted v w w' -> Q v w') ->
  post (unique_uuid4 env) w Q E.
Proof.
  intros HE HQ. unfold unique_uuid4.
  apply post_bind. unfold get_seen, post. cbn beta iota.
  apply post_bind.
  apply (post_unique_attempts env UNIQUE_ATTEMPTS (seen_uuid4 w) None w w);
    try reflexivity; [exact HE |].
  intros v w' Hv H1 H2 H3 H4 H5 H6.
  apply post_bind. unfold add_seen, post. cbn beta iota.
  apply post_ret, HQ. unfold minted.
  cbn [py_tick fk_tick seen_uuid4 gcs_tick buckets stdout with_seen].
  rewrite H3. repeat split; assumption.
Qed.

Lemma unique_attempts_fresh env n generated w :
  uuid_of_bits (fk_bits env (fk_tick w)) ∉ generated ->
  unique_attempts (S (S n)) (uuid4 env) generated None w
  = (Ok (uuid_of_bits (fk_bits env (fk_tick w))), tick_fk w).
Proof.
  intros Hfresh. cbn [unique_attempts]. unfold bind at 1.
  unfold uuid4 at 1, bind at 1, next_fk at 1, ret at 1.
  destruct (decide (uuid_of_bits (fk_bits env (fk_tick w)) ∈ generated));
    [contradiction | reflexivity].
Qed.

(** when the next draw is an identifier not seen before, the proxy hands it
    out at the first attempt *)
Lemma unique_uuid4_fresh env w :
  uuid_of_bits (fk_bits env (fk_tick w)) ∉ seen_uuid4 w ->
  unique_uuid4 env w
  = (Ok (uuid_of_bits (fk_bits env (fk_tick w))),
     with_seen ({[ uuid_of_bits (fk_bits env (fk_tick w)) ]} ∪ seen_uuid4 w) (tick_fk w)).
Proof.
  intros Hfresh. unfold unique_uuid4.
  change UNIQUE_ATTEMPTS with (S (S 998)).
  unfold bind at 1, get_seen at 1.
  unfold bind at 1. rewrite (unique_attempts_fresh env 998 _ w Hfresh).
  reflexivity.
Qed.

Lemma post_unique_uuid4_fresh env w (Q : string -> World -> Prop) E :
  uuid_of_bits (fk_bits env (fk_tick w)) ∉ seen_uuid4 w ->
  Q (uuid_of_bits (fk_bits env (fk_tick w)))
    (with_seen ({[ uuid_of_bits (fk_bits env (fk_tick w)) ]} ∪ seen_uuid4 w) (tick_fk w)) ->
  post (unique_uuid4 env) w Q E.
Proof.
  intros Hfresh HQ. unfold post. rewrite (unique_uuid4_fresh env w Hfresh). exact HQ.
Qed.

(** *** A source of identifiers that does not repeat itself *)

(** the identifiers the next [n] draws of Faker's generator would make *)
Definition upcoming_uuids (env : Env) (w : World) (n : nat) : list string :=
  map (fun i => uuid_of_bits (fk_bits env i)) (seq (fk_tick w) n).

(** they are pairwise distinct, and none has been handed out yet *)
Definition fresh_source (env : Env) (w : World) (n : nat) : Prop :=
  NoDup (upcoming_uuids env w n)
  /\ Forall (fun u => u ∉ seen_uuid4 w) (upcoming_uuids env w n).

(** [covered env w0 w]: all that was recorded since [w0] came from draws
    made since [w0] *)
Definition covered (env : Env) (w0 w : World) : Prop :=
  (fk_tick w0 <= fk_tick w)%nat
  /\ forall u, u ∈ seen_uuid4 w ->
       u ∈ seen_uuid4 w0
       \/ exists i, (fk_tick w0 <= i < fk_tick w)%nat /\ u = uuid_of_bits (fk_bits env i).

Lemma covered_refl env w : covered env w w.
Proof. split; [lia |]. intros u Hu. left. exact Hu. Qed.

Lemma covered_step env w0 w w' :
  covered env w0 w -> (fk_tick w <= fk_tick w')%nat -> seen_uuid4 w' = seen_uuid4 w ->
  covered env w0 w'.
Proof.
  intros [Ht Hs] Hle Heq. split; [lia |]. intros u Hu. rewrite Heq in Hu.
  destruct (Hs u Hu) as [H | (i & Hi & ->)]; [left; exact H |].
  right. exists i. split; [lia | reflexivity].
Qed.

Lemma covered_mint env w0 w w' :
  covered env w0 w -> (fk_tick w < fk_tick w')%nat ->
  seen_uuid4 w' = {[ uuid_of_bits (fk_bits env (fk_tick w)) ]} ∪ seen_uuid4 w ->
  covered env w0 w'.
Proof.
  intros [Ht Hs] Hle Heq. split; [lia |]. intros u Hu. rewrite Heq in Hu.
  apply elem_of_union in Hu as [Hu | Hu].
  - apply elem_of_singleton in Hu as ->. right. exists (fk_tick w). split; [lia | reflexivity].
  - destruct (Hs u Hu) as [H | (i & Hi & ->)]; [left; exact H |].
    right. exists i. split; [lia | reflexivity].
Qed.

Lemma upcoming_uuids_lookup env w n i :
  (i < n)%nat ->
  nth_error (upcoming_uuids env w n) i = Some (uuid_of_bits (fk_bits env (fk_tick w + i))).
Proof.
  intros Hi. unfold upcoming_uuids.
  rewrite nth_error_map, nth_error_seq.
  destruct (Nat.ltb_spec i n); [reflexivity | lia].
Qed.

(** the next draw of a fresh source is new to the proxy *)
Lemma fresh_source_next env w0 n w :
  fresh_source env w0 n -> covered env w0 w -> (fk_tick w < fk_tick w0 + n)%nat ->
  uuid_of_bits (fk_bits env (fk_tick w)) ∉ seen_uuid4 w.
Proof.
  intros [Hnd Hnew] [Ht Hs] Hlt Hin.
  assert (Hk : nth_error (upcoming_uuids env w0 n) (fk_tick w - fk_tick w0)
               = Some (uuid_of_bits (fk_bits env (fk_tick w)))).
  { rewrite upcoming_uuids_lookup by lia. do 3 f_equal. lia. }
  destruct (Hs _ Hin) as [Hold | (i & Hi & Heq)].
  - rewrite List.Forall_forall in Hnew. apply (Hnew _ (nth_error_In _ _ Hk)).
    exact Hold.
  - assert (Hi' : nth_error (upcoming_uuids env w0 n) (i - fk_tick w0)
                  = Some (uuid_of_bits (fk_bits env (fk_tick w)))).
    { rewrite upcoming_uuids_lookup by lia. rewrite Heq. do 3 f_equal. lia. }
    rewrite <- Hi' in Hk.
    apply NoDup_ListNoDup in Hnd.
    apply (proj1 (List.NoDup_nth_error _) Hnd) in Hk.
    + lia.
    + unfold upcoming_uuids. rewrite length_map, length_seq. lia.
Qed.

(** ** The patient generator *)

(** the dict one turn of the loop of [generate_patients] appends *)
Definition patient_dict (pid : string) (d : pydict) : Prop :=
  exists fn ln age gender zip ins reg,
    d = [ ("patient_id", PStr pid); ("first_name", PStr fn); ("last_name", PStr ln);
          ("age", PInt age); ("gender", PStr gender); ("zip_code", PStr zip);
          ("insurance_type", PStr ins); ("registration_date", PStr reg) ].

(** the identifiers in the [patient_id] column of a frame, if it has one *)
Definition patient_ids_of (df : DataFrame) : list string :=
  match df_getitem df "patient_id" with
  | Ok vs => map py_str vs
  | Raise _ => []
  end.

Ltac patient_fields HEv :=
  apply post_bind, post_first_name; intros fn;
  apply post_bind, post_last_name; intros ln;
  apply post_bind, post_randint; [lia |]; intros age _;
  apply post_bind, post_choice; [discriminate |]; intros gender _;
  apply post_bind, post_zipcode; intros zip;
  apply post_bind, post_choice; [discriminate |]; intros ins _;
  apply post_bind, post_date_between; [intros Hnw m; apply HEv; exact Hnw |];
  intros reg _; apply post_ret.

Lemma post_patient_record env w (Q : pydict -> World -> Prop) E :
  (forall m w', E (UniquenessException m) w') ->
  (~ window_ok env -> forall m w', E (ValueError m) w') ->
  (forall pid d w',
      patient_dict pid d -> pid ∉ seen_uuid4 w ->
      seen_uuid4 w' = {[ pid ]} ∪ seen_uuid4 w ->
      gcs_tick w' = gcs_tick w -> buckets w' = buckets w -> Q d w') ->
  post (patient_record env) w Q E.
Proof.
  intros HEu HEv HQ. unfold patient_record.
  apply post_bind, post_unique_uuid4; [exact HEu |].
  intros pid w1 (Hnew & Hseen & _ & _ & Hgcs & Hb & _).
  patient_fields HEv.
  apply (HQ pid); [do 7 eexists; reflexivity | exact Hnew | exact Hseen | exact Hgcs | exact Hb].
Qed.

Lemma post_patient_record_fresh env w (Q : pydict -> World -> Prop) E :
  window_ok env ->
  uuid_of_bits (fk_bits env (fk_tick w)) ∉ seen_uuid4 w ->
  (forall d w',
      patient_dict (uuid_of_bits (fk_bits env (fk_tick w))) d ->
      fk_tick w' = (fk_tick w + 5)%nat ->
      seen_uuid4 w' = {[ uuid_of_bits (fk_bits env (fk_tick w)) ]} ∪ seen_uuid4 w ->
      Q d w') ->
  post (patient_record env) w Q E.
Proof.
  intros Hw Hfresh HQ. unfold patient_record.
  apply post_bind, post_unique_uuid4_fresh; [exact Hfresh |].
  assert (HEv : ~ window_ok env -> forall m w', E (ValueError m) w') by contradiction.
  patient_fields HEv.
  apply HQ; [do 7 eexists; reflexivity | cbn; lia | reflexivity].
Qed.

Lemma patient_frame ids records :
  Forall2 patient_dict ids records ->
  patient_ids_of (DataFrame_of records) = ids
  /\ length (df_rows (DataFrame_of records)) = length records.
Proof.
  intros Hall. destruct Hall as [| pid r ids rest Hr Hrest]; [split; reflexivity |].
  pose proof Hr as (fn & ln & age & gender & zip & ins & reg & ->).
  unfold DataFrame_of, patient_ids_of, df_getitem.
  cbn [map fst df_columns df_rows index_of String.eqb Ascii.eqb Bool.eqb].
  split; [| cbn [length]; rewrite length_map; reflexivity].
  cbn [map nth dict_get String.eqb Ascii.eqb Bool.eqb default py_str from_option].
  f_equal. rewrite !map_map.
  induction Hrest as [| pid' r' ids' rest' Hr' Hrest' IH]; [reflexivity |].
  destruct Hr' as (fn' & ln' & age' & gender' & zip' & ins' & reg' & ->).
  cbn [map]. rewrite IH. reflexivity.
Qed.

(** what the loop of [generate_patients] maintains: the dicts carry pairwise
    distinct identifiers, all new to the proxy when the call began, and the
    proxy has recorded exactly them *)
Definition patients_inv (w0 : World) (k : nat) (records : list pydict) (w : World) : Prop :=
  exists ids,
    Forall2 patient_dict ids records
    /\ length ids = k
    /\ NoDup ids
    /\ (forall u, In u ids -> u ∉ seen_uuid4 w0)
    /\ seen_uuid4 w = list_to_set ids ∪ seen_uuid4 w0
    /\ gcs_tick w = gcs_tick w0
    /\ buckets w = buckets w0.

Lemma patients_inv_step w0 k records w pid d w' :
  patients_inv w0 k records w ->
  patient_dict pid d -> pid ∉ seen_uuid4 w ->
  seen_uuid4 w' = {[ pid ]} ∪ seen_uuid4 w ->
  gcs_tick w' = gcs_tick w -> buckets w' = buckets w ->
  patients_inv w0 (S k) (records ++ [d]) w'.
Proof.
  intros (ids & Hall & Hlen & Hnd & Hnew & Hseen & Hg & Hb) Hd Hpid Hs' Hg' Hb'.
  exists (ids ++ [pid]). rewrite Hseen in Hpid, Hs'.
  assert (Hout : pid ∉ ids) by (intros Hin; apply Hpid; set_solver).
  repeat split.
  - apply Forall2_app; [exact Hall | constructor; [exact Hd | constructor]].
  - rewrite length_app. simpl. lia.
  - apply NoDup_app. split; [exact Hnd |]. split.
    + intros x Hx Hx'. apply list_elem_of_singleton in Hx' as ->. contradiction.
    + apply NoDup_singleton.
  - intros u Hu. apply in_app_or in Hu as [Hu | [<- | []]]; [apply Hnew, Hu |].
    intros Hin. apply Hpid. set_solver.
  - rewrite Hs', list_to_set_app_L. set_solver.
  - congruence.
  - congruence.
Qed.

Lemma post_generate_patients env N w E :
  (forall m w', E (UniquenessException m) w') ->
  (~ window_ok env -> forall m w', E (ValueError m) w') ->
  post (generate_patients env N) w
    (fun df w' =>
       length (df_rows df) = Z.to_nat N
       /\ length (patient_ids_of df) = Z.to_nat N
       /\ NoDup (patient_ids_of df)
       /\ (forall u, In u (patient_ids_of df) -> u ∉ seen_uuid4 w)
       /\ seen_uuid4 w' = list_to_set (patient_ids_of df) ∪ seen_uuid4 w
       /\ gcs_tick w' = gcs_tick w /\ buckets w' = buckets w) E.
Proof.
  intros HEu HEv. unfold generate_patients.
  apply post_bind, post_print. apply post_bind.
  eapply post_conseq;
    [apply (post_for_range (patients_inv w)) with (k0 := O) | | ].
  - intros k acc w1 _ Hinv.
    apply post_bind, post_patient_record; [exact HEu | exact HEv |].
    intros pid d w2 Hd Hpid Hs Hg Hb. apply post_ret.
    exact (patients_inv_step _ _ _ _ _ _ _ Hinv Hd Hpid Hs Hg Hb).
  - exists []. repeat split; try reflexivity; try constructor.
    + intros u [].
    + cbn. set_solver.
  - intros records w1 (ids & Hall & Hlen & Hnd & Hnew & Hseen & Hg & Hb).
    apply post_ret. destruct (patient_frame ids records Hall) as [Hids Hrows].
    rewrite Hids, Hrows, <- (Forall2_length _ _ _ Hall).
    repeat split; assumption.
  - intros e w1 H. exact H.
Qed.

(** with a source that does not repeat itself over the 5 draws of each of
    its turns, [generate_patients] returns *)
Lemma generate_patients_returns env N w :
  window_ok env -> fresh_source env w (5 * Z.to_nat N) ->
  exists df w', generate_patients env N w = (Ok df, w').
Proof.
  intros Hw Hfresh.
  assert (H : post (generate_patients env N) w (fun _ _ => True) never).
  { unfold generate_patients. apply post_bind, post_print.
    set (w0 := with_stdout _ w).
    assert (Hfresh0 : fresh_source env w0 (5 * Z.to_nat N)) by exact Hfresh.
    apply post_bind.
    eapply post_conseq;
      [apply (post_for_range
                (fun k (_ : list pydict) w1 =>
                   fk_tick w1 = (fk_tick w0 + 5 * k)%nat /\ covered env w0 w1))
         with (k0 := O) | | ].
    - intros k acc w1 Hk [Htick Hcov].
      assert (Hnext : uuid_of_bits (fk_bits env (fk_tick w1)) ∉ seen_uuid4 w1).
      { apply (fresh_source_next env w0 (5 * Z.to_nat N)); [exact Hfresh0 | exact Hcov | lia]. }
      apply post_bind, post_patient_record_fresh; [exact Hw | exact Hnext |].
      intros d w2 _ Ht2 Hs2. apply post_ret. split; [lia |].
      apply (covered_mint env w0 w1 w2 Hcov); [lia | exact Hs2].
    - split; [lia | apply covered_refl].
    - intros records w1 _. apply post_ret. exact Logic.I.
    - intros e w1 H. exact H. }
  apply post_returns in H as (df & w' & Hrun & _). exists df, w'. exact Hrun.
Qed.

(** C1: for every N >= 0, whatever the random source, a call of
    [generate_patients] that returns gives exactly N records whose patient_id
    values are pairwise distinct, and a call that does not return raised the
    proxy's UniquenessException (it rejects collisions, it never lets one
    through); with a source that does not repeat itself the call returns. *)
Theorem generate_patients_unique (env : Env) (N : Z) (w : World) :
  0 <= N -> window_ok env ->
  (forall df w',
      generate_patients env N w = (Ok df, w') ->
      Z.of_nat (length (df_rows df)) = N
      /\ Z.of_nat (length (patient_ids_of df)) = N
      /\ NoDup (patient_ids_of df))
  /\ (forall e w',
        generate_patients env N w = (Raise e, w') ->
        exists m, e = UniquenessException m)
  /\ (fresh_source env w (5 * Z.to_nat N) ->
      exists df w', generate_patients env N w = (Ok df, w')).
Proof.
  intros HN Hw.
  assert (Hpost := post_generate_patients env N w
            (fun e _ => exists m, e = UniquenessException m)
            ltac:(intros m w'; exists m; reflexivity)
            ltac:(intros Hnw; contradiction)).
  split; [| split].
  - intros df w' Hrun.
    destruct (post_ok_inv _ _ _ _ _ _ Hpost Hrun) as (Hrows & Hlen & Hnd & _).
    repeat split; [lia | lia | exact Hnd].
  - intros e w' Hrun. exact (post_raise_inv _ _ _ _ _ _ Hpost Hrun).
  - intros Hfresh. exact (generate_patients_returns env N w Hw Hfresh).
Qed.

Lemma sample_window : window_ok sample_env.
Proof. vm_compute. discriminate. Qed.

Lemma sample_fresh_source n : fresh_source sample_env fresh_world n <->
  NoDup (upcoming_uuids sample_env fresh_world n).
Proof.
  split; [intros [H _]; exact H |]. intros H. split; [exact H |].
  apply List.Forall_forall. intros u _. apply not_elem_of_empty.
Qed.

Lemma generate_patients_unique_witness :
  exists df w',
    generate_patients sample_env 3 fresh_world = (Ok df, w')
    /\ Z.of_nat (length (df_rows df)) = 3
    /\ Z.of_nat (length (patient_ids_of df)) = 3
    /\ NoDup (patient_ids_of df).
Proof.
  destruct (generate_patients_unique sample_env 3 fresh_world ltac:(lia) sample_window)
    as (Hok & _ & Hret).
  destruct Hret as (df & w' & Hrun).
  - apply sample_fresh_source. apply (bool_decide_unpack _). vm_compute. reflexivity.
  - exists df, w'. split; [exact Hrun | exact (Hok df w' Hrun)].
Defined.

(** ** Bounds that rounding keeps *)

Section Rounding.
Local Open Scope Q_scope.

(** rounding to the nearest integer stays between integer bounds *)
Lemma rne_between (a b : Z) (x : Q) :
  inject_Z a <= x -> x <= inject_Z b -> (a <= rne x <= b)%Z.
Proof.
  intros Ha Hb.
  assert (Hfa : (a <= Qfloor x)%Z).
  { rewrite <- (Qfloor_Z a). apply Qfloor_resp_le. exact Ha. }
  assert (Hfb : (Qfloor x <= b)%Z).
  { rewrite <- (Qfloor_Z b). apply Qfloor_resp_le. exact Hb. }
  assert (Hup : 0 < x - inject_Z (Qfloor x) -> (Qfloor x + 1 <= b)%Z).
  { intros Hpos.
    assert (Hlt : inject_Z (Qfloor x) < inject_Z b).
    { apply Qlt_le_trans with x; [| exact Hb].
      apply Qlt_minus_iff. exact Hpos. }
    rewrite <- Zlt_Qlt in Hlt. lia. }
  unfold rne.
  destruct (Qcompare (x - inject_Z (Qfloor x)) (1 # 2)) eqn:Ec.
  - apply Qeq_alt in Ec. destruct (Z.even (Qfloor x)); [lia |].
    assert (0 < x - inject_Z (Qfloor x)) by (rewrite Ec; reflexivity).
    specialize (Hup H). lia.
  - lia.
  - apply Qgt_alt in Ec.
    assert (0 < x - inject_Z (Qfloor x)).
    { apply Qlt_trans with (1 # 2); [reflexivity | exact Ec]. }
    specialize (Hup H). lia.
Qed.

Lemma pow2_nonpos_inv (z : Z) :
  (z <= 0)%Z -> exists m : positive, pow2 z = 1 # m.
Proof.
  intros Hz. unfold pow2. destruct (Z.leb_spec 0 z) as [H0 | Hneg].
  - assert (z = 0%Z) as -> by lia. exists 1%positive. reflexivity.
  - exists (Z.to_pos (2 ^ (- z))). reflexivity.
Qed.

(** the binary exponent of a positive number below [2^52] is below 52 *)
Lemma ilog2_small (x : Q) (b : Z) :
  0 < x -> x <= inject_Z b -> (b < 2 ^ 51)%Z -> (ilog2 x <= 52)%Z.
Proof.
  intros Hpos Hb Hb52. unfold ilog2.
  assert (Hnum : (0 < Qnum x)%Z).
  { unfold Qlt in Hpos. simpl in Hpos. lia. }
  assert (Hle : (Qnum x <= b * Zpos (Qden x))%Z).
  { unfold Qle in Hb. simpl in Hb. lia. }
  assert (Hbpos : (0 < b)%Z) by nia.
  assert (Hlog : (Z.log2 (Qnum x) <= Z.log2 b + Z.log2 (Zpos (Qden x)) + 1)%Z).
  { etransitivity; [apply Z.log2_le_mono, Hle |].
    apply Z.log2_mul_above; lia. }
  assert (Hlb : (Z.log2 b < 51)%Z) by (apply Z.log2_lt_pow2; lia).
  destruct (Qle_bool _ x); lia.
Qed.

(** rounding to binary64 stays between integer bounds *)
Lemma fl_between (a b : Z) (x : Q) :
  (0 <= a)%Z -> (b < 2 ^ 51)%Z ->
  inject_Z a <= x -> x <= inject_Z b ->
  inject_Z a <= fl x /\ fl x <= inject_Z b.
Proof.
  intros Ha0 Hb52 Ha Hb. unfold fl.
  destruct (Qeq_bool x (inject_Z 0)) eqn:Ez.
  - apply Qeq_bool_iff in Ez. rewrite Ez in Ha, Hb. split; assumption.
  - assert (Hx0 : 0 < x).
    { assert (Hge : 0 <= x).
      { apply Qle_trans with (inject_Z a); [| exact Ha].
        change 0 with (inject_Z 0). rewrite <- Zle_Qle. exact Ha0. }
      apply Qle_lteq in Hge as [Hlt | Heq]; [exact Hlt |].
      apply Qeq_bool_neq in Ez. exfalso. apply Ez. symmetry. exact Heq. }
    assert (Habs : Qabs x = x).
    { destruct x as [n d]. unfold Qlt in Hx0. simpl in Hx0.
      unfold Qabs. rewrite Z.abs_eq by lia. reflexivity. }
    rewrite Habs.
    destruct (pow2_nonpos_inv (ilog2 x - 52)) as [m Hm].
    { pose proof (ilog2_small x b Hx0 Hb Hb52). lia. }
    rewrite Hm.
    assert (Hdiv : x / (1 # m) == x * inject_Z (Zpos m)).
    { unfold Qdiv. reflexivity. }
    assert (Hlo : inject_Z (a * Zpos m) <= x / (1 # m)).
    { rewrite Hdiv, inject_Z_mult. apply Qmult_le_compat_r; [exact Ha |].
      change 0 with (inject_Z 0). rewrite <- Zle_Qle. lia. }
    assert (Hhi : x / (1 # m) <= inject_Z (b * Zpos m)).
    { rewrite Hdiv, inject_Z_mult. apply Qmult_le_compat_r; [exact Hb |].
      change 0 with (inject_Z 0). rewrite <- Zle_Qle. lia. }
    destruct (rne_between _ _ _ Hlo Hhi) as [Hr1 Hr2].
    set (r := rne (x / (1 # m))) in *.
    unfold Qle, Qmult, inject_Z. simpl. split; nia.
Qed.

(** the amount [round(random.uniform(100, 5000), 2)] of a claim *)
Lemma claim_amount_between (k : Z) :
  (0 <= k < 2 ^ 53)%Z ->
  let amount :=
    py_round (fl (inject_Z 100
                  + fl (fl (inject_Z 5000 - inject_Z 100) * (k # Z.to_pos (2 ^ 53))))) 2 in
  (10000 <= fd_digits amount <= 500000)%Z
  /\ fd_scale amount = 2%nat
  /\ inject_Z 100 <= float_value amount /\ float_value amount <= inject_Z 5000.
Proof.
  intros Hk amount.
  assert (H4900 : fl (inject_Z 5000 - inject_Z 100) == inject_Z 4900)
    by (vm_compute; reflexivity).
  assert (Hr0 : 0 <= k # Z.to_pos (2 ^ 53)).
  { unfold Qle. simpl. lia. }
  assert (Hr1 : k # Z.to_pos (2 ^ 53) <= 1).
  { unfold Qle. cbn [Qnum Qden].
    change (Z.pos (Z.to_pos (2 ^ 53))) with (2 ^ 53)%Z. lia. }
  assert (Hprod : inject_Z 0 <= fl (inject_Z 5000 - inject_Z 100) * (k # Z.to_pos (2 ^ 53))
                  /\ fl (inject_Z 5000 - inject_Z 100) * (k # Z.to_pos (2 ^ 53))
                     <= inject_Z 4900).
  { rewrite H4900. split.
    - apply Qmult_le_0_compat; [discriminate | exact Hr0].
    - rewrite <- (Qmult_1_r (inject_Z 4900)) at 2.
      rewrite !(Qmult_comm (inject_Z 4900)).
      apply Qmult_le_compat_r; [exact Hr1 | discriminate]. }
  destruct Hprod as [Hp0 Hp1].
  destruct (fl_between 0 4900 _ ltac:(lia) ltac:(lia) Hp0 Hp1) as [Hf0 Hf1].
  set (y := fl (fl (inject_Z 5000 - inject_Z 100) * (k # Z.to_pos (2 ^ 53)))) in *.
  assert (Hs0 : inject_Z 100 <= inject_Z 100 + y).
  { rewrite <- (Qplus_0_r (inject_Z 100)) at 1.
    apply Qplus_le_compat; [apply Qle_refl | exact Hf0]. }
  assert (Hs1 : inject_Z 100 + y <= inject_Z 5000).
  { change (inject_Z 5000) with (inject_Z (100 + 4900)). rewrite inject_Z_plus.
    apply Qplus_le_compat; [apply Qle_refl | exact Hf1]. }
  destruct (fl_between 100 5000 _ ltac:(lia) ltac:(lia) Hs0 Hs1) as [Hx0 Hx1].
  set (x := fl (inject_Z 100 + y)) in *.
  assert (Hd : (10000 <= fd_digits amount <= 500000)%Z).
  { unfold amount, py_round. cbn [fd_digits].
    apply rne_between.
    - change (inject_Z 10000) with (inject_Z 100 * inject_Z 100).
      apply Qmult_le_compat_r; [exact Hx0 | discriminate].
    - change (inject_Z 500000) with (inject_Z 5000 * inject_Z 100).
      apply Qmult_le_compat_r; [exact Hx1 | discriminate]. }
  split; [exact Hd |]. split; [reflexivity |].
  unfold float_value. change (fd_scale amount) with 2%nat.
  revert Hd. generalize (fd_digits amount). intros d Hd.
  apply fl_between; [lia | lia | |].
  - unfold Qle. simpl. lia.
  - unfold Qle. simpl. lia.
Qed.

End Rounding.

(** ** The claims generator *)

(** the values one turn of the loop of [generate_claims] puts in its dict *)
Record claim_fields := {
  cf_claim_id : string;
  cf_patient_id : string;
  cf_provider_id : string;
  cf_day : Z;
  cf_diagnosis_code : string;
  cf_procedure_code : string;
  cf_amount : rounded_float;
  cf_status : string
}.

Definition claim_dict_of (c : claim_fields) : pydict :=
  [ ("claim_id", PStr (cf_claim_id c));
    ("patient_id", PStr (cf_patient_id c));
    ("provider_id", PStr (cf_provider_id c));
    ("service_date", PDatetime (datetime_combine (cf_day c) time_min));
    ("diagnosis_code", PStr (cf_diagnosis_code c));
    ("procedure_code", PStr (cf_procedure_code c));
    ("claim_amount", PFloat (cf_amount c));
    ("status", PStr (cf_status c)) ].

(** what the generator guarantees of them *)
Definition claim_ok (env : Env) (ids : list string) (c : claim_fields) : Prop :=
  In (cf_patient_id c) ids
  /\ dt_ordinal start_date <= cf_day c <= dt_ordinal (end_date env)
  /\ 10000 <= fd_digits (cf_amount c) <= 500000
  /\ fd_scale (cf_amount c) = 2%nat
  /\ Qle (inject_Z 100) (float_value (cf_amount c))
  /\ Qle (float_value (cf_amount c)) (inject_Z 5000).

Ltac claim_fields_tail HEv :=
  apply post_bind, post_date_between; [intros Hnw m; apply HEv; exact Hnw |];
  intros day Hday;
  apply post_bind, post_choice; [discriminate |]; intros code _;
  apply post_bind, post_choice; [discriminate |]; intros proc _;
  apply post_bind, post_uniform; intros k Hk;
  apply post_bind, post_choice; [discriminate |]; intros status _;
  apply post_ret;
  pose proof (claim_amount_between k Hk) as (Hdig & Hscale & Hlo & Hhi).

Lemma post_claim_record env ids w (Q : pydict -> World -> Prop) E :
  (forall m w', E (UniquenessException m) w') ->
  (ids = [] -> forall w', E (IndexError "Cannot choose from an empty sequence") w') ->
  (~ window_ok env -> forall m w', E (ValueError m) w') ->
  (forall c w',
      claim_ok env ids c ->
      cf_claim_id c ∉ seen_uuid4 w -> cf_provider_id c ∉ seen_uuid4 w ->
      cf_claim_id c <> cf_provider_id c ->
      seen_uuid4 w' = {[ cf_provider_id c ]} ∪ ({[ cf_claim_id c ]} ∪ seen_uuid4 w) ->
      gcs_tick w' = gcs_tick w -> buckets w' = buckets w ->
      Q (claim_dict_of c) w') ->
  post (claim_record env ids) w Q E.
Proof.
  intros HEu HEi HEv HQ. unfold claim_record.
  apply post_bind, post_unique_uuid4; [exact HEu |].
  intros cid w1 (Hnew1 & Hseen1 & _ & _ & Hgcs1 & Hb1 & _).
  apply post_bind, post_choice; [intros Hi; apply HEi, Hi |]. intros pid Hpid.
  apply post_bind, post_unique_uuid4; [exact HEu |].
  intros prov w2 (Hnew2 & Hseen2 & _ & _ & Hgcs2 & Hb2 & _).
  cbn [seen_uuid4 gcs_tick buckets tick_py] in Hnew2, Hseen2, Hgcs2, Hb2.
  claim_fields_tail HEv.
  apply (HQ {| cf_claim_id := cid; cf_patient_id := pid; cf_provider_id := prov;
               cf_day := day; cf_diagnosis_code := code; cf_procedure_code := proc;
               cf_amount := _; cf_status := status |});
    cbn [cf_claim_id cf_provider_id seen_uuid4 gcs_tick buckets tick_py tick_fk].
  - unfold claim_ok. cbn [cf_patient_id cf_day cf_amount].
    split; [exact Hpid |]. split; [exact Hday |]. split; [exact Hdig |].
    split; [exact Hscale |]. split; [exact Hlo | exact Hhi].
  - exact Hnew1.
  - rewrite Hseen1 in Hnew2. set_solver.
  - rewrite Hseen1 in Hnew2. set_solver.
  - rewrite Hseen2, Hseen1. reflexivity.
  - congruence.
  - congruence.
Qed.

Lemma post_claim_record_fresh env w0 n ids w (Q : pydict -> World -> Prop) E :
  window_ok env -> ids <> [] ->
  fresh_source env w0 n -> covered env w0 w ->
  (fk_tick w + 3 <= fk_tick w0 + n)%nat ->
  (forall c w',
      claim_ok env ids c -> fk_tick w' = (fk_tick w + 3)%nat -> covered env w0 w' ->
      Q (claim_dict_of c) w') ->
  post (claim_record env ids) w Q E.
Proof.
  intros Hw Hids Hfresh Hcov Hroom HQ. unfold claim_record.
  assert (HEv : ~ window_ok env -> forall m w', E (ValueError m) w') by contradiction.
  apply post_bind, post_unique_uuid4_fresh.
  { apply (fresh_source_next env w0 n); [exact Hfresh | exact Hcov | lia]. }
  set (w1 := with_seen _ (tick_fk w)).
  assert (Hcov1 : covered env w0 w1).
  { apply (covered_mint env w0 w w1 Hcov); [cbn; lia | reflexivity]. }
  apply post_bind, post_choice; [contradiction |]. intros pid Hpid.
  assert (Hcov1' : covered env w0 (tick_py w1)).
  { apply (covered_step env w0 w1); [exact Hcov1 | cbn; lia | reflexivity]. }
  apply post_bind, post_unique_uuid4_fresh.
  { apply (fresh_source_next env w0 n); [exact Hfresh | exact Hcov1' | cbn; lia]. }
  set (w2 := with_seen _ (tick_fk (tick_py w1))).
  assert (Hcov2 : covered env w0 w2).
  { apply (covered_mint env w0 (tick_py w1) w2 Hcov1'); [cbn; lia | reflexivity]. }
  claim_fields_tail HEv.
  apply (HQ {| cf_claim_id := _; cf_patient_id := pid; cf_provider_id := _;
               cf_day := day; cf_diagnosis_code := code; cf_procedure_code := proc;
               cf_amount := _; cf_status := status |}).
  - unfold claim_ok. cbn [cf_patient_id cf_day cf_amount].
    split; [exact Hpid |]. split; [exact Hday |]. split; [exact Hdig |].
    split; [exact Hscale |]. split; [exact Hlo | exact Hhi].
  - cbn. lia.
  - apply (covered_step env w0 w2); [exact Hcov2 | cbn; lia | reflexivity].
Qed.

(** *** The table [generate_claims] returns *)

(** [table.column(name)] *)
Definition tbl_getitem (t : arrow_table) (name : string) : option (list arrow_val) :=
  match index_of name (map fst (tbl_schema t)) with
  | Some i => nth_error (tbl_columns t) i
  | None => None
  end.

(** milliseconds from the epoch to midnight of a day *)
Definition midnight_ms (day : Z) : Z := (day - 719163) * 86400000.

Definition claim_row (c : claim_fields) : list pyval := map snd (claim_dict_of c).

Definition claims_table (cs : list claim_fields) : arrow_table :=
  {| tbl_schema := claims_schema;
     tbl_columns :=
       [ map (fun c => AString (cf_claim_id c)) cs;
         map (fun c => AString (cf_patient_id c)) cs;
         map (fun c => AString (cf_provider_id c)) cs;
         map (fun c => ATimestampMs (midnight_ms (cf_day c))) cs;
         map (fun c => AString (cf_diagnosis_code c)) cs;
         map (fun c => AString (cf_procedure_code c)) cs;
         map (fun c => AFloat64 (cf_amount c)) cs;
         map (fun c => AString (cf_status c)) cs ] |}.

Lemma coerce_service_date day :
  coerce pa_timestamp_ms (PDatetime (datetime_combine day time_min))
  = Ok (ATimestampMs (midnight_ms day)).
Proof.
  unfold coerce, datetime_us, datetime_combine, time_min, midnight_ms.
  cbn [dt_time dt_ordinal t_hour t_minute t_second t_microsecond].
  replace ((((day - 719163) * 24 + 0) * 60 + 0) * 60 * 1000000 + 0 * 1000000 + 0)
    with ((day - 719163) * 86400000 * 1000) by lia.
  rewrite Z.mod_mul by lia. rewrite Z.div_mul by lia. reflexivity.
Qed.

Lemma coerce_column_map {X} ty (f : X -> pyval) (g : X -> arrow_val) (xs : list X) :
  (forall x, coerce ty (f x) = Ok (g x)) ->
  coerce_column ty (map f xs) = Ok (map g xs).
Proof.
  intros H. induction xs as [| x xs IH]; [reflexivity |].
  cbn [map coerce_column]. rewrite H, IH. reflexivity.
Qed.

Lemma DataFrame_of_cons r rest :
  DataFrame_of (r :: rest)
  = {| df_columns := map fst r;
       df_rows := map (fun d => map (fun c => default (PStr "") (dict_get c d)) (map fst r))
                      (r :: rest) |}.
Proof. reflexivity. Qed.

Lemma DataFrame_of_claims c cs :
  DataFrame_of (map claim_dict_of (c :: cs))
  = {| df_columns := map fst claims_schema; df_rows := map claim_row (c :: cs) |}.
Proof.
  change (map claim_dict_of (c :: cs)) with (claim_dict_of c :: map claim_dict_of cs).
  rewrite DataFrame_of_cons.
  change (claim_dict_of c :: map claim_dict_of cs) with (map claim_dict_of (c :: cs)).
  rewrite map_map. reflexivity.
Qed.

Lemma df_getitem_claims cs name i :
  index_of name (map fst claims_schema) = Some i ->
  df_getitem {| df_columns := map fst claims_schema; df_rows := map claim_row cs |} name
  = Ok (map (fun c => nth i (claim_row c) (PStr "")) cs).
Proof.
  intros Hi. unfold df_getitem. cbn [df_columns df_rows]. rewrite Hi, map_map. reflexivity.
Qed.

Lemma Table_of_claims cs :
  cs <> [] ->
  Table_from_pandas (DataFrame_of (map claim_dict_of cs)) claims_schema
  = Ok (claims_table cs).
Proof.
  intros Hne. destruct cs as [| c0 cs0]; [congruence |].
  rewrite DataFrame_of_claims. set (cs := c0 :: cs0). clearbody cs.
  set (df := {| df_columns := _; df_rows := _ |}).
  unfold Table_from_pandas, claims_schema. cbn [convert_columns]. subst df.
  rewrite (df_getitem_claims cs "claim_id" 0 eq_refl).
  rewrite (coerce_column_map pa_string _ (fun c => AString (cf_claim_id c)))
    by reflexivity.
  rewrite (df_getitem_claims cs "patient_id" 1 eq_refl).
  rewrite (coerce_column_map pa_string _ (fun c => AString (cf_patient_id c)))
    by reflexivity.
  rewrite (df_getitem_claims cs "provider_id" 2 eq_refl).
  rewrite (coerce_column_map pa_string _ (fun c => AString (cf_provider_id c)))
    by reflexivity.
  rewrite (df_getitem_claims cs "service_date" 3 eq_refl).
  rewrite (coerce_column_map pa_timestamp_ms _
             (fun c => ATimestampMs (midnight_ms (cf_day c))))
    by (intros x; apply coerce_service_date).
  rewrite (df_getitem_claims cs "diagnosis_code" 4 eq_refl).
  rewrite (coerce_column_map pa_string _ (fun c => AString (cf_diagnosis_code c)))
    by reflexivity.
  rewrite (df_getitem_claims cs "procedure_code" 5 eq_refl).
  rewrite (coerce_column_map pa_string _ (fun c => AString (cf_procedure_code c)))
    by reflexivity.
  rewrite (df_getitem_claims cs "claim_amount" 6 eq_refl).
  rewrite (coerce_column_map pa_float64 _ (fun c => AFloat64 (cf_amount c)))
    by reflexivity.
  rewrite (df_getitem_claims cs "status" 7 eq_refl).
  rewrite (coerce_column_map pa_string _ (fun c => AString (cf_status c)))
    by reflexivity.
  reflexivity.
Qed.

(** an empty frame has none of the columns of the schema *)
Lemma Table_of_no_claims :
  exists m, Table_from_pandas (DataFrame_of []) claims_schema = Raise (KeyError m).
Proof. eexists. reflexivity. Qed.

(** the identifiers a list of claims carries, in the order they were drawn *)
Definition flat_ids (cs : list claim_fields) : list string :=
  flat_map (fun c => [cf_claim_id c; cf_provider_id c]) cs.

Lemma flat_ids_app cs c :
  flat_ids (cs ++ [c]) = flat_ids cs ++ [cf_claim_id c; cf_provider_id c].
Proof. unfold flat_ids. rewrite flat_map_app. reflexivity. Qed.

(** what the loop of [generate_claims] maintains *)
Definition claims_inv (env : Env) (ids : list string) (w0 : World)
    (k : nat) (records : list pydict) (w : World) : Prop :=
  exists cs,
    records = map claim_dict_of cs
    /\ length cs = k
    /\ Forall (claim_ok env ids) cs
    /\ NoDup (flat_ids cs)
    /\ (forall u, In u (flat_ids cs) -> u ∉ seen_uuid4 w0)
    /\ seen_uuid4 w = list_to_set (flat_ids cs) ∪ seen_uuid4 w0
    /\ gcs_tick w = gcs_tick w0
    /\ buckets w = buckets w0.

Lemma claims_inv_step env ids w0 k records w c w' :
  claims_inv env ids w0 k records w ->
  claim_ok env ids c ->
  cf_claim_id c ∉ seen_uuid4 w -> cf_provider_id c ∉ seen_uuid4 w ->
  cf_claim_id c <> cf_provider_id c ->
  seen_uuid4 w' = {[ cf_provider_id c ]} ∪ ({[ cf_claim_id c ]} ∪ seen_uuid4 w) ->
  gcs_tick w' = gcs_tick w -> buckets w' = buckets w ->
  claims_inv env ids w0 (S k) (records ++ [claim_dict_of c]) w'.
Proof.
  intros (cs & -> & Hlen & Hok & Hnd & Hnew & Hseen & Hg & Hb) Hc Hcid Hprov Hne Hs' Hg' Hb'.
  exists (cs ++ [c]). rewrite Hseen in Hcid, Hprov, Hs'.
  assert (Hc1 : cf_claim_id c ∉ flat_ids cs) by (intros Hin; apply Hcid; set_solver).
  assert (Hp1 : cf_provider_id c ∉ flat_ids cs) by (intros Hin; apply Hprov; set_solver).
  repeat split.
  - rewrite map_app. reflexivity.
  - rewrite length_app. simpl. lia.
  - apply Forall_app. split; [exact Hok | constructor; [exact Hc | constructor]].
  - rewrite flat_ids_app. apply NoDup_app. split; [exact Hnd |]. split.
    + intros x Hx Hx'. apply list_elem_of_In in Hx'.
      destruct Hx' as [<- | [<- | []]]; contradiction.
    + apply NoDup_cons. split; [| apply NoDup_singleton].
      intros Hin. apply list_elem_of_singleton in Hin. contradiction.
  - intros u Hu. rewrite flat_ids_app in Hu.
    apply in_app_or in Hu as [Hu | [<- | [<- | []]]].
    + apply Hnew, Hu.
    + intros Hin. apply Hcid. set_solver.
    + intros Hin. apply Hprov. set_solver.
  - rewrite Hs', flat_ids_app, list_to_set_app_L. set_solver.
  - congruence.
  - congruence.
Qed.

(** what a call of [generate_claims] that returns has done *)
Definition claims_result (env : Env) (N : Z) (ids : list string) (w : World)
    (t : arrow_table) (w' : World) : Prop :=
  exists cs,
    t = claims_table cs
    /\ length cs = Z.to_nat N
    /\ Forall (claim_ok env ids) cs
    /\ NoDup (flat_ids cs)
    /\ (forall u, In u (flat_ids cs) -> u ∉ seen_uuid4 w)
    /\ seen_uuid4 w' = list_to_set (flat_ids cs) ∪ seen_uuid4 w
    /\ gcs_tick w' = gcs_tick w
    /\ buckets w' = buckets w.

Lemma post_generate_claims env N ids w E :
  (forall m w', E (UniquenessException m) w') ->
  (ids = [] -> forall w', E (IndexError "Cannot choose from an empty sequence") w') ->
  (~ window_ok env -> forall m w', E (ValueError m) w') ->
  (N <= 0 -> forall m w', E (KeyError m) w') ->
  post (generate_claims env N ids) w (claims_result env N ids w) E.
Proof.
  intros HEu HEi HEv HEk. unfold generate_claims, claim_records.
  apply post_bind, post_print. apply post_bind.
  eapply post_conseq;
    [apply (post_for_range (claims_inv env ids w)) with (k0 := O) | | ].
  - intros k acc w1 _ Hinv.
    apply post_bind, post_claim_record; [exact HEu | exact HEi | exact HEv |].
    intros c w2 Hc Hcid Hprov Hne Hs Hg Hb. apply post_ret.
    exact (claims_inv_step _ _ _ _ _ _ _ _ Hinv Hc Hcid Hprov Hne Hs Hg Hb).
  - exists []. repeat split; try reflexivity; try constructor.
    + intros u [].
    + cbn. set_solver.
  - intros records w1 (cs & -> & Hlen & Hok & Hnd & Hnew & Hseen & Hg & Hb).
    apply post_lift. destruct cs as [| c cs].
    + destruct Table_of_no_claims as [m Hm]. cbn [map]. rewrite Hm.
      apply HEk. simpl in Hlen. lia.
    + rewrite Table_of_claims by discriminate.
      exists (c :: cs). repeat split; assumption.
  - intros e w1 H. exact H.
Qed.

(** with identifiers to choose from, a non-empty date window, at least one
    record to make and a source that does not repeat itself over the 3 draws
    of each turn, [generate_claims] returns *)
Lemma generate_claims_returns env N ids w :
  0 < N -> ids <> [] -> window_ok env -> fresh_source env w (3 * Z.to_nat N) ->
  exists cs w',
    generate_claims env N ids w = (Ok (claims_table cs), w')
    /\ length cs = Z.to_nat N
    /\ Forall (claim_ok env ids) cs.
Proof.
  intros HN Hids Hw Hfresh.
  assert (H : post (generate_claims env N ids) w
                (fun t _ => exists cs, t = claims_table cs /\ length cs = Z.to_nat N
                                       /\ Forall (claim_ok env ids) cs) never).
  { unfold generate_claims, claim_records. apply post_bind, post_print.
    set (w0 := with_stdout _ w).
    assert (Hfresh0 : fresh_source env w0 (3 * Z.to_nat N)) by exact Hfresh.
    apply post_bind.
    eapply post_conseq;
      [apply (post_for_range
                (fun k (acc : list pydict) w1 =>
                   fk_tick w1 = (fk_tick w0 + 3 * k)%nat /\ covered env w0 w1
                   /\ exists cs, acc = map claim_dict_of cs /\ length cs = k
                                 /\ Forall (claim_ok env ids) cs))
         with (k0 := O) | | ].
    - intros k acc w1 Hk (Htick & Hcov & cs & -> & Hlen & Hok).
      apply post_bind.
      apply (post_claim_record_fresh env w0 (3 * Z.to_nat N));
        [exact Hw | exact Hids | exact Hfresh0 | exact Hcov | lia |].
      intros c w2 Hc Ht2 Hcov2. apply post_ret.
      split; [lia |]. split; [exact Hcov2 |].
      exists (cs ++ [c]). split; [rewrite map_app; reflexivity |].
      split; [rewrite length_app; simpl; lia |].
      apply Forall_app. split; [exact Hok | constructor; [exact Hc | constructor]].
    - split; [lia |]. split; [apply covered_refl |].
      exists []. repeat split. constructor.
    - intros records w1 (_ & _ & cs & -> & Hlen & Hok).
      apply post_lift. rewrite Table_of_claims.
      + exists cs. repeat split; assumption.
      + intros ->. simpl in Hlen. lia.
    - intros e w1 H. exact H. }
  apply post_returns in H as (t & w' & Hrun & cs & -> & Hlen & Hok).
  exists cs, w'. repeat split; assumption.
Qed.

(** a call of [generate_claims] that returns, whatever the random source *)
Lemma generate_claims_ok_inv env N ids w t w' :
  generate_claims env N ids w = (Ok t, w') -> claims_result env N ids w t w'.
Proof.
  intros Hrun.
  apply (post_ok_inv _ _ _ anything _ _
           (post_generate_claims env N ids w anything
              ltac:(intros; exact Logic.I) ltac:(intros; exact Logic.I)
              ltac:(intros; exact Logic.I) ltac:(intros; exact Logic.I)) Hrun).
Qed.

(** ** Records reference the supplied patients *)

(** C2: every unit [generate_ehr] returns is the dump of a record whose
    patient_id is one of the supplied identifiers, and there are N of them;
    every table [generate_claims] returns has N rows and the 8 columns of
    the schema, and each entry of its patient_id column is one of the
    supplied identifiers; with a source that does not repeat itself
    [generate_claims] returns. *)
Theorem records_reference_supplied_patients (env : Env) (N : Z) (ids : list string)
    (w : World) :
  0 < N -> ids <> [] -> window_ok env ->
  (exists units w',
      generate_ehr env N ids w = (Ok units, w')
      /\ Z.of_nat (length units) = N
      /\ Forall (fun u => exists d pid,
                    json_dumps d = Ok u
                    /\ dict_get "patient_id" d = Some (PStr pid)
                    /\ In pid ids) units)
  /\ (forall t w',
        generate_claims env N ids w = (Ok t, w') ->
        Z.of_nat (num_rows t) = N
        /\ num_columns t = 8%nat
        /\ exists col,
             tbl_getitem t "patient_id" = Some col
             /\ Z.of_nat (length col) = N
             /\ Forall (fun v => exists pid, v = AString pid /\ In pid ids) col)
  /\ (fresh_source env w (3 * Z.to_nat N) ->
      exists t w', generate_claims env N ids w = (Ok t, w')).
Proof.
  intros HN Hids Hw. split; [| split].
  - destruct (generate_ehr_returns env N ids w Hids Hw) as (units & w' & Hrun & Hlen & Hall).
    exists units, w'. split; [exact Hrun |]. split; [lia |].
    eapply Forall_impl; [exact Hall |].
    intros u (d & (pid & visit & code & desc & hr & bp & temp & -> & Hpid & _) & Hu).
    eexists _, pid. split; [exact Hu |]. split; [reflexivity | exact Hpid].
  - intros t w' Hrun.
    destruct (generate_claims_ok_inv _ _ _ _ _ _ Hrun) as (cs & -> & Hlen & Hok & _).
    split; [| split; [reflexivity |]].
    + unfold num_rows. cbn [tbl_columns claims_table]. rewrite length_map. lia.
    + eexists. split; [reflexivity |]. split; [rewrite length_map; lia |].
      apply Forall_map. eapply Forall_impl; [exact Hok |].
      intros c (Hpid & _). exists (cf_patient_id c). split; [reflexivity | exact Hpid].
  - intros Hfresh.
    destruct (generate_claims_returns env N ids w HN Hids Hw Hfresh) as (cs & w' & Hrun & _).
    exists (claims_table cs), w'. exact Hrun.
Qed.

(** the scenario of the specification: 10 EHR records and 10 claims from 5
    patient identifiers *)
Definition five_ids : list string := ["p1"; "p2"; "p3"; "p4"; "p5"].

Lemma records_reference_supplied_patients_witness :
  (exists units w',
      generate_ehr sample_env 10 five_ids fresh_world = (Ok units, w')
      /\ Z.of_nat (length units) = 10
      /\ Forall (fun u => exists d pid,
                    json_dumps d = Ok u
                    /\ dict_get "patient_id" d = Some (PStr pid)
                    /\ In pid five_ids) units)
  /\ (exists t w',
        generate_claims sample_env 10 five_ids fresh_world = (Ok t, w')
        /\ Z.of_nat (num_rows t) = 10
        /\ num_columns t = 8%nat
        /\ exists col,
             tbl_getitem t "patient_id" = Some col
             /\ Z.of_nat (length col) = 10
             /\ Forall (fun v => exists pid, v = AString pid /\ In pid five_ids) col).
Proof.
  destruct (records_reference_supplied_patients sample_env 10 five_ids fresh_world
              ltac:(lia) ltac:(discriminate) sample_window) as (Hehr & Hok & Hret).
  split; [exact Hehr |].
  destruct Hret as (t & w' & Hrun).
  - apply sample_fresh_source. apply (bool_decide_unpack _). vm_compute. reflexivity.
  - exists t, w'. split; [exact Hrun | exact (Hok t w' Hrun)].
Defined.

(** ** Amounts and service dates of claims *)



(** a draw near the top of the range: the amount of the claim is 4999.99 *)
Example claim_amount_near_top :
  py_round (fl (Qplus (inject_Z 100)
                  (fl (Qmult (fl (Qminus (inject_Z 5000) (inject_Z 100)))
                             (Qmake (2 ^ 53 - 2 ^ 34) (Z.to_pos (2 ^ 53))))))) 2
  = {| fd_digits := 499999; fd_scale := 2 |}.
Proof. vm_compute. reflexivity. Qed.

(** ** What the parts of the script leave alone *)

Lemma same_storage_tick_py w : same_storage w (tick_py w).
Proof. split; reflexivity. Qed.

Lemma same_storage_tick_fk w : same_storage w (tick_fk w).
Proof. split; reflexivity. Qed.

Lemma same_seen_tick_py w : same_seen w (tick_py w).
Proof. reflexivity. Qed.

Lemma same_seen_tick_fk w : same_seen w (tick_fk w).
Proof. reflexivity. Qed.

(** the generators stay away from the storage service *)
Lemma storage_unique_uuid4 env : frame same_storage (unique_uuid4 env).
Proof.
  unfold unique_uuid4. frames.
  apply frame_unique_attempts;
    first [typeclasses eauto | apply same_storage_tick_py | apply same_storage_tick_fk].
Qed.

Lemma seen_patient_id_list df : frame same_seen (patient_id_list df).
Proof. unfold patient_id_list. frames. Qed.

Ltac storage_draws :=
  first
    [ apply storage_unique_uuid4
    | apply frame_randint | apply frame_choice | apply frame_uniform
    | apply frame_first_name | apply frame_last_name | apply frame_zipcode
    | apply frame_date_between ];
  first [typeclasses eauto | apply same_storage_tick_py | apply same_storage_tick_fk].

Lemma storage_generate_patients env N : frame same_storage (generate_patients env N).
Proof.
  unfold generate_patients, patient_record.
  repeat first [progress frames | storage_draws].
Qed.

Lemma storage_generate_ehr env N ids : frame same_storage (generate_ehr env N ids).
Proof.
  unfold generate_ehr, generate_ehr_with, ehr_record_with.
  repeat first [progress frames | storage_draws].
Qed.

Lemma storage_generate_claims env N ids : frame same_storage (generate_claims env N ids).
Proof.
  unfold generate_claims, claim_records, claim_record.
  repeat first [progress frames | storage_draws].
Qed.

Lemma storage_patient_id_list df : frame same_storage (patient_id_list df).
Proof. unfold patient_id_list. frames. Qed.

(** the storage service stays away from the pool of identifiers *)
Lemma seen_bucket_exists env name : frame same_seen (bucket_exists env name).
Proof. unfold bucket_exists. frames. Qed.

Lemma seen_client_create_bucket env name : frame same_seen (client_create_bucket env name).
Proof. unfold client_create_bucket. frames. destruct (_ !! _); frames. Qed.

Lemma seen_list_blobs env name path : frame same_seen (list_blobs env name path).
Proof. unfold list_blobs. frames. destruct (_ !! _); frames. Qed.

Lemma seen_blob_delete env name blob_name : frame same_seen (blob_delete env name blob_name).
Proof.
  unfold blob_delete. frames. destruct (_ !! _) as [objs |]; frames.
  destruct (objs !! _); frames.
Qed.

Lemma seen_blob_upload env name blob_name content content_type :
  frame same_seen (blob_upload env name blob_name content content_type).
Proof. unfold blob_upload. frames. destruct (_ !! _); frames. Qed.

Lemma seen_create_bucket env : frame same_seen (create_bucket env).
Proof.
  unfold create_bucket. frames.
  - apply seen_bucket_exists.
  - destruct (negb _); frames. apply seen_client_create_bucket.
Qed.

Lemma seen_empty_gcs_folder env path : frame same_seen (empty_gcs_folder env path).
Proof.
  unfold empty_gcs_folder. frames.
  - apply seen_list_blobs.
  - apply seen_blob_delete.
Qed.

Lemma seen_upload_to_gcs env data path filename file_format :
  frame same_seen (upload_to_gcs env data path filename file_format).
Proof.
  unfold upload_to_gcs. frames.
  repeat (destruct (String.eqb file_format _)); try destruct data; frames;
    apply seen_blob_upload.
Qed.

Lemma seen_generate_ehr env N ids : frame same_seen (generate_ehr env N ids).
Proof.
  unfold generate_ehr, generate_ehr_with, ehr_record_with.
  repeat first
    [ progress frames
    | first [ apply frame_randint | apply frame_choice | apply frame_uniform
            | apply frame_date_between ];
      first [typeclasses eauto | apply same_seen_tick_py | apply same_seen_tick_fk] ].
Qed.

(** ** One pool of identifiers for the whole run *)

(** [minted_list l w w']: between [w] and [w'] the proxy handed out exactly
    the identifiers of [l], pairwise distinct and all new to it *)
Definition minted_list (l : list string) (w w' : World) : Prop :=
  NoDup l
  /\ (forall u, In u l -> u ∉ seen_uuid4 w)
  /\ seen_uuid4 w' = list_to_set l ∪ seen_uuid4 w.

Lemma minted_list_nil w w' : same_seen w w' -> minted_list [] w w'.
Proof.
  intros H. split; [constructor |]. split; [intros u [] |].
  unfold same_seen in H. rewrite H. cbn. set_solver.
Qed.

Lemma minted_list_app l1 l2 w w1 w2 :
  minted_list l1 w w1 -> minted_list l2 w1 w2 -> minted_list (l1 ++ l2) w w2.
Proof.
  intros (Hnd1 & Hnew1 & Hs1) (Hnd2 & Hnew2 & Hs2). rewrite Hs1 in Hnew2, Hs2.
  split; [| split].
  - apply NoDup_app. split; [exact Hnd1 |]. split; [| exact Hnd2].
    intros x Hx1 Hx2. apply list_elem_of_In in Hx2.
    apply (Hnew2 x Hx2). set_solver.
  - intros u Hu. apply in_app_or in Hu as [Hu | Hu]; [apply Hnew1, Hu |].
    intros Hin. apply (Hnew2 u Hu). set_solver.
  - rewrite Hs2, list_to_set_app_L. set_solver.
Qed.

Lemma minted_list_perm l l' w w' :
  l ≡ₚ l' -> minted_list l w w' -> minted_list l' w w'.
Proof.
  intros Hp (Hnd & Hnew & Hs). split; [| split].
  - rewrite <- Hp. exact Hnd.
  - intros u Hu. apply Hnew. apply list_elem_of_In. rewrite Hp.
    apply list_elem_of_In. exact Hu.
  - rewrite Hs. f_equal. apply set_eq. intros x.
    rewrite !elem_of_list_to_set, Hp. reflexivity.
Qed.

(** the strings of a column of a table *)
Definition string_cells (col : list arrow_val) : list string :=
  flat_map (fun v => match v with AString s => [s] | _ => [] end) col.

Definition tbl_strings (t : arrow_table) (name : string) : list string :=
  match tbl_getitem t name with
  | Some col => string_cells col
  | None => []
  end.

(** the identifiers of the data of one pass, and of a run *)
Definition pass_ids (data : DataFrame * list string * arrow_table) : list string :=
  let '(patients, _, claims) := data in
  patient_ids_of patients ++ tbl_strings claims "claim_id"
  ++ tbl_strings claims "provider_id".

Lemma string_cells_map {X} (f : X -> string) (xs : list X) :
  string_cells (map (fun x => AString (f x)) xs) = map f xs.
Proof.
  induction xs as [| x xs IH]; [reflexivity |].
  cbn [map string_cells flat_map app]. f_equal. exact IH.
Qed.

Lemma flat_ids_perm cs :
  flat_ids cs ≡ₚ map cf_claim_id cs ++ map cf_provider_id cs.
Proof.
  induction cs as [| c cs IH]; [reflexivity |].
  cbn [flat_ids flat_map map app] in *. constructor.
  rewrite IH. apply Permutation_middle.
Qed.

Lemma claims_result_minted env N ids w t w' :
  claims_result env N ids w t w' ->
  minted_list (tbl_strings t "claim_id" ++ tbl_strings t "provider_id") w w'.
Proof.
  intros (cs & -> & _ & _ & Hnd & Hnew & Hs & _).
  apply (minted_list_perm (flat_ids cs)).
  - unfold tbl_strings, tbl_getitem.
    cbn [claims_table tbl_schema tbl_columns claims_schema map fst index_of
           String.eqb Ascii.eqb Bool.eqb option_map nth_error].
    rewrite !string_cells_map. apply flat_ids_perm.
  - split; [exact Hnd |]. split; [exact Hnew | exact Hs].
Qed.

Lemma generate_patients_minted env N w df w' :
  generate_patients env N w = (Ok df, w') -> minted_list (patient_ids_of df) w w'.
Proof.
  intros Hrun.
  destruct (post_ok_inv _ _ _ anything _ _
              (post_generate_patients env N w anything
                 ltac:(intros; exact Logic.I) ltac:(intros; exact Logic.I)) Hrun)
    as (_ & _ & Hnd & Hnew & Hs & _).
  split; [exact Hnd |]. split; [exact Hnew | exact Hs].
Qed.

(** the identifiers of a pass are new to the proxy and pairwise distinct *)
Lemma run_pass_minted env path records w data w' :
  run_pass env path records w = (Ok data, w') -> minted_list (pass_ids data) w w'.
Proof.
  unfold run_pass. intros H.
  apply bind_ok_inv in H as ([] & w1 & Hclear & H).
  apply bind_ok_inv in H as (patients & w2 & Hpat & H).
  apply bind_ok_inv in H as (ids & w3 & Hids & H).
  apply bind_ok_inv in H as (ehr & w4 & Hehr & H).
  apply bind_ok_inv in H as (ids' & w5 & Hids' & H).
  apply bind_ok_inv in H as (claims & w6 & Hclaims & H).
  apply bind_ok_inv in H as ([] & w7 & Hup1 & H).
  apply bind_ok_inv in H as ([] & w8 & Hup2 & H).
  apply bind_ok_inv in H as ([] & w9 & Hup3 & H).
  injection H as <- <-.
  apply seen_empty_gcs_folder in Hclear. apply generate_patients_minted in Hpat.
  apply seen_patient_id_list in Hids, Hids'. apply seen_generate_ehr in Hehr.
  apply generate_claims_ok_inv, claims_result_minted in Hclaims.
  apply seen_upload_to_gcs in Hup1, Hup2, Hup3.
  assert (Hpre : minted_list (patient_ids_of patients) w w5).
  { rewrite <- (app_nil_l (patient_ids_of patients)), <- (app_nil_r (_ ++ _)).
    apply (minted_list_app _ _ w w2).
    - apply (minted_list_app _ _ w w1); [apply minted_list_nil, Hclear | exact Hpat].
    - apply minted_list_nil. transitivity w3; [exact Hids |].
      transitivity w4; [exact Hehr | exact Hids']. }
  assert (Hall : minted_list (pass_ids (patients, ehr, claims)) w w6).
  { cbn [pass_ids]. apply (minted_list_app _ _ w w5); assumption. }
  rewrite <- (app_nil_r (pass_ids _)).
  apply (minted_list_app _ _ w w6); [exact Hall |].
  apply minted_list_nil. transitivity w7; [exact Hup1 |].
  transitivity w8; [exact Hup2 | exact Hup3].
Qed.

(** C10: in a run of the script, the patient_id values of the patients and
    the claim_id and provider_id values of the claims, of the dev data and of
    the prod data together, are pairwise distinct (and new to the proxy):
    all come from the one [fake.unique] pool, which no step of the run
    clears. *)
Theorem identifiers_distinct_across_run (env : Env) (dev_records prod_records : Z)
    (w : World) (dev prod : DataFrame * list string * arrow_table) (w' : World) :
  run_script env dev_records prod_records w = (Ok (dev, prod), w') ->
  NoDup (pass_ids dev ++ pass_ids prod)
  /\ (forall u, In u (pass_ids dev ++ pass_ids prod) -> u ∉ seen_uuid4 w)
  /\ seen_uuid4 w' = list_to_set (pass_ids dev ++ pass_ids prod) ∪ seen_uuid4 w.
Proof.
  unfold run_script. intros H.
  apply bind_ok_inv in H as ([] & w1 & Hsetup & H).
  apply bind_ok_inv in H as (d & w2 & Hdev & H).
  apply bind_ok_inv in H as (p & w3 & Hprod & H).
  apply bind_ok_inv in H as ([] & w4 & Hprint & H).
  injection H as <- <- <-. injection Hprint as <-.
  apply seen_create_bucket in Hsetup.
  apply run_pass_minted in Hdev, Hprod.
  assert (Hrun : minted_list (pass_ids d ++ pass_ids p) w w3).
  { apply (minted_list_app _ _ w w2); [| exact Hprod].
    rewrite <- (app_nil_l (pass_ids d)).
    apply (minted_list_app _ _ w w1); [apply minted_list_nil, Hsetup | exact Hdev]. }
  exact Hrun.
Qed.

Lemma identifiers_distinct_across_run_witness :
  exists dev prod w',
    run_script sample_env 2 1 fresh_world = (Ok (dev, prod), w')
    /\ NoDup (pass_ids dev ++ pass_ids prod)
    /\ (forall u, In u (pass_ids dev ++ pass_ids prod) -> u ∉ seen_uuid4 fresh_world)
    /\ seen_uuid4 w'
       = list_to_set (pass_ids dev ++ pass_ids prod) ∪ seen_uuid4 fresh_world.
Proof.
  destruct (run_script sample_env 2 1 fresh_world) as [[[dev prod] | e] w'] eqn:Hrun.
  - exists dev, prod, w'. split; [reflexivity |].
    exact (identifiers_distinct_across_run sample_env 2 1 fresh_world dev prod w' Hrun).
  - exfalso. vm_compute in Hrun. discriminate Hrun.
Defined.

(** the nine identifiers of that run: 2 + 1 patients, 2 + 1 claims, 2 + 1
    providers *)
Example run_identifiers_counted :
  match fst (run_script sample_env 2 1 fresh_world) with
  | Ok (dev, prod) => length (pass_ids dev ++ pass_ids prod)
  | Raise _ => O
  end = 9%nat.
Proof. vm_compute. reflexivity. Qed.

(** ** Failures of the storage service *)

(** [fatal env c]: a request of [c] that the service fails is the last thing
    [c] does: [c] raises that very error, and issues no further request. *)
Definition fatal (env : Env) {A} (c : M A) : Prop :=
  forall w r w', c w = (r, w') ->
    (gcs_tick w <= gcs_tick w')%nat
    /\ forall i e, (gcs_tick w <= i < gcs_tick w')%nat -> gcs_fault env i = Some e ->
         r = Raise e /\ gcs_tick w' = S i.

Lemma fatal_of_same_requests env {A} (c : M A) : frame same_requests c -> fatal env c.
Proof.
  intros Hc w r w' H. specialize (Hc w r w' H). unfold same_requests in Hc.
  split; [lia |]. intros i e Hi. lia.
Qed.

Lemma fatal_of_same_storage env {A} (c : M A) : frame same_storage c -> fatal env c.
Proof.
  intros Hc. apply fatal_of_same_requests.
  apply (frame_weaken same_storage); [intros w w' [H _]; exact H | exact Hc].
Qed.

Lemma fatal_api_request env : fatal env (api_request env).
Proof.
  intros w r w' H. unfold api_request in H.
  destruct (gcs_fault env (gcs_tick w)) as [e0 |] eqn:Ef; injection H as <- <-;
    cbn [gcs_tick tick_gcs]; (split; [lia |]); intros i e Hi He;
    assert (i = gcs_tick w) as -> by lia; rewrite Ef in He.
  - injection He as <-. split; reflexivity.
  - discriminate He.
Qed.

Lemma fatal_bind env {A B} (c : M A) (k : A -> M B) :
  fatal env c -> (forall a, fatal env (k a)) -> fatal env (bind c k).
Proof.
  intros Hc Hk w r w' H. unfold bind in H.
  destruct (c w) as [[a | e0] w1] eqn:Ec.
  - destruct (Hc _ _ _ Ec) as [Hle1 Hf1]. destruct (Hk a _ _ _ H) as [Hle2 Hf2].
    split; [lia |]. intros i e Hi He.
    destruct (Nat.lt_ge_cases i (gcs_tick w1)) as [Hlt | Hge].
    + destruct (Hf1 i e ltac:(lia) He) as [Habs _]. discriminate Habs.
    + apply Hf2; [lia | exact He].
  - injection H as <- <-. destruct (Hc _ _ _ Ec) as [Hle Hf].
    split; [exact Hle |]. intros i e Hi He.
    destruct (Hf i e Hi He) as [Hr Ht]. injection Hr as ->. split; [reflexivity | exact Ht].
Qed.

Lemma fatal_for_each env {X : Type} (body : X -> M unit) xs :
  (forall x, fatal env (body x)) -> fatal env (for_each xs body).
Proof.
  intros Hb. induction xs as [| x xs IH]; simpl.
  - apply fatal_of_same_requests. frames.
  - apply fatal_bind; [apply Hb | intros _; exact IH].
Qed.

Ltac fatal_rule :=
  lazymatch goal with
  | |- fatal _ (bind _ _) => apply fatal_bind
  | |- fatal _ (for_each _ _) => apply fatal_for_each
  | |- fatal _ (api_request _) => apply fatal_api_request
  | |- fatal _ (generate_patients _ _) => apply fatal_of_same_storage, storage_generate_patients
  | |- fatal _ (generate_ehr _ _ _) => apply fatal_of_same_storage, storage_generate_ehr
  | |- fatal _ (generate_claims _ _ _) => apply fatal_of_same_storage, storage_generate_claims
  | |- fatal _ (patient_id_list _) => apply fatal_of_same_storage, storage_patient_id_list
  | |- fatal _ _ => apply fatal_of_same_requests; solve [frames]
  end.

Ltac fatals := repeat first [progress intros | assumption | fatal_rule].

Lemma fatal_list_blobs env name path : fatal env (list_blobs env name path).
Proof. unfold list_blobs. fatals. destruct (_ !! _); fatals. Qed.

Lemma fatal_blob_delete env name blob_name : fatal env (blob_delete env name blob_name).
Proof.
  unfold blob_delete. fatals. destruct (_ !! _) as [objs |]; fatals.
  destruct (objs !! _); fatals.
Qed.

Lemma fatal_blob_upload env name blob_name content content_type :
  fatal env (blob_upload env name blob_name content content_type).
Proof. unfold blob_upload. fatals. destruct (_ !! _); fatals. Qed.

Lemma fatal_empty_gcs_folder env path : fatal env (empty_gcs_folder env path).
Proof.
  unfold empty_gcs_folder. fatals.
  - apply fatal_list_blobs.
  - apply fatal_blob_delete.
Qed.

Lemma fatal_upload_to_gcs env data path filename file_format :
  fatal env (upload_to_gcs env data path filename file_format).
Proof.
  unfold upload_to_gcs. fatals.
  repeat (destruct (String.eqb file_format _)); try destruct data;
    first [apply fatal_blob_upload | fatals].
Qed.

Lemma fatal_run_pass env path records : fatal env (run_pass env path records).
Proof.
  unfold run_pass. fatals;
    first [apply fatal_empty_gcs_folder | apply fatal_upload_to_gcs].
Qed.

(** ** No step undoes an upload *)

(** [kept_outside path w w']: every object of the bucket whose name does not
    begin with [path] is in [w'] as it was in [w] *)
Definition kept_outside (path : string) : relation World :=
  fun w w' =>
    forall objs name b,
      buckets w !! BUCKET_NAME = Some objs -> objs !! name = Some b ->
      String.prefix path name = false ->
      exists objs', buckets w' !! BUCKET_NAME = Some objs' /\ objs' !! name = Some b.

#[export] Instance kept_outside_preorder path : PreOrder (kept_outside path).
Proof.
  split.
  - intros w objs name b Hb Hn _. exists objs. split; assumption.
  - intros w1 w2 w3 H12 H23 objs name b Hb Hn Hp.
    destruct (H12 objs name b Hb Hn Hp) as (objs2 & Hb2 & Hn2).
    exact (H23 objs2 name b Hb2 Hn2 Hp).
Qed.

Lemma kept_of_same_storage path {A} (c : M A) :
  frame same_storage c -> frame (kept_outside path) c.
Proof.
  apply frame_weaken. intros w w' [_ Hb] objs name b Hobjs Hn _.
  rewrite Hb. exists objs. split; assumption.
Qed.

Lemma prefix_app p s : String.prefix p (p +:+ s) = true.
Proof.
  induction p as [| a p IH]; simpl; [destruct s; reflexivity |].
  destruct (Ascii.ascii_dec a a); [exact IH | congruence].
Qed.

Lemma kept_blob_upload env path blob_name content content_type :
  String.prefix path blob_name = true ->
  frame (kept_outside path) (blob_upload env BUCKET_NAME blob_name content content_type).
Proof.
  intros Hpre w r w' H objs0 name b Hb Hn Hout.
  unfold blob_upload, bind, api_request, get_buckets, put_buckets, raise in H.
  destruct (gcs_fault env (gcs_tick w));
    [injection H as <- <-; exists objs0; split; assumption |].
  cbn [buckets tick_gcs] in H. rewrite Hb in H. injection H as <- <-.
  cbn [buckets with_buckets]. rewrite lookup_insert_eq. eexists. split; [reflexivity |].
  rewrite lookup_insert_ne; [exact Hn |]. intros ->. congruence.
Qed.

Lemma kept_blob_delete env path blob_name :
  String.prefix path blob_name = true ->
  frame (kept_outside path) (blob_delete env BUCKET_NAME blob_name).
Proof.
  intros Hpre w r w' H objs0 name b Hb Hn Hout.
  unfold blob_delete, bind, api_request, get_buckets, put_buckets, raise in H.
  destruct (gcs_fault env (gcs_tick w));
    [injection H as <- <-; exists objs0; split; assumption |].
  cbn [buckets tick_gcs] in H. rewrite Hb in H.
  destruct (objs0 !! blob_name);
    [| injection H as <- <-; exists objs0; split; assumption].
  injection H as <- <-.
  cbn [buckets with_buckets]. rewrite lookup_insert_eq. eexists. split; [reflexivity |].
  rewrite lookup_delete_ne; [exact Hn |]. intros ->. congruence.
Qed.

Lemma list_blobs_prefix env name path w blobs w' :
  list_blobs env name path w = (Ok blobs, w') ->
  forall n, In n blobs -> String.prefix path n = true.
Proof.
  unfold list_blobs, bind, api_request, get_buckets, raise, ret. intros H.
  destruct (gcs_fault env (gcs_tick w)); [discriminate |].
  destruct (buckets (tick_gcs w) !! name); [| discriminate].
  injection H as <- <-. intros n Hn.
  apply list_elem_of_In, list_elem_of_filter in Hn as [Hp _]. exact Hp.
Qed.

Lemma kept_list_blobs env path name p : frame (kept_outside path) (list_blobs env name p).
Proof. unfold list_blobs. frames. destruct (_ !! _); frames. Qed.

Lemma kept_empty_gcs_folder env path :
  frame (kept_outside path) (empty_gcs_folder env path).
Proof.
  unfold empty_gcs_folder.
  apply frame_bind; [typeclasses eauto | frames | intros _].
  apply frame_bind_ok; [typeclasses eauto | apply kept_list_blobs |].
  intros blobs (w & w1 & Hlist).
  apply frame_bind; [typeclasses eauto | | frames].
  apply frame_for_each_in; [typeclasses eauto |]. intros n Hn.
  apply frame_bind; [typeclasses eauto | | frames].
  apply kept_blob_delete. exact (list_blobs_prefix _ _ _ _ _ _ Hlist n Hn).
Qed.

Lemma kept_upload_to_gcs env data path filename file_format :
  frame (kept_outside path) (upload_to_gcs env data path filename file_format).
Proof.
  unfold upload_to_gcs. frames.
  repeat (destruct (String.eqb file_format _)); try destruct data; frames;
    apply kept_blob_upload, prefix_app.
Qed.

(** a pass leaves the objects of the other folders as they are, however it
    ends *)
Lemma kept_run_pass env path records :
  frame (kept_outside path) (run_pass env path records).
Proof.
  unfold run_pass. frames;
    first [ apply kept_empty_gcs_folder
          | apply kept_upload_to_gcs
          | apply kept_of_same_storage;
            first [ apply storage_generate_patients | apply storage_generate_ehr
                  | apply storage_generate_claims | apply storage_patient_id_list ] ].
Qed.

(** an upload that fails has changed nothing in the bucket *)
Lemma upload_raise_keeps env data path filename file_format w e w' :
  upload_to_gcs env data path filename file_format w = (Raise e, w') ->
  buckets w' = buckets w.
Proof.
  unfold upload_to_gcs. intros H.
  apply bind_raise_inv in H as [H | ([] & w1 & Hp & H)]; [discriminate H |].
  injection Hp as <-.
  apply bind_raise_inv in H as [H | ([] & w2 & _ & H)]; [| discriminate H].
  assert (Hup : forall bn c ct,
             blob_upload env BUCKET_NAME bn c ct
               (with_stdout (stdout w ++
                  ["Uploading " +:+ filename +:+ " in " +:+ file_format
                   +:+ " format to GCS..."]) w) = (Raise e, w') ->
             buckets w' = buckets w).
  { intros bn c ct Hb.
    unfold blob_upload, bind, api_request, get_buckets, put_buckets, raise in Hb.
    destruct (gcs_fault env _); [injection Hb as <- <-; reflexivity |].
    destruct (_ !! _); [discriminate Hb | injection Hb as <- <-; reflexivity]. }
  repeat (destruct (String.eqb file_format _)); try destruct data;
    first [ exact (Hup _ _ _ H) | injection H as <- <-; reflexivity | discriminate H ].
Qed.

(** ** The two classes of errors *)

(** [create_bucket] never raises *)
Lemma create_bucket_returns env w : exists w', create_bucket env w = (Ok tt, w').
Proof.
  unfold create_bucket, try_except.
  destruct (bind (bucket_exists env BUCKET_NAME) _ w) as [[[] | e] w1];
    eexists; reflexivity.
Qed.

(** when its request fails, it prints the error and goes on *)
Lemma create_bucket_fault env w e :
  gcs_fault env (gcs_tick w) = Some e ->
  create_bucket env w
  = (Ok tt, with_stdout (stdout w ++ ["Error creating bucket: " +:+ exn_str e])
              (tick_gcs w)).
Proof.
  intros Hf. unfold create_bucket, try_except, bucket_exists, bind at 1 2, api_request.
  rewrite Hf. reflexivity.
Qed.

(** the script, once the bucket is set up, has no handler: a failed request
    ends it *)
Lemma fatal_after_setup env dev_records prod_records :
  fatal env (dev <- run_pass env DEV_PATH dev_records ;;
             prod <- run_pass env PROD_PATH prod_records ;;
             print "Data generation and upload to GCS completed successfully." ;;;
             ret (dev, prod)).
Proof. fatals; apply fatal_run_pass. Qed.

(** when the creation that follows a check fails, it prints the error and
    goes on, too *)
Lemma create_bucket_creation_fault env w e :
  gcs_fault env (gcs_tick w) = None -> buckets w !! BUCKET_NAME = None ->
  gcs_fault env (S (gcs_tick w)) = Some e ->
  create_bucket env w
  = (Ok tt, with_stdout (stdout w ++ ["Error creating bucket: " +:+ exn_str e])
              (tick_gcs (tick_gcs w))).
Proof.
  intros Hf Hb He.
  unfold create_bucket, try_except, bucket_exists, bind at 1 2, api_request.
  rewrite Hf. unfold bind at 1, get_buckets, ret. cbn [buckets tick_gcs]. rewrite Hb.
  cbn [negb]. unfold bind at 1, client_create_bucket, bind at 1, api_request.
  cbn [gcs_tick tick_gcs]. rewrite He. reflexivity.
Qed.

(** the request of [create_bucket] that the service fails, if it fails one:
    the check, or the creation that follows the check of a missing bucket *)
Definition setup_fails (env : Env) (w : World) (e : exn) : Prop :=
  gcs_fault env (gcs_tick w) = Some e
  \/ (gcs_fault env (gcs_tick w) = None
      /\ buckets w !! BUCKET_NAME = None
      /\ gcs_fault env (S (gcs_tick w)) = Some e).

(** [raises_in c w e w' next]: run from [w], the step [c] raises [e] and
    leaves the world [w'], or it returns and [next] holds of what it
    returns and of the world it leaves *)
Definition raises_in {A} (c : M A) (w : World) (e : exn) (w' : World)
    (next : A -> World -> Prop) : Prop :=
  c w = (Raise e, w') \/ exists a w1, c w = (Ok a, w1) /\ next a w1.

(** a pass raises [e] and leaves [w']: one of its nine steps does, the steps
    before it having returned *)
Definition pass_raises (env : Env) (path : string) (records : Z)
    (w : World) (e : exn) (w' : World) : Prop :=
  raises_in (empty_gcs_folder env path) w e w' (fun _ w1 =>
  raises_in (generate_patients env records) w1 e w' (fun patients w2 =>
  raises_in (patient_id_list patients) w2 e w' (fun ids w3 =>
  raises_in (generate_ehr env records ids) w3 e w' (fun ehr w4 =>
  raises_in (patient_id_list patients) w4 e w' (fun ids' w5 =>
  raises_in (generate_claims env records ids') w5 e w' (fun claims w6 =>
  raises_in (upload_to_gcs env (DataFrameData patients) path "patient_data.csv" "csv")
    w6 e w' (fun _ w7 =>
  raises_in (upload_to_gcs env (ListData ehr) path "ehr_data.json" "json")
    w7 e w' (fun _ w8 =>
  raises_in (upload_to_gcs env (TableData claims) path "claims_data.parquet" "parquet")
    w8 e w' (fun _ _ => False))))))))).

Lemma bind_raises_in {A B} (c : M A) (k : A -> M B) w e w' :
  bind c k w = (Raise e, w') <-> raises_in c w e w' (fun a w1 => k a w1 = (Raise e, w')).
Proof.
  split.
  - apply bind_raise_inv.
  - intros [H | (a & w1 & H & Hk)].
    + apply bind_raise_intro. exact H.
    + rewrite (bind_ok_intro _ _ _ _ _ H). exact Hk.
Qed.

Lemma raises_in_iff {A} (c : M A) w e w' (P Q : A -> World -> Prop) :
  (forall a w1, P a w1 <-> Q a w1) -> raises_in c w e w' P <-> raises_in c w e w' Q.
Proof.
  intros HPQ. unfold raises_in.
  split; (intros [H | (a & w1 & H & Hn)];
          [left; exact H | right; exists a, w1; split; [exact H | apply HPQ; exact Hn]]).
Qed.

(** [run_pass] has no handler: it raises what its first failing step raises *)
Lemma run_pass_raises env path records w e w' :
  run_pass env path records w = (Raise e, w') <-> pass_raises env path records w e w'.
Proof.
  unfold run_pass, pass_raises.
  repeat (rewrite bind_raises_in; apply raises_in_iff; intros ? ?).
  split; [discriminate | contradiction].
Qed.

(** C8: (a) [create_bucket] always returns: a failure of its check or of
    its creation request is caught, printed as "Error creating bucket: ..."
    and changes no bucket, and the script goes on with the passes; (b) the run
    raises exactly when, after that, the dev pass raises or, the dev pass having
    returned, the prod pass raises, and a pass raises exactly when one of its
    steps does (clearing the folder, each generator, reading the identifiers,
    each upload), the steps before it having returned: the exception and the
    world are those of the failing step; (c) a request that the service fails
    after the setup ends the run with that error, and no request follows it
    (no retry); (d) nothing is rolled back: an upload that fails leaves the
    bucket as it was, and the prod pass, however it ends, leaves the objects
    outside its folder, the dev uploads among them, as they were. *)
Theorem error_classes (env : Env) (dev_records prod_records : Z) (w : World) :
  (exists w1,
      create_bucket env w = (Ok tt, w1)
      /\ (forall e, setup_fails env w e ->
            buckets w1 = buckets w
            /\ stdout w1 = stdout w ++ ["Error creating bucket: " +:+ exn_str e])
      /\ run_script env dev_records prod_records w
         = (dev <- run_pass env DEV_PATH dev_records ;;
            prod <- run_pass env PROD_PATH prod_records ;;
            print "Data generation and upload to GCS completed successfully." ;;;
            ret (dev, prod)) w1)
  /\ (forall e w',
        run_script env dev_records prod_records w = (Raise e, w') <->
        exists w1,
          create_bucket env w = (Ok tt, w1)
          /\ (run_pass env DEV_PATH dev_records w1 = (Raise e, w')
              \/ exists dev w2,
                   run_pass env DEV_PATH dev_records w1 = (Ok dev, w2)
                   /\ run_pass env PROD_PATH prod_records w2 = (Raise e, w')))
  /\ (forall path records w0 e w',
        run_pass env path records w0 = (Raise e, w') <->
        pass_raises env path records w0 e w')
  /\ (forall w1 r w',
        create_bucket env w = (Ok tt, w1) ->
        run_script env dev_records prod_records w = (r, w') ->
        forall i e, (gcs_tick w1 <= i < gcs_tick w')%nat -> gcs_fault env i = Some e ->
          r = Raise e /\ gcs_tick w' = S i)
  /\ (forall data path filename file_format w0 e w1,
        upload_to_gcs env data path filename file_format w0 = (Raise e, w1) ->
        buckets w1 = buckets w0)
  /\ (forall w1 r w2,
        run_pass env PROD_PATH prod_records w1 = (r, w2) ->
        kept_outside PROD_PATH w1 w2).
Proof.
  destruct (create_bucket_returns env w) as [w1 Hc].
  assert (Hgo : run_script env dev_records prod_records w
                = (dev <- run_pass env DEV_PATH dev_records ;;
                   prod <- run_pass env PROD_PATH prod_records ;;
                   print "Data generation and upload to GCS completed successfully." ;;;
                   ret (dev, prod)) w1).
  { unfold run_script. rewrite (bind_ok_intro _ _ _ _ _ Hc). reflexivity. }
  split; [| split; [| split; [| split; [| split]]]].
  - exists w1. split; [exact Hc |]. split; [| exact Hgo].
    intros e [He | (Hf & Hb & He)].
    + rewrite (create_bucket_fault env w e He) in Hc.
      injection Hc as <-. split; reflexivity.
    + rewrite (create_bucket_creation_fault env w e Hf Hb He) in Hc.
      injection Hc as <-. split; reflexivity.
  - intros e w'. rewrite Hgo, bind_raises_in. unfold raises_in. split.
    + intros [Hdev | (dev & w2 & Hdev & Hrest)].
      * exists w1. split; [exact Hc |]. left. exact Hdev.
      * apply bind_raises_in in Hrest as [Hprod | (prod & w3 & _ & Habs)].
        -- exists w1. split; [exact Hc |]. right. exists dev, w2. split; assumption.
        -- discriminate Habs.
    + intros (w1' & Hc' & H). rewrite Hc in Hc'. injection Hc' as <-.
      destruct H as [Hdev | (dev & w2 & Hdev & Hprod)]; [left; exact Hdev |].
      right. exists dev, w2. split; [exact Hdev |].
      apply bind_raise_intro. exact Hprod.
  - intros path records w0 e w'. apply run_pass_raises.
  - intros w1' r w' Hc' Hrun. rewrite Hc in Hc'. injection Hc' as <-.
    rewrite Hgo in Hrun.
    exact (proj2 (fatal_after_setup env dev_records prod_records w1 r w' Hrun)).
  - intros data path filename file_format w0 e w1'. apply upload_raise_keeps.
  - intros w1' r w2. apply kept_run_pass.
Qed.

(** a service that fails the first request it gets, and no other *)
Definition first_request_fails : Env :=
  {| py_bits := py_bits sample_env; fk_bits := fk_bits sample_env;
     first_name_of := first_name_of sample_env; last_name_of := last_name_of sample_env;
     today := today sample_env;
     gcs_fault := fun i => match i with
                           | O => Some (ServiceError "503 Service Unavailable")
                           | _ => None
                           end |}.

(** a service that answers the check and fails the creation *)
Definition creation_fails : Env :=
  {| py_bits := py_bits sample_env; fk_bits := fk_bits sample_env;
     first_name_of := first_name_of sample_env; last_name_of := last_name_of sample_env;
     today := today sample_env;
     gcs_fault := fun i => match i with
                           | 1%nat => Some (ServiceError "403 Forbidden")
                           | _ => None
                           end |}.

Lemma error_classes_witness :
  (exists w1,
      create_bucket creation_fails fresh_world = (Ok tt, w1)
      /\ buckets w1 = buckets fresh_world
      /\ stdout w1 = ["Error creating bucket: 403 Forbidden"])
  /\ (exists w',
        run_script creation_fails 1 1 fresh_world = (Raise (NotFound BUCKET_NAME), w'))
  /\ (forall w1 r w2,
        run_pass creation_fails PROD_PATH 1 w1 = (r, w2) ->
        kept_outside PROD_PATH w1 w2).
Proof.
  destruct (error_classes creation_fails 1 1 fresh_world)
    as ((w1 & Hc & Hlog & _) & Hrun & Hpass & _ & _ & Hkept).
  split; [| split; [| exact Hkept]].
  - exists w1. split; [exact Hc |].
    apply (Hlog (ServiceError "403 Forbidden")).
    right. split; [reflexivity |]. split; [apply lookup_empty | reflexivity].
  - exists (snd (run_pass creation_fails DEV_PATH 1
                   (snd (create_bucket creation_fails fresh_world)))).
    apply Hrun. exists (snd (create_bucket creation_fails fresh_world)).
    split; [vm_compute; reflexivity | left; vm_compute; reflexivity].
Defined.

(** the first request fails instead: the same line, with that error *)
Example failed_check_is_logged :
  let w1 := snd (create_bucket first_request_fails fresh_world) in
  buckets w1 = buckets fresh_world
  /\ stdout w1 = ["Error creating bucket: 503 Service Unavailable"].
Proof. vm_compute. split; reflexivity. Qed.

(** a generator of identifiers that always gives the same one: the patient
    of a pass for one record takes it, and the claim cannot get a new one *)
Definition stuck_source : Env :=
  {| py_bits := py_bits sample_env; fk_bits := fun _ => 0;
     first_name_of := first_name_of sample_env; last_name_of := last_name_of sample_env;
     today := today sample_env;
     gcs_fault := fun _ => None |}.

(** an object left by an earlier run *)
Definition csv_stub : blob :=
  {| blob_content := Text "patient_id"; blob_content_type := "text/csv" |}.

(** the exception of [generate_claims] is the exception of the run: the
    folder was cleared, nothing was uploaded, and nothing after the
    generator's first line was printed *)
Example claims_exception_ends_run :
  let '(r, w') := run_script stuck_source 1 1
                    (with_buckets {[ BUCKET_NAME := {[ "dev/old.csv" := csv_stub ]} ]}
                       fresh_world) in
  (exists m, r = Raise (UniquenessException m))
  /\ buckets w' !! BUCKET_NAME = Some ∅
  /\ last (stdout w')
     = Some "Generating claims data in Parquet format with explicit schema...".
Proof.
  vm_compute. split; [eexists; reflexivity |]. split; reflexivity.
Qed.

(** the run goes on after the failed setup, and then fails for good: the
    bucket is missing when the dev folder is listed *)
Example run_after_failed_setup :
  let '(r, w') := run_script first_request_fails 1 1 fresh_world in
  r = Raise (NotFound BUCKET_NAME)
  /\ stdout w'
     = [ "Error creating bucket: 503 Service Unavailable";
         "Emptying folder 'dev/' in GCS bucket 'healthcare-data-bucket-treadway'..." ]
  /\ gcs_tick w' = 2%nat.
Proof. vm_compute. repeat split. Qed.

(** a service that fails the second upload of the dev pass: the patient file
    uploaded before it is still in the bucket when the run ends *)
Definition second_upload_fails : Env :=
  {| py_bits := py_bits sample_env; fk_bits := fk_bits sample_env;
     first_name_of := first_name_of sample_env; last_name_of := last_name_of sample_env;
     today := today sample_env;
     gcs_fault := fun i => if Nat.eqb i 4 then Some (ServiceError "500 Internal Server Error")
                           else None |}.

Example earlier_upload_survives :
  let '(r, w') := run_script second_upload_fails 1 1 fresh_world in
  r = Raise (ServiceError "500 Internal Server Error")
  /\ gcs_tick w' = 5%nat
  /\ match buckets w' !! BUCKET_NAME with
     | Some objs => map fst (map_to_list objs) = ["dev/patient_data.csv"]
     | None => False
     end.
Proof. vm_compute. repeat split. Qed.

(** ** The schema of the claims table *)

(** a cell has the type of its column *)
Definition has_type (ty : arrow_type) (v : arrow_val) : Prop :=
  match ty, v with
  | pa_string, AString _ => True
  | pa_timestamp_ms, ATimestampMs _ => True
  | pa_float64, AFloat64 _ => True
  | _, _ => False
  end.

Lemma coerce_typed ty v a : coerce ty v = Ok a -> has_type ty a.
Proof.
  destruct ty, v; simpl; intros H; try discriminate H;
    try (injection H as <-; exact Logic.I).
  destruct (_ =? _); [injection H as <-; exact Logic.I | discriminate H].
Qed.

Lemma coerce_column_typed ty vs col :
  coerce_column ty vs = Ok col -> Forall (has_type ty) col /\ length col = length vs.
Proof.
  revert col. induction vs as [| v vs IH]; simpl; intros col H.
  - injection H as <-. split; [constructor | reflexivity].
  - destruct (coerce ty v) as [a |] eqn:Ea; [| discriminate H].
    destruct (coerce_column ty vs) as [rest |]; [| discriminate H].
    injection H as <-. destruct (IH rest eq_refl) as [Hall Hlen].
    split; [constructor; [exact (coerce_typed _ _ _ Ea) | exact Hall] | simpl; lia].
Qed.

Lemma df_getitem_length df name vs :
  df_getitem df name = Ok vs -> length vs = length (df_rows df).
Proof.
  unfold df_getitem. destruct (index_of name (df_columns df)); [| discriminate].
  intros H. injection H as <-. apply length_map.
Qed.

(** Whatever the frame holds, a table built against a schema has that schema,
    and each of its columns holds only cells of the declared type, one per
    row: the types come from the schema, not from the data. *)
Lemma Table_from_pandas_typed df schema t :
  Table_from_pandas df schema = Ok t ->
  tbl_schema t = schema
  /\ Forall2 (fun field col =>
                Forall (has_type (snd field)) col /\ length col = length (df_rows df))
       schema (tbl_columns t).
Proof.
  unfold Table_from_pandas.
  destruct (convert_columns df schema) as [cols |] eqn:Ec; [| discriminate].
  intros H. injection H as <-. split; [reflexivity |]. cbn [tbl_columns].
  revert cols Ec. induction schema as [| [name ty] schema IH]; simpl; intros cols Ec.
  - injection Ec as <-. constructor.
  - destruct (df_getitem df name) as [vs |] eqn:Eg; [| discriminate Ec].
    destruct (coerce_column ty vs) as [col |] eqn:Ecol; [| discriminate Ec].
    destruct (convert_columns df schema) as [rest |]; [| discriminate Ec].
    injection Ec as <-. constructor; [| apply IH; reflexivity].
    destruct (coerce_column_typed _ _ _ Ecol) as [Hall Hlen].
    split; [exact Hall |]. rewrite Hlen. exact (df_getitem_length _ _ _ Eg).
Qed.

(** a value of another type is rejected, or converted when it can be *)
Example string_column_rejects_int :
  coerce pa_string (PInt 3)
  = Raise (ArrowInvalid "Could not convert value to the type of the column").
Proof. reflexivity. Qed.

Example float_column_converts_int :
  coerce pa_float64 (PInt 3) = Ok (AFloat64 {| fd_digits := 3; fd_scale := 0 |}).
Proof. reflexivity. Qed.

(** the 'parquet' upload stores the file written from the table *)
Lemma upload_parquet_stores env t path filename w w' :
  upload_to_gcs env (TableData t) path filename "parquet" w = (Ok tt, w') ->
  exists objs,
    buckets w' !! BUCKET_NAME = Some objs
    /\ objs !! (path +:+ filename)
       = Some {| blob_content := ParquetFile t;
                 blob_content_type := "application/octet-stream" |}.
Proof.
  unfold upload_to_gcs. cbn [String.eqb Ascii.eqb Bool.eqb].
  intros H. apply bind_ok_inv in H as ([] & w1 & Hp & H).
  apply bind_ok_inv in H as ([] & w2 & Hu & H).
  injection Hp as <-. injection H as <-.
  apply blob_upload_ok_inv in Hu as (objs & _ & Hb).
  eexists. cbn [buckets with_stdout]. rewrite Hb, lookup_insert_eq.
  split; [reflexivity |]. apply lookup_insert_eq.
Qed.

(** * Further properties of the script *)

(** ** Vital signs of an EHR record *)

Section HalfRounding.
Local Open Scope Q_scope.

Lemma ilog2_below (x : Q) (b : Z) :
  0 < x -> x <= inject_Z b -> (b < 2 ^ 51)%Z -> (ilog2 x <= 51)%Z.
Proof.
  intros Hpos Hb Hb51. unfold ilog2.
  assert (Hnum : (0 < Qnum x)%Z).
  { unfold Qlt in Hpos. simpl in Hpos. lia. }
  assert (Hle : (Qnum x <= b * Zpos (Qden x))%Z).
  { unfold Qle in Hb. simpl in Hb. lia. }
  assert (Hbpos : (0 < b)%Z) by nia.
  assert (Hlog : (Z.log2 (Qnum x) <= Z.log2 b + Z.log2 (Zpos (Qden x)) + 1)%Z).
  { etransitivity; [apply Z.log2_le_mono, Hle |].
    apply Z.log2_mul_above; lia. }
  assert (Hlb : (Z.log2 b < 51)%Z) by (apply Z.log2_lt_pow2; lia).
  destruct (Qle_bool _ x); lia.
Qed.

Lemma pow2_neg_even (z : Z) :
  (z < 0)%Z -> exists k : positive, pow2 z = 1 # (2 * k).
Proof.
  intros Hz. unfold pow2. destruct (Z.leb_spec 0 z) as [H0 | _]; [lia |].
  exists (Z.to_pos (2 ^ (- z - 1))). f_equal.
  assert (E : (2 ^ (- z) = 2 * 2 ^ (- z - 1))%Z).
  { rewrite <- Z.pow_succ_r by lia. f_equal. lia. }
  rewrite E.
  assert (0 < 2 ^ (- z - 1))%Z by (apply Z.pow_pos_nonneg; lia).
  destruct (2 ^ (- z - 1))%Z as [| p | p]; first [lia | reflexivity].
Qed.

(** rounding to binary64 stays between bounds that are halves of integers *)
Lemma fl_between_half (a b : Z) (x : Q) :
  (0 <= a)%Z -> (b < 2 ^ 51)%Z ->
  a # 2 <= x -> x <= b # 2 ->
  a # 2 <= fl x /\ fl x <= b # 2.
Proof.
  intros Ha0 Hb51 Ha Hb. unfold fl.
  destruct (Qeq_bool x (inject_Z 0)) eqn:Ez.
  - apply Qeq_bool_iff in Ez. rewrite Ez in Ha, Hb. split; assumption.
  - assert (Hx0 : 0 < x).
    { assert (Hge : 0 <= x).
      { apply Qle_trans with (a # 2); [| exact Ha]. unfold Qle. simpl. lia. }
      apply Qle_lteq in Hge as [Hlt | Heq]; [exact Hlt |].
      apply Qeq_bool_neq in Ez. exfalso. apply Ez. symmetry. exact Heq. }
    assert (Habs : Qabs x = x).
    { destruct x as [n d]. unfold Qlt in Hx0. simpl in Hx0.
      unfold Qabs. rewrite Z.abs_eq by lia. reflexivity. }
    rewrite Habs.
    assert (Hxb : x <= inject_Z b).
    { apply Qle_trans with (b # 2); [exact Hb |].
      assert (0 <= b)%Z.
      { assert (Hab : a # 2 <= b # 2) by (apply Qle_trans with x; assumption).
        unfold Qle in Hab. simpl in Hab. lia. }
      unfold Qle. simpl. lia. }
    destruct (pow2_neg_even (ilog2 x - 52)) as [k Hk].
    { pose proof (ilog2_below x b Hx0 Hxb Hb51). lia. }
    rewrite Hk.
    assert (Hlo : inject_Z (a * Zpos k) <= x / (1 # (2 * k))).
    { unfold Qdiv, Qinv, Qle in *. simpl in *. nia. }
    assert (Hhi : x / (1 # (2 * k)) <= inject_Z (b * Zpos k)).
    { unfold Qdiv, Qinv, Qle in *. simpl in *. nia. }
    destruct (rne_between _ _ _ Hlo Hhi) as [Hr1 Hr2].
    set (r := rne (x / (1 # (2 * k)))) in *.
    unfold Qle, Qmult, inject_Z. simpl. split; nia.
Qed.

(** the temperature [round(random.uniform(97.0, 99.5), 1)] of a visit: a
    whole number of tenths between 97.0 and 99.5 *)
Lemma temperature_between (k : Z) :
  (0 <= k < 2 ^ 53)%Z ->
  let t := py_round (fl (inject_Z 97
                         + fl (fl ((199 # 2) - inject_Z 97) * (k # Z.to_pos (2 ^ 53))))) 1 in
  (970 <= fd_digits t <= 995)%Z /\ fd_scale t = 1%nat.
Proof.
  intros Hk t.
  assert (H25 : fl ((199 # 2) - inject_Z 97) == 5 # 2) by (vm_compute; reflexivity).
  assert (Hr0 : 0 <= k # Z.to_pos (2 ^ 53)).
  { unfold Qle. simpl. lia. }
  assert (Hr1 : k # Z.to_pos (2 ^ 53) <= 1).
  { unfold Qle. cbn [Qnum Qden].
    change (Z.pos (Z.to_pos (2 ^ 53))) with (2 ^ 53)%Z. lia. }
  assert (Hprod : 0 # 2 <= fl ((199 # 2) - inject_Z 97) * (k # Z.to_pos (2 ^ 53))
                  /\ fl ((199 # 2) - inject_Z 97) * (k # Z.to_pos (2 ^ 53)) <= 5 # 2).
  { rewrite H25. split.
    - apply Qle_trans with 0; [discriminate |].
      apply Qmult_le_0_compat; [discriminate | exact Hr0].
    - rewrite <- (Qmult_1_r (5 # 2)) at 2.
      rewrite !(Qmult_comm (5 # 2)).
      apply Qmult_le_compat_r; [exact Hr1 | discriminate]. }
  destruct Hprod as [Hp0 Hp1].
  destruct (fl_between_half 0 5 _ ltac:(lia) ltac:(lia) Hp0 Hp1) as [Hf0 Hf1].
  set (y := fl (fl ((199 # 2) - inject_Z 97) * (k # Z.to_pos (2 ^ 53)))) in *.
  assert (Hs0 : 194 # 2 <= inject_Z 97 + y).
  { assert (E : 194 # 2 == inject_Z 97 + (0 # 2)) by reflexivity.
    rewrite E. apply Qplus_le_compat; [apply Qle_refl | exact Hf0]. }
  assert (Hs1 : inject_Z 97 + y <= 199 # 2).
  { assert (E : 199 # 2 == inject_Z 97 + (5 # 2)) by reflexivity.
    rewrite E. apply Qplus_le_compat; [apply Qle_refl | exact Hf1]. }
  destruct (fl_between_half 194 199 _ ltac:(lia) ltac:(lia) Hs0 Hs1) as [Hx0 Hx1].
  set (x := fl (inject_Z 97 + y)) in *.
  split; [| reflexivity].
  unfold t, py_round. cbn [fd_digits]. apply rne_between.
  - assert (E : inject_Z 970 == (194 # 2) * inject_Z 10) by reflexivity.
    rewrite E. apply Qmult_le_compat_r; [exact Hx0 | discriminate].
  - assert (E : inject_Z 995 == (199 # 2) * inject_Z 10) by reflexivity.
    rewrite E. apply Qmult_le_compat_r; [exact Hx1 | discriminate].
Qed.

End HalfRounding.

(** the record of a visit, with what the generator guarantees of its vital
    signs and its date *)
Definition ehr_vitals_ok (env : Env) (d : pydict) : Prop :=
  exists pid visit code desc hr systolic diastolic temp,
    d = [ ("patient_id", PStr pid); ("visit_date", PStr (date_iso visit));
          ("diagnosis_code", PStr code); ("diagnosis_desc", PStr desc);
          ("heart_rate", PInt hr);
          ("blood_pressure", PStr (str_int systolic +:+ "/" +:+ str_int diastolic));
          ("temperature", PFloat temp) ]
    /\ dt_ordinal start_date <= visit <= dt_ordinal (end_date env)
    /\ 60 <= hr <= 100
    /\ 110 <= systolic <= 140
    /\ 70 <= diastolic <= 90
    /\ 970 <= fd_digits temp <= 995
    /\ fd_scale temp = 1%nat.

Lemma post_ehr_record_vitals env ids w (Q : pydict -> World -> Prop) :
  (forall d w', ehr_vitals_ok env d -> Q d w') ->
  post (ehr_record_with env ehr_diagnosis_codes diagnosis_table ids) w Q anything.
Proof.
  intros HQ. unfold ehr_record_with.
  apply post_bind, post_choice; [intros; exact Logic.I |]. intros pid _.
  apply post_bind, post_date_between; [intros; exact Logic.I |]. intros visit Hvisit.
  apply post_bind, post_choice; [intros; exact Logic.I |]. intros code _.
  apply post_bind, post_lift.
  destruct (dict_getitem diagnosis_table code) as [desc |]; [| exact Logic.I].
  apply post_bind, post_randint; [lia |]. intros hr Hhr.
  apply post_bind, post_randint; [lia |]. intros sys Hsys.
  apply post_bind, post_randint; [lia |]. intros dia Hdia.
  apply post_bind, post_uniform. intros k Hk.
  destruct (temperature_between k Hk) as [Htemp Hscale].
  apply post_ret, HQ.
  exists pid, visit, code, desc, hr, sys, dia. eexists.
  split; [reflexivity |]. repeat split; try assumption; first [apply Hvisit | apply Hhr
    | apply Hsys | apply Hdia | apply Htemp].
Qed.

(** X1: in every unit [generate_ehr] returns, the heart rate is between 60
    and 100, the blood pressure is "systolic/diastolic" with systolic between
    110 and 140 and diastolic between 70 and 90, the temperature is a whole
    number of tenths between 97.0 and 99.5, and the visit date is the ISO
    form of a date between 2020-01-01 and the day of the run. *)
Theorem ehr_vitals_in_range (env : Env) (N : Z) (ids : list string) (w : World)
    (units : list string) (w' : World) :
  generate_ehr env N ids w = (Ok units, w') ->
  Forall (fun u => exists d, ehr_vitals_ok env d /\ json_dumps d = Ok u) units.
Proof.
  intros Hrun.
  refine (post_ok_inv _ _ (fun units _ => Forall _ units) anything _ _ _ Hrun).
  unfold generate_ehr, generate_ehr_with. apply post_bind, post_print.
  eapply post_conseq;
    [apply (post_for_range
              (fun (_ : nat) acc (_ : World) =>
                 Forall (fun u => exists d, ehr_vitals_ok env d /\ json_dumps d = Ok u) acc))
           with (k0 := O) | | ].
  - intros k acc w1 _ Hall.
    apply post_bind, post_ehr_record_vitals. intros d w2 Hd.
    apply post_bind, post_lift.
    destruct (json_dumps d) as [u |] eqn:Hu; [| exact Logic.I].
    apply post_ret. apply Forall_app. split; [exact Hall |].
    constructor; [| constructor]. exists d. split; assumption.
  - constructor.
  - intros acc w1 H. exact H.
  - intros e w1 H. exact H.
Qed.

Lemma ehr_vitals_in_range_witness :
  exists units w',
    generate_ehr sample_env 3 five_ids fresh_world = (Ok units, w')
    /\ Forall (fun u => exists d, ehr_vitals_ok sample_env d /\ json_dumps d = Ok u) units.
Proof.
  destruct (generate_ehr sample_env 3 five_ids fresh_world) as [[units | e] w'] eqn:Hrun.
  - exists units, w'. split; [reflexivity |].
    exact (ehr_vitals_in_range sample_env 3 five_ids fresh_world units w' Hrun).
  - exfalso. vm_compute in Hrun. discriminate Hrun.
Defined.

(** ** Demographics of a patient *)

Definition patient_columns : list string :=
  ["patient_id"; "first_name"; "last_name"; "age"; "gender"; "zip_code";
   "insurance_type"; "registration_date"].

(** a row of the frame of patients, with what the generator guarantees of
    its age, gender, insurance type and registration date *)
Definition patient_row_ok (env : Env) (row : list pyval) : Prop :=
  exists pid fn ln age gender zip ins reg,
    row = [ PStr pid; PStr fn; PStr ln; PInt age; PStr gender; PStr zip; PStr ins;
            PStr (date_iso reg) ]
    /\ 0 <= age <= 100
    /\ In gender ["Male"; "Female"]
    /\ In ins ["Private"; "Medicare"; "Medicaid"]
    /\ dt_ordinal start_date <= reg <= dt_ordinal (end_date env).

Definition patient_record_ok (env : Env) (d : pydict) : Prop :=
  map fst d = patient_columns /\ patient_row_ok env (map snd d).

Lemma post_patient_record_fields env w (Q : pydict -> World -> Prop) :
  (forall d w', patient_record_ok env d -> Q d w') ->
  post (patient_record env) w Q anything.
Proof.
  intros HQ. unfold patient_record.
  apply post_bind, post_unique_uuid4; [intros; exact Logic.I |]. intros pid w1 _.
  apply post_bind, post_first_name. intros fn.
  apply post_bind, post_last_name. intros ln.
  apply post_bind, post_randint; [lia |]. intros age Hage.
  apply post_bind, post_choice; [discriminate |]. intros gender Hgender.
  apply post_bind, post_zipcode. intros zip.
  apply post_bind, post_choice; [discriminate |]. intros ins Hins.
  apply post_bind, post_date_between; [intros; exact Logic.I |]. intros reg Hreg.
  apply post_ret, HQ. split; [reflexivity |].
  exists pid, fn, ln, age, gender, zip, ins, reg.
  split; [reflexivity |]. repeat split; try assumption; first [apply Hage | apply Hreg].
Qed.

Lemma DataFrame_of_patients env records :
  Forall (patient_record_ok env) records -> records <> [] ->
  df_columns (DataFrame_of records) = patient_columns
  /\ df_rows (DataFrame_of records) = map (map snd) records.
Proof.
  intros Hall Hne. destruct records as [| r rest]; [congruence |].
  rewrite DataFrame_of_cons. cbn [df_columns df_rows].
  pose proof (Forall_inv Hall) as [Hcols _]. rewrite Hcols. split; [reflexivity |].
  apply map_ext_in. intros d Hd.
  rewrite List.Forall_forall in Hall. destruct (Hall d Hd) as [Hc Hrow].
  destruct Hrow as (pid & fn & ln & age & gender & zip & ins & reg & Hrow & _).
  destruct d as [| [k1 v1] [| [k2 v2] [| [k3 v3] [| [k4 v4] [| [k5 v5] [| [k6 v6]
    [| [k7 v7] [| [k8 v8] [| ? ?]]]]]]]]]; try discriminate Hc.
  cbn [map fst snd] in Hc, Hrow |- *.
  injection Hc as -> -> -> -> -> -> -> ->. reflexivity.
Qed.

(** X2: a frame [generate_patients] returns has, when it has rows, the eight
    columns of the dicts in their order, and in each row the age is between 0
    and 100, the gender is Male or Female, the insurance type is Private,
    Medicare or Medicaid, and the registration date is the ISO form of a date
    between 2020-01-01 and the day of the run. *)
Theorem patients_fields_in_range (env : Env) (N : Z) (w : World)
    (df : DataFrame) (w' : World) :
  generate_patients env N w = (Ok df, w') ->
  Forall (patient_row_ok env) (df_rows df)
  /\ (df_rows df <> [] -> df_columns df = patient_columns).
Proof.
  intros Hrun.
  refine (post_ok_inv _ _
            (fun df _ => Forall (patient_row_ok env) (df_rows df)
                         /\ (df_rows df <> [] -> df_columns df = patient_columns))
            anything _ _ _ Hrun).
  unfold generate_patients. apply post_bind, post_print. apply post_bind.
  eapply post_conseq;
    [apply (post_for_range
              (fun (_ : nat) acc (_ : World) => Forall (patient_record_ok env) acc))
           with (k0 := O) | | ].
  - intros k acc w1 _ Hall.
    apply post_bind, post_patient_record_fields. intros d w2 Hd.
    apply post_ret. apply Forall_app. split; [exact Hall |].
    constructor; [exact Hd | constructor].
  - constructor.
  - intros records w1 Hall. apply post_ret.
    destruct records as [| r rest].
    + split; [constructor | intros Hne; exfalso; apply Hne; reflexivity].
    + destruct (DataFrame_of_patients env (r :: rest) Hall ltac:(discriminate))
        as [Hcols Hrows].
      rewrite Hrows, Hcols. split; [| intros _; reflexivity].
      apply Forall_map. eapply Forall_impl; [exact Hall |].
      intros d [_ Hrow]. exact Hrow.
  - intros e w1 H. exact H.
Qed.

Lemma patients_fields_in_range_witness :
  exists df w',
    generate_patients sample_env 3 fresh_world = (Ok df, w')
    /\ Forall (patient_row_ok sample_env) (df_rows df)
    /\ (df_rows df <> [] -> df_columns df = patient_columns).
Proof.
  destruct (generate_patients sample_env 3 fresh_world) as [[df | e] w'] eqn:Hrun.
  - exists df, w'. split; [reflexivity |].
    exact (patients_fields_in_range sample_env 3 fresh_world df w' Hrun).
  - exfalso. vm_compute in Hrun. discriminate Hrun.
Defined.

(** ** Codes and status of a claim *)

Definition claim_codes_ok (c : claim_fields) : Prop :=
  In (cf_diagnosis_code c) ["E11.9"; "I10"; "J45"; "N18.9"]
  /\ In (cf_procedure_code c) ["99213"; "80053"; "83036"; "93000"]
  /\ In (cf_status c) ["Paid"; "Denied"; "Pending"].

Lemma post_claim_record_codes env ids w (Q : pydict -> World -> Prop) :
  (forall c w', claim_codes_ok c -> Q (claim_dict_of c) w') ->
  post (claim_record env ids) w Q anything.
Proof.
  intros HQ. unfold claim_record.
  apply post_bind, post_unique_uuid4; [intros; exact Logic.I |]. intros cid w1 _.
  apply post_bind, post_choice; [intros; exact Logic.I |]. intros pid _.
  apply post_bind, post_unique_uuid4; [intros; exact Logic.I |]. intros prov w2 _.
  apply post_bind, post_date_between; [intros; exact Logic.I |]. intros day _.
  apply post_bind, post_choice; [discriminate |]. intros code Hcode.
  apply post_bind, post_choice; [discriminate |]. intros proc Hproc.
  apply post_bind, post_uniform. intros k _.
  apply post_bind, post_choice; [discriminate |]. intros status Hstatus.
  apply post_ret.
  apply (HQ {| cf_claim_id := cid; cf_patient_id := pid; cf_provider_id := prov;
               cf_day := day; cf_diagnosis_code := code; cf_procedure_code := proc;
               cf_amount := _; cf_status := status |}).
  split; [exact Hcode |]. split; [exact Hproc | exact Hstatus].
Qed.

(** X3: in a table [generate_claims] returns, every diagnosis_code is one of
    E11.9, I10, J45, N18.9 (Z00.0, which visits can have, never appears),
    every procedure_code is one of 99213, 80053, 83036, 93000, and every
    status is Paid, Denied or Pending. *)
Theorem claims_codes_in_range (env : Env) (N : Z) (ids : list string) (w : World)
    (t : arrow_table) (w' : World) :
  generate_claims env N ids w = (Ok t, w') ->
  exists diagnoses procedures statuses,
    tbl_getitem t "diagnosis_code" = Some (map AString diagnoses)
    /\ tbl_getitem t "procedure_code" = Some (map AString procedures)
    /\ tbl_getitem t "status" = Some (map AString statuses)
    /\ Forall (fun s => In s ["E11.9"; "I10"; "J45"; "N18.9"]) diagnoses
    /\ Forall (fun s => In s ["99213"; "80053"; "83036"; "93000"]) procedures
    /\ Forall (fun s => In s ["Paid"; "Denied"; "Pending"]) statuses.
Proof.
  intros Hrun.
  assert (H : exists cs, t = claims_table cs /\ Forall claim_codes_ok cs).
  { refine (post_ok_inv _ _
              (fun t _ => exists cs, t = claims_table cs /\ Forall claim_codes_ok cs)
              anything _ _ _ Hrun).
    unfold generate_claims, claim_records. apply post_bind, post_print. apply post_bind.
    eapply post_conseq;
      [apply (post_for_range
                (fun (_ : nat) acc (_ : World) =>
                   exists cs, acc = map claim_dict_of cs /\ Forall claim_codes_ok cs))
             with (k0 := O) | | ].
    - intros k acc w1 _ (cs & -> & Hall).
      apply post_bind, post_claim_record_codes. intros c w2 Hc. apply post_ret.
      exists (cs ++ [c]). split; [rewrite map_app; reflexivity |].
      apply Forall_app. split; [exact Hall | constructor; [exact Hc | constructor]].
    - exists []. split; [reflexivity | constructor].
    - intros records w1 (cs & -> & Hall). apply post_lift.
      destruct cs as [| c cs].
      + destruct Table_of_no_claims as [m Hm]. cbn [map]. rewrite Hm. exact Logic.I.
      + rewrite Table_of_claims by discriminate. exists (c :: cs). split; [reflexivity | exact Hall].
    - intros e w1 H. exact H. }
  destruct H as (cs & -> & Hall).
  exists (map cf_diagnosis_code cs), (map cf_procedure_code cs), (map cf_status cs).
  rewrite !map_map.
  split; [reflexivity |]. split; [reflexivity |]. split; [reflexivity |].
  repeat split; apply Forall_map; (eapply Forall_impl; [exact Hall |]);
    intros c (H1 & H2 & H3); assumption.
Qed.

Lemma claims_codes_in_range_witness :
  exists t w' diagnoses procedures statuses,
    generate_claims sample_env 3 five_ids fresh_world = (Ok t, w')
    /\ tbl_getitem t "diagnosis_code" = Some (map AString diagnoses)
    /\ tbl_getitem t "procedure_code" = Some (map AString procedures)
    /\ tbl_getitem t "status" = Some (map AString statuses)
    /\ Forall (fun s => In s ["E11.9"; "I10"; "J45"; "N18.9"]) diagnoses
    /\ Forall (fun s => In s ["99213"; "80053"; "83036"; "93000"]) procedures
    /\ Forall (fun s => In s ["Paid"; "Denied"; "Pending"]) statuses.
Proof.
  destruct (generate_claims sample_env 3 five_ids fresh_world) as [[t | e] w'] eqn:Hrun.
  - destruct (claims_codes_in_range sample_env 3 five_ids fresh_world t w' Hrun)
      as (ds & ps & ss & H).
    exists t, w', ds, ps, ss. split; [reflexivity | exact H].
  - exfalso. vm_compute in Hrun. discriminate Hrun.
Defined.

(** ** Zero records *)

Definition no_claim_id_column : string :=
  "name 'claim_id' present in the specified schema is not found in the columns or index".

Lemma generate_patients_none env N w :
  N <= 0 ->
  generate_patients env N w
  = (Ok {| df_columns := []; df_rows := [] |},
     with_stdout (stdout w ++ ["Generating patient demographic data in CSV format..."]) w).
Proof.
  intros HN. unfold generate_patients.
  destruct (Z.to_nat N) as [| n] eqn:En; [reflexivity | lia].
Qed.

(** X4: asked for no record (N <= 0), [generate_patients] returns a frame
    without rows and without columns, [generate_ehr] returns the empty list,
    and [generate_claims] raises KeyError, the empty frame having none of the
    columns of the schema; a pass for no record therefore clears its folder
    and then stops on KeyError 'patient_id', before any upload. *)
Theorem zero_records (env : Env) (N : Z) (ids : list string) (path : string)
    (w w1 : World) :
  N <= 0 ->
  fst (generate_patients env N w) = Ok {| df_columns := []; df_rows := [] |}
  /\ fst (generate_ehr env N ids w) = Ok []
  /\ fst (generate_claims env N ids w) = Raise (KeyError no_claim_id_column)
  /\ (empty_gcs_folder env path w = (Ok tt, w1) ->
      exists w2,
        run_pass env path N w = (Raise (KeyError "patient_id"), w2)
        /\ buckets w2 = buckets w1 /\ gcs_tick w2 = gcs_tick w1).
Proof.
  intros HN. split; [| split; [| split]].
  - rewrite generate_patients_none by exact HN. reflexivity.
  - unfold generate_ehr, generate_ehr_with.
    destruct (Z.to_nat N) as [| n] eqn:En; [reflexivity | lia].
  - unfold generate_claims, claim_records.
    destruct (Z.to_nat N) as [| n] eqn:En; [reflexivity | lia].
  - intros Hclear. unfold run_pass. rewrite (bind_ok_intro _ _ _ _ _ Hclear).
    unfold bind at 1. rewrite generate_patients_none by exact HN.
    eexists. split; [reflexivity |]. split; reflexivity.
Qed.

Lemma zero_records_witness :
  fst (generate_patients sample_env 0 fresh_world) = Ok {| df_columns := []; df_rows := [] |}
  /\ fst (generate_ehr sample_env 0 five_ids fresh_world) = Ok []
  /\ fst (generate_claims sample_env 0 five_ids fresh_world)
     = Raise (KeyError no_claim_id_column).
Proof.
  destruct (zero_records sample_env 0 five_ids "dev/" fresh_world fresh_world ltac:(lia))
    as (H1 & H2 & H3 & _).
  split; [exact H1 |]. split; [exact H2 | exact H3].
Defined.

(** ** Clearing a folder *)

Lemma blob_delete_ok_inv env name blob_name w w' :
  blob_delete env name blob_name w = (Ok tt, w') ->
  exists objs,
    buckets w !! name = Some objs
    /\ is_Some (objs !! blob_name)
    /\ buckets w' = <[name := delete blob_name objs]> (buckets w)
    /\ gcs_tick w' = S (gcs_tick w).
Proof.
  unfold blob_delete, bind, api_request, get_buckets, put_buckets, raise.
  destruct (gcs_fault env (gcs_tick w)); [discriminate |].
  cbn [buckets tick_gcs]. destruct (buckets w !! name) as [objs |] eqn:Eb; [| discriminate].
  destruct (objs !! blob_name) as [b |] eqn:Eo; [| discriminate].
  intros H. injection H as <-. exists objs.
  split; [reflexivity |]. split; [rewrite Eo; eexists; reflexivity |].
  split; reflexivity.
Qed.

(** the loop of [empty_gcs_folder], when it comes to its end: the objects
    named are gone, the others are as they were, one request each *)
Lemma delete_loop_ok env names :
  forall w objs w',
    buckets w !! BUCKET_NAME = Some objs ->
    for_each names
      (fun blob_name =>
         blob_delete env BUCKET_NAME blob_name ;;;
         print ("Deleted '" +:+ blob_name +:+ "'")) w = (Ok tt, w') ->
    exists objs',
      buckets w' = <[BUCKET_NAME := objs']> (buckets w)
      /\ (forall name, objs' !! name = if decide (name ∈ names) then None else objs !! name)
      /\ gcs_tick w' = (gcs_tick w + length names)%nat.
Proof.
  induction names as [| n names IH]; intros w objs w' Hb Hrun.
  - simpl in Hrun. injection Hrun as <-. exists objs.
    split; [rewrite insert_id; [reflexivity | exact Hb] |].
    split; [| simpl; lia]. intros name.
    destruct (decide (name ∈ [])) as [Hin | _]; [| reflexivity].
    apply elem_of_nil in Hin. destruct Hin.
  - cbn [for_each] in Hrun.
    apply bind_ok_inv in Hrun as ([] & w2 & Hstep & Hrest).
    apply bind_ok_inv in Hstep as ([] & w1 & Hdel & Hprint).
    injection Hprint as <-.
    apply blob_delete_ok_inv in Hdel as (objs0 & Hb0 & _ & Hb1 & Ht1).
    rewrite Hb in Hb0. injection Hb0 as <-.
    destruct (IH (with_stdout (stdout w1 ++ ["Deleted '" +:+ n +:+ "'"]) w1)
                 (delete n objs) w') as (objs' & Hb' & Hlook & Ht').
    { cbn [buckets with_stdout]. rewrite Hb1. apply lookup_insert_eq. }
    { exact Hrest. }
    cbn [buckets gcs_tick with_stdout] in Hb', Ht'.
    exists objs'. split; [rewrite Hb', Hb1; apply insert_insert_eq |].
    split; [| rewrite Ht', Ht1; simpl; lia].
    intros name. rewrite Hlook.
    destruct (decide (name ∈ names)) as [Hin | Hout];
      destruct (decide (name ∈ n :: names)) as [Hin' | Hout']; try reflexivity.
    + exfalso. apply Hout'. right. exact Hin.
    + apply elem_of_cons in Hin' as [-> | Hin']; [apply lookup_delete_eq | contradiction].
    + apply lookup_delete_ne. intros ->. apply Hout'. left.
Qed.

Lemma list_blobs_ok_inv env name path w blobs w' :
  list_blobs env name path w = (Ok blobs, w') ->
  exists objs,
    buckets w !! name = Some objs
    /\ blobs = filter (fun n => String.prefix path n = true) (map fst (map_to_list objs))
    /\ w' = tick_gcs w.
Proof.
  unfold list_blobs, bind, api_request, get_buckets, raise, ret.
  destruct (gcs_fault env (gcs_tick w)); [discriminate |].
  cbn [buckets tick_gcs]. destruct (buckets w !! name) as [objs |]; [| discriminate].
  intros H. injection H as <- <-. exists objs. repeat split.
Qed.

(** the objects of a bucket whose names begin with a prefix *)
Definition names_under (path : string) (objs : gmap string blob) : list string :=
  filter (fun n => String.prefix path n = true) (map fst (map_to_list objs)).

Lemma in_names_under path objs name :
  In name (names_under path objs)
  <-> String.prefix path name = true /\ is_Some (objs !! name).
Proof.
  unfold names_under. rewrite <- list_elem_of_In, list_elem_of_filter.
  rewrite list_elem_of_fmap. split.
  - intros [Hp ([k v] & -> & Hkv)]. split; [exact Hp |].
    apply elem_of_map_to_list in Hkv. cbn. rewrite Hkv. eexists. reflexivity.
  - intros [Hp [v Hv]]. split; [exact Hp |]. exists (name, v).
    split; [reflexivity |]. apply elem_of_map_to_list. exact Hv.
Qed.

(** what a returned [empty_gcs_folder] has done, read off its three steps *)
Lemma empty_gcs_folder_ok_inv env path w w' :
  empty_gcs_folder env path w = (Ok tt, w') ->
  exists objs objs',
    buckets w !! BUCKET_NAME = Some objs
    /\ buckets w' = <[BUCKET_NAME := objs']> (buckets w)
    /\ (forall name,
          objs' !! name = if String.prefix path name then None else objs !! name)
    /\ gcs_tick w' = (gcs_tick w + 1 + length (names_under path objs))%nat.
Proof.
  unfold empty_gcs_folder. intros H.
  apply bind_ok_inv in H as ([] & w1 & Hp & H). injection Hp as <-.
  apply bind_ok_inv in H as (blobs & w2 & Hlist & H).
  apply bind_ok_inv in H as ([] & w3 & Hloop & H). injection H as <-.
  apply list_blobs_ok_inv in Hlist as (objs & Hb & -> & ->).
  cbn [buckets with_stdout] in Hb.
  match type of Hloop with
  | for_each ?ns _ ?w0 = _ =>
      apply (delete_loop_ok env ns w0 objs w3 Hb) in Hloop as (objs' & Hb' & Hlook & Ht)
  end.
  exists objs, objs'. cbn [buckets gcs_tick with_stdout tick_gcs] in *.
  split; [exact Hb |]. split; [exact Hb' |].
  split; [| unfold names_under; rewrite Ht; lia].
  intros name. rewrite Hlook.
  destruct (decide (name ∈ _)) as [Hin | Hout].
  - apply list_elem_of_In, (in_names_under path objs name) in Hin as [Hpre _].
    rewrite Hpre. reflexivity.
  - destruct (String.prefix path name) eqn:Hpre; [| reflexivity].
    destruct (objs !! name) as [b |] eqn:Eo; [| reflexivity].
    exfalso. apply Hout. apply list_elem_of_In, (in_names_under path objs name).
    split; [exact Hpre | rewrite Eo; eexists; reflexivity].
Qed.

(** X5: when [empty_gcs_folder] returns, the bucket exists, none of its
    objects has a name beginning with the path any more, every other object
    is as it was, no other bucket has changed, and the call has issued one
    request to list the folder and one for each object it held. *)
Theorem empty_gcs_folder_clears (env : Env) (path : string) (w w' : World) :
  empty_gcs_folder env path w = (Ok tt, w') ->
  exists objs objs',
    buckets w !! BUCKET_NAME = Some objs
    /\ buckets w' = <[BUCKET_NAME := objs']> (buckets w)
    /\ (forall name,
          objs' !! name = if String.prefix path name then None else objs !! name)
    /\ gcs_tick w' = (gcs_tick w + 1 + length (names_under path objs))%nat.
Proof. exact (empty_gcs_folder_ok_inv env path w w'). Qed.

(** a world whose bucket holds an old dev file and a prod file *)
Definition old_blob : blob :=
  {| blob_content := Text "old"; blob_content_type := "text/csv" |}.

Definition stocked_world : World :=
  with_buckets
    {[ BUCKET_NAME := {[ "dev/patient_data.csv" := old_blob; "prod/patient_data.csv" := old_blob ]} ]}
    fresh_world.

Lemma empty_gcs_folder_clears_witness :
  exists w' objs objs',
    empty_gcs_folder sample_env "dev/" stocked_world = (Ok tt, w')
    /\ buckets stocked_world !! BUCKET_NAME = Some objs
    /\ buckets w' = <[BUCKET_NAME := objs']> (buckets stocked_world)
    /\ (forall name,
          objs' !! name = if String.prefix "dev/" name then None else objs !! name)
    /\ gcs_tick w' = (gcs_tick stocked_world + 1 + length (names_under "dev/" objs))%nat.
Proof.
  destruct (empty_gcs_folder sample_env "dev/" stocked_world) as [[[] | e] w'] eqn:Hrun.
  - destruct (empty_gcs_folder_clears sample_env "dev/" stocked_world w' Hrun)
      as (objs & objs' & H).
    exists w', objs, objs'. split; [reflexivity | exact H].
  - exfalso. vm_compute in Hrun. discriminate Hrun.
Defined.

Example empty_gcs_folder_run :
  let w' := snd (empty_gcs_folder sample_env "dev/" stocked_world) in
  (map fst <$> (map_to_list <$> buckets w' !! BUCKET_NAME)) = Some ["prod/patient_data.csv"]
  /\ stdout w'
     = [ "Emptying folder 'dev/' in GCS bucket 'healthcare-data-bucket-treadway'...";
         "Deleted 'dev/patient_data.csv'";
         "Completed emptying folder 'dev/'." ]
  /\ gcs_tick w' = 2%nat.
Proof. vm_compute. repeat split. Qed.

(** ** Setting up the bucket *)

(** X6: [create_bucket] never changes a bucket that exists, nor any other
    bucket of the project, whatever the service answers; when the bucket is
    missing and the service answers its two requests, the bucket is created
    empty; in every case the call returns. *)
Theorem create_bucket_effect (env : Env) (w : World) :
  exists w',
    create_bucket env w = (Ok tt, w')
    /\ (forall objs, buckets w !! BUCKET_NAME = Some objs -> buckets w' = buckets w)
    /\ (forall name, name <> BUCKET_NAME -> buckets w' !! name = buckets w !! name)
    /\ (buckets w !! BUCKET_NAME = None ->
        gcs_fault env (gcs_tick w) = None -> gcs_fault env (S (gcs_tick w)) = None ->
        buckets w' = <[BUCKET_NAME := ∅]> (buckets w)
        /\ gcs_tick w' = S (S (gcs_tick w))
        /\ stdout w' = stdout w ++ ["Bucket '" +:+ BUCKET_NAME +:+ "' created successfully."]).
Proof.
  destruct (gcs_fault env (gcs_tick w)) as [e0 |] eqn:E0.
  { rewrite (create_bucket_fault env w e0 E0). eexists. split; [reflexivity |].
    cbn [buckets with_stdout tick_gcs].
    split; [reflexivity |]. split; [reflexivity |]. intros _ Habs. discriminate Habs. }
  assert (Hexists : bucket_exists env BUCKET_NAME w
                    = (Ok (match buckets w !! BUCKET_NAME with
                           | Some _ => true
                           | None => false
                           end), tick_gcs w)).
  { unfold bucket_exists, bind, api_request, get_buckets, ret. rewrite E0. reflexivity. }
  unfold create_bucket, try_except. unfold bind at 1. rewrite Hexists.
  destruct (buckets w !! BUCKET_NAME) as [objs |] eqn:Eb; cbn [negb].
  { eexists. split; [reflexivity |]. cbn [buckets with_stdout tick_gcs].
    split; [reflexivity |]. split; [reflexivity |]. intros Habs. discriminate Habs. }
  unfold bind at 1, client_create_bucket, bind at 1, api_request.
  cbn [gcs_tick tick_gcs].
  destruct (gcs_fault env (S (gcs_tick w))) as [e1 |] eqn:E1.
  { eexists. split; [reflexivity |]. cbn [buckets with_stdout tick_gcs].
    split; [intros objs Habs; discriminate Habs |]. split; [reflexivity |].
    intros _ _ Habs. discriminate Habs. }
  unfold bind at 1, get_buckets. cbn [buckets tick_gcs]. rewrite Eb.
  eexists. split; [reflexivity |].
  cbn [buckets gcs_tick stdout with_stdout with_buckets tick_gcs].
  split; [intros objs Habs; discriminate Habs |].
  split; [intros name Hne; apply lookup_insert_ne; congruence |].
  intros _ _ _. repeat split.
Qed.

Lemma create_bucket_effect_witness :
  exists w',
    create_bucket sample_env fresh_world = (Ok tt, w')
    /\ buckets w' = <[BUCKET_NAME := ∅]> (buckets fresh_world)
    /\ gcs_tick w' = 2%nat.
Proof.
  destruct (create_bucket_effect sample_env fresh_world) as (w' & Hrun & _ & _ & Hnew).
  exists w'. split; [exact Hrun |].
  destruct Hnew as (Hb & Ht & _); [apply lookup_empty | reflexivity | reflexivity |].
  split; [exact Hb | exact Ht].
Defined.

(** ** What an upload can change *)

(** [only_object blob_name w w']: between [w] and [w'] nothing of the storage
    has changed but, at most, the object [blob_name] of the bucket; no bucket
    has appeared *)
Definition only_object (blob_name : string) : relation World :=
  fun w w' =>
    (forall name, name <> BUCKET_NAME -> buckets w' !! name = buckets w !! name)
    /\ (buckets w !! BUCKET_NAME = None -> buckets w' !! BUCKET_NAME = None)
    /\ (forall objs, buckets w !! BUCKET_NAME = Some objs ->
          exists objs', buckets w' !! BUCKET_NAME = Some objs'
                        /\ forall name, name <> blob_name -> objs' !! name = objs !! name).

#[export] Instance only_object_preorder blob_name : PreOrder (only_object blob_name).
Proof.
  split.
  - intros w. split; [reflexivity |]. split; [intros H; exact H |].
    intros objs Hb. exists objs. split; [exact Hb | reflexivity].
  - intros w1 w2 w3 (Ha1 & Hb1 & Hc1) (Ha2 & Hb2 & Hc2). split; [| split].
    + intros name Hne. rewrite (Ha2 name Hne). apply Ha1, Hne.
    + intros Hnone. apply Hb2, Hb1, Hnone.
    + intros objs Hobjs. destruct (Hc1 objs Hobjs) as (objs2 & Hobjs2 & Hl2).
      destruct (Hc2 objs2 Hobjs2) as (objs3 & Hobjs3 & Hl3).
      exists objs3. split; [exact Hobjs3 |]. intros name Hne.
      rewrite (Hl3 name Hne). apply Hl2, Hne.
Qed.

Lemma only_object_same_buckets blob_name w w' :
  buckets w' = buckets w -> only_object blob_name w w'.
Proof. intros H. unfold only_object. rewrite H. apply only_object_preorder. Qed.

Lemma only_object_print blob_name s : frame (only_object blob_name) (print s).
Proof.
  intros w r w' H. injection H as <- <-. apply only_object_same_buckets. reflexivity.
Qed.

Lemma only_object_blob_upload env blob_name content content_type :
  frame (only_object blob_name)
    (blob_upload env BUCKET_NAME blob_name content content_type).
Proof.
  intros w r w' H.
  unfold blob_upload, bind, api_request, get_buckets, put_buckets, raise in H.
  destruct (gcs_fault env (gcs_tick w));
    [injection H as <- <-; apply only_object_same_buckets; reflexivity |].
  cbn [buckets tick_gcs] in H.
  destruct (buckets w !! BUCKET_NAME) as [objs |] eqn:Eb;
    [| injection H as <- <-; apply only_object_same_buckets; reflexivity].
  injection H as <- <-. cbn [buckets with_buckets tick_gcs]. split; [| split].
  - intros name Hne. apply lookup_insert_ne. congruence.
  - intros Habs. rewrite Eb in Habs. discriminate Habs.
  - intros objs0 Hobjs0. rewrite Eb in Hobjs0. injection Hobjs0 as <-.
    eexists. split; [apply lookup_insert_eq |].
    intros name Hne. apply lookup_insert_ne. congruence.
Qed.

(** X7: whatever the data, the format tag and the outcome, [upload_to_gcs]
    changes nothing of the storage but, at most, the one object named
    path + filename: every other object of the bucket, and every other bucket,
    is as it was, and a missing bucket is not created. *)
Theorem upload_touches_one_object (env : Env) (data : pydata)
    (path filename file_format : string) :
  frame (only_object (path +:+ filename))
    (upload_to_gcs env data path filename file_format).
Proof.
  unfold upload_to_gcs.
  apply frame_bind; [typeclasses eauto | apply only_object_print | intros _].
  apply frame_bind; [typeclasses eauto | | intros _; apply only_object_print].
  repeat (destruct (String.eqb file_format _)); try destruct data;
    first [apply only_object_blob_upload | frames].
Qed.

Example upload_overwrites_only_its_object :
  let w' := snd (upload_to_gcs sample_env (ListData ["{}"]) "dev/" "patient_data.csv"
                   "json" stocked_world) in
  match buckets w' !! BUCKET_NAME with
  | Some objs =>
      objs !! "prod/patient_data.csv" = Some old_blob
      /\ objs !! "dev/patient_data.csv"
         = Some {| blob_content := Text "{}"; blob_content_type := "application/json" |}
  | None => False
  end.
Proof. vm_compute. split; reflexivity. Qed.

Lemma upload_touches_one_object_witness :
  only_object ("dev/" +:+ "patient_data.csv") stocked_world
    (snd (upload_to_gcs sample_env (ListData ["{}"]) "dev/" "patient_data.csv" "json"
            stocked_world)).
Proof.
  apply (upload_touches_one_object sample_env (ListData ["{}"]) "dev/" "patient_data.csv"
           "json" stocked_world
           (fst (upload_to_gcs sample_env (ListData ["{}"]) "dev/" "patient_data.csv" "json"
                   stocked_world))).
  destruct (upload_to_gcs sample_env (ListData ["{}"]) "dev/" "patient_data.csv" "json"
              stocked_world).
  reflexivity.
Defined.

(** ** The folder a pass leaves *)

Definition csv_blob (df : DataFrame) : blob :=
  {| blob_content := Text (to_csv df); blob_content_type := "text/csv" |}.

Definition json_blob (units : list string) : blob :=
  {| blob_content := Text (str_join (String LF "") units);
     blob_content_type := "application/json" |}.

Definition parquet_blob (t : arrow_table) : blob :=
  {| blob_content := ParquetFile t; blob_content_type := "application/octet-stream" |}.

Ltac upload_ok H :=
  unfold upload_to_gcs in H; cbn [String.eqb Ascii.eqb Bool.eqb] in H;
  let w1 := fresh "w" in let w2 := fresh "w" in
  let Hp := fresh "Hp" in let Hu := fresh "Hu" in
  let objs := fresh "objs" in let Hb := fresh "Hb" in let Hb' := fresh "Hb'" in
  apply bind_ok_inv in H as ([] & w1 & Hp & H);
  apply bind_ok_inv in H as ([] & w2 & Hu & H);
  injection Hp as <-; injection H as <-;
  apply blob_upload_ok_inv in Hu as (objs & Hb & Hb');
  exists objs; cbn [buckets with_stdout] in *; split; assumption.

Lemma upload_csv_ok env df path filename w w' :
  upload_to_gcs env (DataFrameData df) path filename "csv" w = (Ok tt, w') ->
  exists objs,
    buckets w !! BUCKET_NAME = Some objs
    /\ buckets w' = <[BUCKET_NAME := <[path +:+ filename := csv_blob df]> objs]> (buckets w).
Proof. intros H. upload_ok H. Qed.

Lemma upload_json_ok env units path filename w w' :
  upload_to_gcs env (ListData units) path filename "json" w = (Ok tt, w') ->
  exists objs,
    buckets w !! BUCKET_NAME = Some objs
    /\ buckets w' = <[BUCKET_NAME := <[path +:+ filename := json_blob units]> objs]> (buckets w).
Proof. intros H. upload_ok H. Qed.

Lemma upload_parquet_ok env t path filename w w' :
  upload_to_gcs env (TableData t) path filename "parquet" w = (Ok tt, w') ->
  exists objs,
    buckets w !! BUCKET_NAME = Some objs
    /\ buckets w' = <[BUCKET_NAME := <[path +:+ filename := parquet_blob t]> objs]> (buckets w).
Proof. intros H. upload_ok H. Qed.

(** the objects of a folder after a pass: the three files, and nothing else *)
Definition pass_folder (path : string) (data : DataFrame * list string * arrow_table)
    (before : gmap string blob) (name : string) : option blob :=
  let '(patients, ehr, claims) := data in
  if decide (name = path +:+ "claims_data.parquet") then Some (parquet_blob claims)
  else if decide (name = path +:+ "ehr_data.json") then Some (json_blob ehr)
  else if decide (name = path +:+ "patient_data.csv") then Some (csv_blob patients)
  else if String.prefix path name then None
  else before !! name.

(** the bucket after a pass, step by step: the folder is cleared, the
    generators leave the storage alone, and each upload adds its object *)
Lemma run_pass_ok_inv env path records w data w' :
  run_pass env path records w = (Ok data, w') ->
  exists objs objs',
    buckets w !! BUCKET_NAME = Some objs
    /\ buckets w' = <[BUCKET_NAME := objs']> (buckets w)
    /\ forall name, objs' !! name = pass_folder path data objs name.
Proof.
  unfold run_pass. intros H.
  apply bind_ok_inv in H as ([] & w1 & Hclear & H).
  apply bind_ok_inv in H as (patients & w2 & Hpat & H).
  apply bind_ok_inv in H as (ids & w3 & Hids & H).
  apply bind_ok_inv in H as (ehr & w4 & Hehr & H).
  apply bind_ok_inv in H as (ids' & w5 & Hids' & H).
  apply bind_ok_inv in H as (claims & w6 & Hclaims & H).
  apply bind_ok_inv in H as ([] & w7 & Hup1 & H).
  apply bind_ok_inv in H as ([] & w8 & Hup2 & H).
  apply bind_ok_inv in H as ([] & w9 & Hup3 & H).
  injection H as <- <-.
  apply empty_gcs_folder_ok_inv in Hclear as (objs & objs1 & Hb & Hb1 & Hlook & _).
  apply storage_generate_patients in Hpat as [_ Hb2].
  apply storage_patient_id_list in Hids as [_ Hb3], Hids' as [_ Hb5].
  apply storage_generate_ehr in Hehr as [_ Hb4].
  apply storage_generate_claims in Hclaims as [_ Hb6].
  assert (Hw6 : buckets w6 = <[BUCKET_NAME := objs1]> (buckets w)) by congruence.
  apply upload_csv_ok in Hup1 as (o1 & Ho1 & Hb7).
  rewrite Hw6, lookup_insert_eq in Ho1. injection Ho1 as <-.
  rewrite Hw6, insert_insert_eq in Hb7.
  apply upload_json_ok in Hup2 as (o2 & Ho2 & Hb8).
  rewrite Hb7, lookup_insert_eq in Ho2. injection Ho2 as <-.
  rewrite Hb7, insert_insert_eq in Hb8.
  apply upload_parquet_ok in Hup3 as (o3 & Ho3 & Hb9).
  rewrite Hb8, lookup_insert_eq in Ho3. injection Ho3 as <-.
  rewrite Hb8, insert_insert_eq in Hb9.
  exists objs. eexists. split; [exact Hb |]. split; [exact Hb9 |].
  intros name. unfold pass_folder.
  destruct (decide (name = path +:+ "claims_data.parquet")) as [-> | Hn3];
    [apply lookup_insert_eq |].
  rewrite lookup_insert_ne by congruence.
  destruct (decide (name = path +:+ "ehr_data.json")) as [-> | Hn2];
    [apply lookup_insert_eq |].
  rewrite lookup_insert_ne by congruence.
  destruct (decide (name = path +:+ "patient_data.csv")) as [-> | Hn1];
    [apply lookup_insert_eq |].
  rewrite lookup_insert_ne by congruence.
  apply Hlook.
Qed.

(** X8: when a pass returns, the bucket holds under the path exactly three
    objects, patient_data.csv with the CSV text of the patients as text/csv,
    ehr_data.json with the line-delimited units as application/json and
    claims_data.parquet with the file of the table as
    application/octet-stream; whatever was under the path before is gone, and
    every object outside the path, like every other bucket, is as it was. *)
Theorem pass_leaves_three_artifacts (env : Env) (path : string) (records : Z)
    (w : World) (data : DataFrame * list string * arrow_table) (w' : World) :
  run_pass env path records w = (Ok data, w') ->
  exists objs objs',
    buckets w !! BUCKET_NAME = Some objs
    /\ buckets w' = <[BUCKET_NAME := objs']> (buckets w)
    /\ forall name, objs' !! name = pass_folder path data objs name.
Proof. exact (run_pass_ok_inv env path records w data w'). Qed.

Lemma pass_leaves_three_artifacts_witness :
  exists data w' objs objs',
    run_pass sample_env "dev/" 2 stocked_world = (Ok data, w')
    /\ buckets stocked_world !! BUCKET_NAME = Some objs
    /\ buckets w' = <[BUCKET_NAME := objs']> (buckets stocked_world)
    /\ forall name, objs' !! name = pass_folder "dev/" data objs name.
Proof.
  destruct (run_pass sample_env "dev/" 2 stocked_world) as [[data | e] w'] eqn:Hrun.
  - destruct (pass_leaves_three_artifacts sample_env "dev/" 2 stocked_world data w' Hrun)
      as (objs & objs' & H).
    exists data, w', objs, objs'. split; [reflexivity | exact H].
  - exfalso. vm_compute in Hrun. discriminate Hrun.
Defined.

(** ** Records of a pass reference the patients of that pass *)

Lemma patient_id_list_ok_inv df w ids w' :
  patient_id_list df w = (Ok ids, w') -> ids = patient_ids_of df.
Proof.
  unfold patient_id_list, patient_ids_of, bind, lift, ret.
  destruct (df_getitem df "patient_id") as [vs |]; [| discriminate].
  intros H. injection H as <- _. reflexivity.
Qed.

Lemma generate_ehr_ok_inv env N ids w units w' :
  generate_ehr env N ids w = (Ok units, w') ->
  length units = Z.to_nat N /\ Forall (ehr_unit ids) units.
Proof.
  intros Hrun.
  apply (post_ok_inv _ _ _ anything _ _
           (post_generate_ehr env N ids w anything
              ltac:(intros; exact Logic.I) ltac:(intros; exact Logic.I)) Hrun).
Qed.

(** X9: the data of a pass that returns are consistent: there are as many
    patients, EHR units and claims as records were asked for, every EHR unit
    is the dump of a record whose patient_id is the patient_id of one of the
    patients of this pass, and so is every entry of the patient_id column of
    the claims. *)
Theorem pass_data_consistent (env : Env) (path : string) (records : Z) (w : World)
    (patients : DataFrame) (ehr : list string) (claims : arrow_table) (w' : World) :
  run_pass env path records w = (Ok (patients, ehr, claims), w') ->
  length (df_rows patients) = Z.to_nat records
  /\ length ehr = Z.to_nat records
  /\ num_rows claims = Z.to_nat records
  /\ Forall (fun u => exists d pid,
                json_dumps d = Ok u
                /\ dict_get "patient_id" d = Some (PStr pid)
                /\ In pid (patient_ids_of patients)) ehr
  /\ exists col,
       tbl_getitem claims "patient_id" = Some (map AString col)
       /\ Forall (fun pid => In pid (patient_ids_of patients)) col.
Proof.
  unfold run_pass. intros H.
  apply bind_ok_inv in H as ([] & w1 & Hclear & H).
  apply bind_ok_inv in H as (patients0 & w2 & Hpat & H).
  apply bind_ok_inv in H as (ids & w3 & Hids & H).
  apply bind_ok_inv in H as (ehr0 & w4 & Hehr & H).
  apply bind_ok_inv in H as (ids' & w5 & Hids' & H).
  apply bind_ok_inv in H as (claims0 & w6 & Hclaims & H).
  apply bind_ok_inv in H as ([] & w7 & Hup1 & H).
  apply bind_ok_inv in H as ([] & w8 & Hup2 & H).
  apply bind_ok_inv in H as ([] & w9 & Hup3 & H).
  injection H as <- <- <- <-.
  apply patient_id_list_ok_inv in Hids, Hids'. subst ids ids'.
  destruct (post_ok_inv _ _ _ anything _ _
              (post_generate_patients env records w1 anything
                 ltac:(intros; exact Logic.I) ltac:(intros; exact Logic.I)) Hpat)
    as (Hrows & _).
  apply generate_ehr_ok_inv in Hehr as [Hlen Hunits].
  apply generate_claims_ok_inv in Hclaims as (cs & -> & Hcs & Hok & _).
  split; [exact Hrows |]. split; [exact Hlen |]. split.
  { unfold num_rows. cbn [tbl_columns claims_table]. rewrite length_map. exact Hcs. }
  split.
  - eapply Forall_impl; [exact Hunits |].
    intros u (d & (pid & visit & code & desc & hr & bp & temp & -> & Hpid & _) & Hu).
    eexists _, pid. split; [exact Hu |]. split; [reflexivity | exact Hpid].
  - exists (map cf_patient_id cs). rewrite map_map. split; [reflexivity |].
    apply Forall_map. eapply Forall_impl; [exact Hok |]. intros c (Hpid & _). exact Hpid.
Qed.

Lemma pass_data_consistent_witness :
  exists patients ehr claims w',
    run_pass sample_env "dev/" 2 stocked_world = (Ok (patients, ehr, claims), w')
    /\ length (df_rows patients) = Z.to_nat 2
    /\ length ehr = Z.to_nat 2
    /\ num_rows claims = Z.to_nat 2
    /\ Forall (fun u => exists d pid,
                  json_dumps d = Ok u
                  /\ dict_get "patient_id" d = Some (PStr pid)
                  /\ In pid (patient_ids_of patients)) ehr
    /\ exists col,
         tbl_getitem claims "patient_id" = Some (map AString col)
         /\ Forall (fun pid => In pid (patient_ids_of patients)) col.
Proof.
  destruct (run_pass sample_env "dev/" 2 stocked_world)
    as [[[[patients ehr] claims] | e] w'] eqn:Hrun.
  - exists patients, ehr, claims, w'. split; [reflexivity |].
    exact (pass_data_consistent sample_env "dev/" 2 stocked_world patients ehr claims w' Hrun).
  - exfalso. vm_compute in Hrun. discriminate Hrun.
Defined.

(** ** The bucket after the whole run *)

(** [create_bucket] leaves the buckets as they were, or adds the missing
    bucket, empty *)
Lemma create_bucket_buckets env w w' :
  create_bucket env w = (Ok tt, w') ->
  buckets w' = buckets w
  \/ (buckets w !! BUCKET_NAME = None /\ buckets w' = <[BUCKET_NAME := ∅]> (buckets w)).
Proof.
  destruct (gcs_fault env (gcs_tick w)) as [e0 |] eqn:E0.
  { rewrite (create_bucket_fault env w e0 E0). intros H. injection H as <-.
    left. reflexivity. }
  assert (Hexists : bucket_exists env BUCKET_NAME w
                    = (Ok (match buckets w !! BUCKET_NAME with
                           | Some _ => true
                           | None => false
                           end), tick_gcs w)).
  { unfold bucket_exists, bind, api_request, get_buckets, ret. rewrite E0. reflexivity. }
  unfold create_bucket, try_except. unfold bind at 1. rewrite Hexists.
  destruct (buckets w !! BUCKET_NAME) as [objs |] eqn:Eb; cbn [negb].
  { intros H. injection H as <-. left. reflexivity. }
  unfold bind at 1, client_create_bucket, bind at 1, api_request.
  cbn [gcs_tick tick_gcs].
  destruct (gcs_fault env (S (gcs_tick w))) as [e1 |] eqn:E1.
  { intros H. injection H as <-. left. reflexivity. }
  unfold bind at 1, get_buckets. cbn [buckets tick_gcs]. rewrite Eb.
  intros H. injection H as <-. right. split; reflexivity.
Qed.

Ltac named_object :=
  unfold pass_folder, DEV_PATH, PROD_PATH;
  repeat match goal with
         | |- context [decide (?a = ?b)] =>
             let E := fresh "E" in
             destruct (decide (a = b)) as [E | E];
             [try (vm_compute in E; discriminate E) | try (exfalso; apply E; reflexivity)]
         end;
  try match goal with
      | |- context [String.prefix ?p ?s] =>
          let b := eval vm_compute in (String.prefix p s) in
          change (String.prefix p s) with b; cbv iota
      end;
  try reflexivity.

(** X10: when the script returns, the bucket holds exactly six objects under
    dev/ and prod/: the three files of the dev data under dev/ and the three
    files of the prod data under prod/. Whatever else was under dev/ or prod/
    is gone, every other object of the bucket is as it was before the run (a
    bucket the run had to create holds nothing else), no other bucket has
    changed, and the last line printed is the completion message. *)
Theorem run_leaves_two_folders (env : Env) (dev_records prod_records : Z) (w : World)
    (dev_patients : DataFrame) (dev_ehr : list string) (dev_claims : arrow_table)
    (prod_patients : DataFrame) (prod_ehr : list string) (prod_claims : arrow_table)
    (w' : World) :
  run_script env dev_records prod_records w
  = (Ok ((dev_patients, dev_ehr, dev_claims), (prod_patients, prod_ehr, prod_claims)), w') ->
  exists before after,
    before = default ∅ (buckets w !! BUCKET_NAME)
    /\ buckets w' = <[BUCKET_NAME := after]> (buckets w)
    /\ after !! "dev/patient_data.csv" = Some (csv_blob dev_patients)
    /\ after !! "dev/ehr_data.json" = Some (json_blob dev_ehr)
    /\ after !! "dev/claims_data.parquet" = Some (parquet_blob dev_claims)
    /\ after !! "prod/patient_data.csv" = Some (csv_blob prod_patients)
    /\ after !! "prod/ehr_data.json" = Some (json_blob prod_ehr)
    /\ after !! "prod/claims_data.parquet" = Some (parquet_blob prod_claims)
    /\ (forall name,
          name ∉ ["dev/patient_data.csv"; "dev/ehr_data.json"; "dev/claims_data.parquet";
                  "prod/patient_data.csv"; "prod/ehr_data.json"; "prod/claims_data.parquet"] ->
          after !! name
          = if String.prefix "dev/" name || String.prefix "prod/" name then None
            else before !! name)
    /\ last (stdout w') = Some "Data generation and upload to GCS completed successfully.".
Proof.
  unfold run_script. intros H.
  apply bind_ok_inv in H as ([] & w1 & Hcreate & H).
  apply bind_ok_inv in H as (dev & w2 & Hdev & H).
  apply bind_ok_inv in H as (prod & w3 & Hprod & H).
  apply bind_ok_inv in H as ([] & w4 & Hprint & H).
  injection H as -> -> <-. injection Hprint as <-.
  apply create_bucket_buckets in Hcreate.
  apply run_pass_ok_inv in Hdev as (objs0 & objs1 & Hb1 & Hb2 & Hdev).
  apply run_pass_ok_inv in Hprod as (objs1' & objs2 & Hb2' & Hb3 & Hprod).
  rewrite Hb2, lookup_insert_eq in Hb2'. injection Hb2' as <-.
  rewrite Hb2, insert_insert_eq in Hb3.
  exists objs0, objs2. cbn [buckets stdout with_stdout].
  split.
  { destruct Hcreate as [Hsame | [Hnone Hnew]].
    - rewrite <- Hsame, Hb1. reflexivity.
    - rewrite Hnew, lookup_insert_eq in Hb1. injection Hb1 as <-.
      rewrite Hnone. reflexivity. }
  split.
  { destruct Hcreate as [Hsame | [Hnone Hnew]].
    - rewrite Hb3, Hsame. reflexivity.
    - rewrite Hb3, Hnew, insert_insert_eq. reflexivity. }
  split; [rewrite Hprod; named_object; rewrite Hdev; named_object |].
  split; [rewrite Hprod; named_object; rewrite Hdev; named_object |].
  split; [rewrite Hprod; named_object; rewrite Hdev; named_object |].
  split; [rewrite Hprod; named_object |].
  split; [rewrite Hprod; named_object |].
  split; [rewrite Hprod; named_object |].
  split; [| apply last_snoc].
  intros name Hout. rewrite Hprod. unfold pass_folder, PROD_PATH.
  repeat (destruct (decide _) as [-> | _]; [exfalso; apply Hout; set_solver |]).
  destruct (String.prefix "prod/" name) eqn:Hp; [rewrite orb_true_r; reflexivity |].
  rewrite orb_false_r, Hdev. unfold pass_folder, DEV_PATH.
  repeat (destruct (decide _) as [-> | _]; [exfalso; apply Hout; set_solver |]).
  reflexivity.
Qed.

Lemma run_leaves_two_folders_witness :
  exists dp de dc pp pe pc w' before after,
    run_script sample_env 2 1 stocked_world = (Ok ((dp, de, dc), (pp, pe, pc)), w')
    /\ before = default ∅ (buckets stocked_world !! BUCKET_NAME)
    /\ buckets w' = <[BUCKET_NAME := after]> (buckets stocked_world)
    /\ after !! "dev/patient_data.csv" = Some (csv_blob dp)
    /\ after !! "dev/ehr_data.json" = Some (json_blob de)
    /\ after !! "dev/claims_data.parquet" = Some (parquet_blob dc)
    /\ after !! "prod/patient_data.csv" = Some (csv_blob pp)
    /\ after !! "prod/ehr_data.json" = Some (json_blob pe)
    /\ after !! "prod/claims_data.parquet" = Some (parquet_blob pc)
    /\ (forall name,
          name ∉ ["dev/patient_data.csv"; "dev/ehr_data.json"; "dev/claims_data.parquet";
                  "prod/patient_data.csv"; "prod/ehr_data.json"; "prod/claims_data.parquet"] ->
          after !! name
          = if String.prefix "dev/" name || String.prefix "prod/" name then None
            else before !! name)
    /\ last (stdout w') = Some "Data generation and upload to GCS completed successfully.".
Proof.
  destruct (run_script sample_env 2 1 stocked_world)
    as [[[[[dp de] dc] [[pp pe] pc]] | e] w'] eqn:Hrun.
  - destruct (run_leaves_two_folders sample_env 2 1 stocked_world dp de dc pp pe pc w' Hrun)
      as (before & after & H).
    exists dp, de, dc, pp, pe, pc, w', before, after. split; [reflexivity | exact H].
  - exfalso. vm_compute in Hrun. discriminate Hrun.
Defined.

(** ** A run the service does not fail *)

(** the service answers every request *)
Definition no_fault (env : Env) : Prop := forall i, gcs_fault env i = None.

(** no draw is made from the generator of identifiers and the proxy records
    nothing *)
Definition same_source : relation World :=
  fun w w' => fk_tick w' = fk_tick w /\ seen_uuid4 w' = seen_uuid4 w.

#[export] Instance same_source_preorder : PreOrder same_source.
Proof.
  split; [intros w; split; reflexivity |].
  intros a b c [H1 H2] [H3 H4]. split; congruence.
Qed.

Lemma source_blob_delete env name blob_name :
  frame same_source (blob_delete env name blob_name).
Proof.
  unfold blob_delete. frames. destruct (_ !! _) as [objs |]; frames.
  destruct (objs !! _); frames.
Qed.

Lemma source_blob_upload env name blob_name content content_type :
  frame same_source (blob_upload env name blob_name content content_type).
Proof. unfold blob_upload. frames. destruct (_ !! _); frames. Qed.

Lemma source_create_bucket env : frame same_source (create_bucket env).
Proof.
  unfold create_bucket, bucket_exists, client_create_bucket. frames.
  destruct (negb _); frames. destruct (_ !! _); frames.
Qed.

Lemma source_empty_gcs_folder env path : frame same_source (empty_gcs_folder env path).
Proof.
  unfold empty_gcs_folder, list_blobs. frames.
  - destruct (_ !! _); frames.
  - apply source_blob_delete.
Qed.

Lemma source_upload_to_gcs env data path filename file_format :
  frame same_source (upload_to_gcs env data path filename file_format).
Proof.
  unfold upload_to_gcs. frames.
  repeat (destruct (String.eqb file_format _)); try destruct data; frames;
    apply source_blob_upload.
Qed.

Section Answered.
Variable env : Env.
Hypothesis Hanswer : no_fault env.

Lemma blob_delete_answered name blob_name w objs :
  buckets w !! name = Some objs -> is_Some (objs !! blob_name) ->
  blob_delete env name blob_name w
  = (Ok tt, with_buckets (<[name := delete blob_name objs]> (buckets w)) (tick_gcs w)).
Proof.
  intros Hb [b Hobj]. unfold blob_delete, bind, api_request, get_buckets, put_buckets.
  rewrite Hanswer. cbn [buckets tick_gcs]. rewrite Hb, Hobj. reflexivity.
Qed.

Lemma blob_upload_answered name blob_name content content_type w objs :
  buckets w !! name = Some objs ->
  blob_upload env name blob_name content content_type w
  = (Ok tt, with_buckets
              (<[name := <[blob_name := {| blob_content := content;
                                           blob_content_type := content_type |}]> objs]>
                 (buckets w)) (tick_gcs w)).
Proof.
  intros Hb. unfold blob_upload, bind, api_request, get_buckets, put_buckets.
  rewrite Hanswer. cbn [buckets tick_gcs]. rewrite Hb. reflexivity.
Qed.

(** the loop of [empty_gcs_folder] goes through: each name is deleted once,
    so each object is still there when its turn comes *)
Lemma delete_loop_answered names :
  forall w objs,
    buckets w !! BUCKET_NAME = Some objs ->
    NoDup names -> (forall x, x ∈ names -> is_Some (objs !! x)) ->
    exists w',
      for_each names
        (fun blob_name =>
           blob_delete env BUCKET_NAME blob_name ;;;
           print ("Deleted '" +:+ blob_name +:+ "'")) w = (Ok tt, w').
Proof.
  induction names as [| x names IH]; intros w objs Hb Hnd Hall.
  - eexists. reflexivity.
  - apply NoDup_cons in Hnd as [Hx Hnd]. cbn [for_each].
    assert (Hobj : is_Some (objs !! x)) by (apply Hall; left).
    rewrite (bind_ok_intro _ _ w tt
               (with_stdout (stdout w ++ ["Deleted '" +:+ x +:+ "'"])
                  (with_buckets (<[BUCKET_NAME := delete x objs]> (buckets w)) (tick_gcs w)))).
    + apply (IH _ (delete x objs)).
      * cbn [buckets with_stdout with_buckets]. apply lookup_insert_eq.
      * exact Hnd.
      * intros y Hy. rewrite lookup_delete_ne; [apply Hall; right; exact Hy |].
        intros ->. contradiction.
    + rewrite (bind_ok_intro _ _ w tt _ (blob_delete_answered _ _ w objs Hb Hobj)).
      reflexivity.
Qed.

Lemma empty_gcs_folder_answered path w :
  is_Some (buckets w !! BUCKET_NAME) ->
  exists w', empty_gcs_folder env path w = (Ok tt, w').
Proof.
  intros [objs Hb]. unfold empty_gcs_folder.
  unfold bind at 1, print at 1.
  unfold bind at 1, list_blobs at 1, bind at 1, api_request.
  cbn [gcs_tick with_stdout]. rewrite Hanswer.
  unfold bind at 1, get_buckets. cbn [buckets with_stdout tick_gcs]. rewrite Hb.
  unfold ret at 1.
  match goal with
  | |- context [bind (for_each ?ns ?body) ?k ?w1] =>
      destruct (delete_loop_answered ns w1 objs) as [w2 Hloop];
      [ exact Hb
      | apply NoDup_filter, NoDup_fst_map_to_list
      | intros x Hx; apply list_elem_of_In, (in_names_under path objs x) in Hx as [_ Hx];
        exact Hx
      | rewrite (bind_ok_intro _ _ w1 tt w2 Hloop) ]
  end.
  eexists. reflexivity.
Qed.

Lemma upload_answered data path filename file_format w :
  is_Some (buckets w !! BUCKET_NAME) ->
  match data, file_format with
  | DataFrameData _, "csv" | ListData _, "json" | TableData _, "parquet" => True
  | _, _ => False
  end ->
  exists w', upload_to_gcs env data path filename file_format w = (Ok tt, w').
Proof.
  intros [objs Hb] Hfmt. unfold upload_to_gcs. unfold bind at 1, print at 1.
  set (w1 := with_stdout _ w).
  assert (Hb1 : buckets w1 !! BUCKET_NAME = Some objs) by exact Hb.
  destruct data as [df | l | t].
  - destruct (String.eqb_spec file_format "csv") as [-> | Hne]; [| exfalso].
    + cbn [String.eqb Ascii.eqb Bool.eqb].
      rewrite (bind_ok_intro _ _ w1 tt _ (blob_upload_answered _ _ _ _ w1 objs Hb1)).
      eexists. reflexivity.
    + repeat (destruct file_format as [| [[] [] [] [] [] [] [] []] file_format];
              try exact Hfmt; try congruence).
  - destruct (String.eqb_spec file_format "json") as [-> | Hne]; [| exfalso].
    + cbn [String.eqb Ascii.eqb Bool.eqb].
      rewrite (bind_ok_intro _ _ w1 tt _ (blob_upload_answered _ _ _ _ w1 objs Hb1)).
      eexists. reflexivity.
    + repeat (destruct file_format as [| [[] [] [] [] [] [] [] []] file_format];
              try exact Hfmt; try congruence).
  - destruct (String.eqb_spec file_format "parquet") as [-> | Hne]; [| exfalso].
    + cbn [String.eqb Ascii.eqb Bool.eqb].
      rewrite (bind_ok_intro _ _ w1 tt _ (blob_upload_answered _ _ _ _ w1 objs Hb1)).
      eexists. reflexivity.
    + repeat (destruct file_format as [| [[] [] [] [] [] [] [] []] file_format];
              try exact Hfmt; try congruence).
Qed.

End Answered.

(** what a frame says of the outcome of one run *)
Lemma post_frame (R : relation World) {A} (c : M A) w :
  frame R c -> post c w (fun _ w' => R w w') (fun _ w' => R w w').
Proof.
  intros Hc. unfold post. destruct (c w) as [[a | e] w'] eqn:Hrun; exact (Hc w _ w' Hrun).
Qed.

Section Budget.
Variables (env : Env) (w0 : World) (n : nat).
Hypothesis Hanswer : no_fault env.
Hypothesis Hwindow : window_ok env.
Hypothesis Hfresh : fresh_source env w0 n.

(** [k] draws have been made from the generator of identifiers since [w0],
    and the proxy has recorded nothing but values drawn since [w0] *)
Definition drawn (k : nat) (w : World) : Prop :=
  fk_tick w = (fk_tick w0 + k)%nat /\ covered env w0 w.

(** ... and the bucket is there *)
Definition on_track (k : nat) (w : World) : Prop :=
  drawn k w /\ is_Some (buckets w !! BUCKET_NAME).

Lemma drawn_same_source k w w' : drawn k w -> same_source w w' -> drawn k w'.
Proof.
  intros [Ht Hc] [Hf Hs]. split; [congruence |].
  apply (covered_step env w0 w); [exact Hc | lia | exact Hs].
Qed.

(** a storage step that goes through and keeps the bucket *)
Lemma storage_on_track {A} (c : M A) k w :
  frame same_source c ->
  (exists a w', c w = (Ok a, w') /\ is_Some (buckets w' !! BUCKET_NAME)) ->
  on_track k w -> post c w (fun _ w' => on_track k w') never.
Proof.
  intros Hframe (a & w' & Hrun & Hb') [Hd _]. unfold post. rewrite Hrun.
  split; [| exact Hb']. apply (drawn_same_source k w); [exact Hd |].
  exact (Hframe w _ w' Hrun).
Qed.

Lemma empty_on_track path k w :
  on_track k w -> post (empty_gcs_folder env path) w (fun _ w' => on_track k w') never.
Proof.
  intros Ht. apply storage_on_track; [apply source_empty_gcs_folder | | exact Ht].
  destruct (empty_gcs_folder_answered env Hanswer path w (proj2 Ht)) as [w' Hrun].
  exists tt, w'. split; [exact Hrun |].
  apply empty_gcs_folder_ok_inv in Hrun as (objs & objs' & _ & -> & _).
  rewrite lookup_insert_eq. eexists. reflexivity.
Qed.

Lemma upload_on_track data path filename file_format k w :
  match data, file_format with
  | DataFrameData _, "csv" | ListData _, "json" | TableData _, "parquet" => True
  | _, _ => False
  end ->
  on_track k w ->
  post (upload_to_gcs env data path filename file_format) w
    (fun _ w' => on_track k w') never.
Proof.
  intros Hfmt Ht. apply storage_on_track; [apply source_upload_to_gcs | | exact Ht].
  destruct (upload_answered env Hanswer data path filename file_format w (proj2 Ht) Hfmt)
    as [w' Hrun].
  exists tt, w'. split; [exact Hrun |].
  destruct Ht as [_ [objs Hb]].
  unfold upload_to_gcs in Hrun.
  apply bind_ok_inv in Hrun as ([] & w1 & Hp & Hrun). injection Hp as <-.
  apply bind_ok_inv in Hrun as ([] & w2 & Hup & Hrun). injection Hrun as <-.
  cbn [buckets with_stdout].
  repeat (destruct (String.eqb file_format _)); destruct data; try discriminate Hup;
    try (apply blob_upload_ok_inv in Hup as (o & _ & ->);
         rewrite lookup_insert_eq; eexists; reflexivity).
  all: injection Hup as <-; exists objs; exact Hb.
Qed.

(** [generate_patients] makes 5 draws a record *)
Lemma patients_drawn N k w :
  drawn k w -> (k + 5 * Z.to_nat N <= n)%nat ->
  post (generate_patients env N) w (fun _ w' => drawn (k + 5 * Z.to_nat N) w') never.
Proof.
  intros Hd Hroom. unfold generate_patients. apply post_bind, post_print.
  set (w1 := with_stdout _ w).
  assert (Hd1 : drawn k w1)
    by (apply (drawn_same_source k w); [exact Hd | split; reflexivity]).
  apply post_bind.
  eapply post_conseq;
    [apply (post_for_range (fun j (_ : list pydict) w2 => drawn (k + 5 * j) w2))
       with (k0 := O) | | ].
  - intros j acc w2 Hj [Ht2 Hc2].
    apply post_bind, post_patient_record_fresh;
      [exact Hwindow
      | apply (fresh_source_next env w0 n); [exact Hfresh | exact Hc2 | lia] |].
    intros d w3 _ Ht3 Hs3. apply post_ret. split; [lia |].
    apply (covered_mint env w0 w2 w3 Hc2); [lia | exact Hs3].
  - replace (k + 5 * 0)%nat with k by lia. exact Hd1.
  - intros records w2 H. apply post_ret. exact H.
  - intros e w2 H. exact H.
Qed.

Lemma patients_on_track N k w :
  on_track k w -> (k + 5 * Z.to_nat N <= n)%nat ->
  post (generate_patients env N) w
    (fun df w' => on_track (k + 5 * Z.to_nat N) w'
                  /\ length (patient_ids_of df) = Z.to_nat N) never.
Proof.
  intros [Hd Hb] Hroom.
  pose proof (patients_drawn N k w Hd Hroom) as H1.
  pose proof (post_generate_patients env N w anything
                (fun _ _ => Logic.I) (fun _ _ _ => Logic.I)) as H2.
  unfold post in *. destruct (generate_patients env N w) as [[df | e] w']; [| exact H1].
  destruct H2 as (_ & Hlen & _ & _ & _ & _ & Hbk).
  split; [split; [exact H1 | rewrite Hbk; exact Hb] | exact Hlen].
Qed.

(** [generate_ehr] makes one draw a record, for the date of the visit *)
Lemma ehr_record_drawn ids k w (Q : pydict -> World -> Prop) :
  ids <> [] -> drawn k w ->
  (forall d w', ehr_dict_ok ids d -> drawn (S k) w' -> Q d w') ->
  post (ehr_record_with env ehr_diagnosis_codes diagnosis_table ids) w Q never.
Proof.
  intros Hids [Ht Hc] HQ. unfold ehr_record_with.
  apply post_bind, post_choice; [intros Hi; contradiction |]. intros pid Hpid.
  apply post_bind, post_date_between; [intros Hnw; contradiction |]. intros visit _.
  apply post_bind, post_choice; [discriminate |]. intros code Hcode.
  destruct (diagnosis_table_complete code Hcode) as [desc Hdesc].
  apply post_bind, post_lift. rewrite Hdesc.
  apply post_bind, post_randint; [lia |]. intros hr _.
  apply post_bind, post_randint; [lia |]. intros sys _.
  apply post_bind, post_randint; [lia |]. intros dia _.
  apply post_bind, post_uniform. intros j _.
  apply post_ret, HQ.
  - do 7 eexists. repeat split; [exact Hpid | exact Hcode | exact Hdesc].
  - split; [cbn; lia |].
    apply (covered_step env w0 w); [exact Hc | cbn; lia | reflexivity].
Qed.

Lemma ehr_on_track N ids k w :
  ids <> [] -> on_track k w ->
  post (generate_ehr env N ids) w (fun _ w' => on_track (k + Z.to_nat N) w') never.
Proof.
  intros Hids [Hd Hb].
  assert (H1 : post (generate_ehr env N ids) w
                 (fun _ w' => drawn (k + Z.to_nat N) w') never).
  { unfold generate_ehr, generate_ehr_with. apply post_bind, post_print.
    set (w1 := with_stdout _ w).
    assert (Hd1 : drawn k w1)
      by (apply (drawn_same_source k w); [exact Hd | split; reflexivity]).
    eapply post_conseq;
      [apply (post_for_range (fun j (_ : list string) w2 => drawn (k + j) w2))
         with (k0 := O) | | ].
    - intros j acc w2 _ Hd2.
      apply post_bind, (ehr_record_drawn ids (k + j)); [exact Hids | exact Hd2 |].
      intros d w3 Hdict Hd3. destruct (ehr_dict_dumps ids d Hdict) as [u Hu].
      apply post_bind, post_lift. rewrite Hu. apply post_ret.
      replace (k + S j)%nat with (S (k + j)) by lia. exact Hd3.
    - rewrite Nat.add_0_r. exact Hd1.
    - intros units w2 H. exact H.
    - intros e w2 H. exact H. }
  pose proof (storage_generate_ehr env N ids w) as Hst.
  unfold post in *. destruct (generate_ehr env N ids w) as [[u | e] w'] eqn:Hrun;
    [| exact H1].
  destruct (Hst _ _ eq_refl) as [_ Hbk]. split; [exact H1 | rewrite Hbk; exact Hb].
Qed.

(** [generate_claims] makes 3 draws a record *)
Lemma claims_on_track N ids k w :
  0 < N -> ids <> [] -> on_track k w -> (k + 3 * Z.to_nat N <= n)%nat ->
  post (generate_claims env N ids) w
    (fun _ w' => on_track (k + 3 * Z.to_nat N) w') never.
Proof.
  intros HN Hids [Hd Hb] Hroom.
  assert (H1 : post (generate_claims env N ids) w
                 (fun _ w' => drawn (k + 3 * Z.to_nat N) w') never).
  { unfold generate_claims, claim_records. apply post_bind, post_print.
    set (w1 := with_stdout _ w).
    assert (Hd1 : drawn k w1)
      by (apply (drawn_same_source k w); [exact Hd | split; reflexivity]).
    apply post_bind.
    eapply post_conseq;
      [apply (post_for_range
                (fun j (acc : list pydict) w2 =>
                   drawn (k + 3 * j) w2
                   /\ exists cs, acc = map claim_dict_of cs /\ length cs = j))
         with (k0 := O) | | ].
    - intros j acc w2 Hj ([Ht2 Hc2] & cs & -> & Hlen).
      apply post_bind.
      apply (post_claim_record_fresh env w0 n);
        [exact Hwindow | exact Hids | exact Hfresh | exact Hc2 | lia |].
      intros c w3 _ Ht3 Hc3. apply post_ret. split; [split; [lia | exact Hc3] |].
      exists (cs ++ [c]). split; [rewrite map_app; reflexivity |].
      rewrite length_app. simpl. lia.
    - split; [replace (k + 3 * 0)%nat with k by lia; exact Hd1 |].
      exists []. split; reflexivity.
    - intros records w2 (Hd2 & cs & -> & Hlen).
      apply post_lift. rewrite Table_of_claims; [exact Hd2 |].
      intros ->. simpl in Hlen. lia.
    - intros e w2 H. exact H. }
  pose proof (storage_generate_claims env N ids w) as Hst.
  unfold post in *. destruct (generate_claims env N ids w) as [[t | e] w'] eqn:Hrun;
    [| exact H1].
  destruct (Hst _ _ eq_refl) as [_ Hbk]. split; [exact H1 | rewrite Hbk; exact Hb].
Qed.

Ltac on_track_step lem :=
  apply post_bind; eapply post_conseq; [apply lem | | intros ? ? Habs; exact Habs].

(** a pass makes 9 draws a record, and goes through *)
Lemma run_pass_on_track path N k w :
  0 < N -> on_track k w -> (k + 9 * Z.to_nat N <= n)%nat ->
  post (run_pass env path N) w (fun _ w' => on_track (k + 9 * Z.to_nat N) w') never.
Proof.
  intros HN Ht Hroom. unfold run_pass.
  on_track_step (empty_on_track path k w Ht). intros [] w1 Ht1.
  on_track_step (patients_on_track N k w1 Ht1 ltac:(lia)). intros patients w2 [Ht2 Hlen].
  assert (Hcol : exists vs, df_getitem patients "patient_id" = Ok vs
                            /\ map py_str vs <> []).
  { unfold patient_ids_of in Hlen.
    destruct (df_getitem patients "patient_id") as [vs | e].
    - exists vs. split; [reflexivity |]. intros Heq. rewrite Heq in Hlen. simpl in Hlen. lia.
    - simpl in Hlen. lia. }
  destruct Hcol as (vs & Hvs & Hne).
  unfold patient_id_list at 1. apply post_bind, post_bind, post_lift. rewrite Hvs.
  apply post_ret.
  on_track_step (ehr_on_track N (map py_str vs) _ w2 Hne Ht2). intros ehr w3 Ht3.
  unfold patient_id_list at 1. apply post_bind, post_bind, post_lift. rewrite Hvs.
  apply post_ret.
  on_track_step (claims_on_track N (map py_str vs) _ w3 HN Hne Ht3 ltac:(lia)).
  intros claims w4 Ht4.
  on_track_step (upload_on_track (DataFrameData patients) path "patient_data.csv" "csv"
                   _ w4 Logic.I Ht4).
  intros [] w5 Ht5.
  on_track_step (upload_on_track (ListData ehr) path "ehr_data.json" "json"
                   _ w5 Logic.I Ht5).
  intros [] w6 Ht6.
  on_track_step (upload_on_track (TableData claims) path "claims_data.parquet" "parquet"
                   _ w6 Logic.I Ht6).
  intros [] w7 Ht7. apply post_ret.
  replace (k + 9 * Z.to_nat N)%nat
    with (k + 5 * Z.to_nat N + Z.to_nat N + 3 * Z.to_nat N)%nat by lia.
  exact Ht7.
Qed.

End Budget.

(** when the service answers, the bucket is there after [create_bucket] *)
Lemma create_bucket_answered env w :
  no_fault env ->
  exists w', create_bucket env w = (Ok tt, w') /\ is_Some (buckets w' !! BUCKET_NAME).
Proof.
  intros Hanswer.
  assert (Hexists : bucket_exists env BUCKET_NAME w
                    = (Ok (match buckets w !! BUCKET_NAME with
                           | Some _ => true
                           | None => false
                           end), tick_gcs w)).
  { unfold bucket_exists, bind, api_request, get_buckets, ret. rewrite Hanswer.
    reflexivity. }
  unfold create_bucket, try_except. unfold bind at 1. rewrite Hexists.
  destruct (buckets w !! BUCKET_NAME) as [objs |] eqn:Eb; cbn [negb].
  { eexists. split; [reflexivity |]. cbn [buckets with_stdout tick_gcs].
    rewrite Eb. eexists. reflexivity. }
  unfold bind at 1, client_create_bucket, bind at 1, api_request.
  cbn [gcs_tick tick_gcs]. rewrite Hanswer.
  unfold bind at 1, get_buckets. cbn [buckets tick_gcs]. rewrite Eb.
  eexists. split; [reflexivity |].
  cbn [buckets with_stdout with_buckets tick_gcs].
  rewrite lookup_insert_eq. eexists. reflexivity.
Qed.

(** X11: when the storage service answers every request, the date window is
    not empty, both record counts are positive and the generator of
    identifiers does not repeat itself over the 9 draws a record takes (5 for
    a patient, 1 for an EHR record, 3 for a claim), the script runs to its
    end: it raises nothing, whether or not the bucket was there, makes exactly
    that many draws, and ends by printing the completion message. *)
Theorem run_script_succeeds (env : Env) (dev_records prod_records : Z) (w : World) :
  no_fault env -> window_ok env -> 0 < dev_records -> 0 < prod_records ->
  fresh_source env w (9 * (Z.to_nat dev_records + Z.to_nat prod_records)) ->
  exists dev prod w',
    run_script env dev_records prod_records w = (Ok (dev, prod), w')
    /\ fk_tick w' = (fk_tick w + 9 * (Z.to_nat dev_records + Z.to_nat prod_records))%nat
    /\ last (stdout w') = Some "Data generation and upload to GCS completed successfully.".
Proof.
  intros Hanswer Hwindow Hd Hp Hfresh.
  set (n := (9 * (Z.to_nat dev_records + Z.to_nat prod_records))%nat) in *.
  assert (H : post (run_script env dev_records prod_records) w
                (fun _ w' =>
                   fk_tick w' = (fk_tick w + n)%nat
                   /\ last (stdout w')
                      = Some "Data generation and upload to GCS completed successfully.")
                never).
  { unfold run_script. apply post_bind.
    destruct (create_bucket_answered env w Hanswer) as (w1 & Hcreate & Hb1).
    unfold post at 1. rewrite Hcreate.
    assert (Ht1 : on_track env w 0 w1).
    { split; [| exact Hb1]. apply (drawn_same_source env w 0 w).
      - split; [lia | apply covered_refl].
      - exact (source_create_bucket env w _ w1 Hcreate). }
    apply post_bind. eapply post_conseq;
      [ apply (run_pass_on_track env w n Hanswer Hwindow Hfresh DEV_PATH dev_records
                 0 w1 Hd Ht1); subst n; lia
      | | intros e w2 Habs; exact Habs ].
    intros dev w2 Ht2.
    apply post_bind. eapply post_conseq;
      [ apply (run_pass_on_track env w n Hanswer Hwindow Hfresh PROD_PATH prod_records
                 _ w2 Hp Ht2); subst n; lia
      | | intros e w3 Habs; exact Habs ].
    intros prod w3 [[Ht3 _] _].
    apply post_bind, post_print, post_ret. cbn [fk_tick stdout with_stdout].
    split; [rewrite Ht3; subst n; lia | apply last_snoc]. }
  apply post_returns in H as ([dev prod] & w' & Hrun & Hticks & Hlast).
  exists dev, prod, w'. split; [exact Hrun |]. split; [exact Hticks | exact Hlast].
Qed.

Lemma run_script_succeeds_witness :
  exists dev prod w',
    run_script sample_env 2 1 fresh_world = (Ok (dev, prod), w')
    /\ fk_tick w' = (fk_tick fresh_world + 9 * (Z.to_nat 2 + Z.to_nat 1))%nat
    /\ last (stdout w') = Some "Data generation and upload to GCS completed successfully.".
Proof.
  apply (run_script_succeeds sample_env 2 1 fresh_world).
  - intros i. reflexivity.
  - exact sample_window.
  - lia.
  - lia.
  - apply sample_fresh_source. apply (bool_decide_unpack _). vm_compute. reflexivity.
Defined.
